(** * Analytics engine: a shallow embedding of [backend/app/analyzer.py]

    The Python classes [DataQualityAnalyzer], [RelationshipAnalyzer],
    [BatchComparisonAnalyzer], [GlobalMetricsAnalyzer] and [DatasetAnalyzer]
    are translated function by function.

    Numbers.  A finite Python/NumPy float is a rational number, so a float is
    modelled as a [Q] and a float that may be NaN (a null cell of a numeric
    column, or the result of a library routine on degenerate input) as an
    [option Q] with [None] for NaN.  Arithmetic written in the source
    ([+], [-], [*], [/]) is the exact arithmetic of [Q]: rounding is not
    modelled.  Library routines whose result is not rational (square root,
    [scipy.stats]) are parameters of the sections that use them.

    Containers.  A Python [dict] that is iterated is an association list in
    insertion order; a pandas [Series] is the list of its cells in row
    order; a [DataFrame] is its row count and the list of its columns in
    file order. *)

From Stdlib Require Import List String Ascii Bool Arith ZArith QArith Qabs Qround.
From Stdlib Require Import Lia Lqa Permutation Sorted.
Import ListNotations.

Set Implicit Arguments.

(* ================================================================= *)
(** * Part I: the program *)
(* ================================================================= *)

(** ** Python built-ins used by the analyzers *)

Module Py.

(** [d.get(k)] / [k in d] / [d[k]] on a dict with string keys. *)
Fixpoint dict_get {V : Type} (k : string) (d : list (string * V)) : option V :=
  match d with
  | [] => None
  | (k', v) :: d' => if String.eqb k k' then Some v else dict_get k d'
  end.

(** [enumerate(l)], counting from [i]. *)
Fixpoint enumerate_from {A : Type} (i : nat) (l : list A) : list (nat * A) :=
  match l with
  | [] => []
  | x :: l' => (i, x) :: enumerate_from (S i) l'
  end.

Definition enumerate {A : Type} (l : list A) : list (nat * A) :=
  enumerate_from 0 l.

(** [float(n)] for a non-negative integer [n]. *)
Definition of_nat (n : nat) : Q := inject_Z (Z.of_nat n).

(** [a < b] on floats. *)
Definition ltb (a b : Q) : bool := negb (Qle_bool b a).

(** [a < b] on floats that may be NaN: false as soon as one is NaN. *)
Definition nan_ltb (a b : option Q) : bool :=
  match a, b with
  | Some x, Some y => ltb x y
  | _, _ => false
  end.

Section Sort.
Variable A : Type.
(** [lt a b]: the key of [a] is smaller than the key of [b]. *)
Variable lt : A -> A -> bool.

(** Insertion of [x], which comes from a position before every element of
    [l], into [l] sorted by ascending key: [x] stays in front of the
    elements whose key is not smaller. *)
Fixpoint insert_asc (x : A) (l : list A) : list A :=
  match l with
  | [] => [x]
  | y :: l' => if lt y x then y :: insert_asc x l' else x :: l
  end.

(** The same for descending key. *)
Fixpoint insert_desc (x : A) (l : list A) : list A :=
  match l with
  | [] => [x]
  | y :: l' => if lt x y then y :: insert_desc x l' else x :: l
  end.

Definition sort_with (reverse : bool) (l : list A) : list A :=
  fold_right (if reverse then insert_desc else insert_asc) [] l.

(** No element is smaller than its successor. *)
Fixpoint ascent_free (l : list A) : Prop :=
  match l with
  | a :: (b :: _) as l' => lt a b = false /\ ascent_free l'
  | _ => True
  end.

End Sort.

(** [l.sort(key=key, reverse=reverse)] with float keys.  Python's sort is
    stable, also with [reverse=True]: elements with equal keys keep their
    original order.  On keys that are numbers the stable sorted arrangement
    is unique, so a stable insertion sort returns the list Python returns. *)
Definition sort (A : Type) (key : A -> Q) (reverse : bool) (l : list A)
  : list A :=
  sort_with (fun a b => ltb (key a) (key b)) reverse l.

(** The same with keys that may be NaN.  Python compares the keys with
    [<], which is false whenever a NaN is involved; the arrangement it
    then reaches depends on how its merge sort cuts the list into runs and
    is not a sorted one in general.  The insertion sort agrees with it on
    NaN-free keys and, for [reverse=True], on every list in which no
    element's key is [<] the key of its successor ([ascent_free]): Python
    reverses the list, finds it to be a single non-descending run, leaves
    it as it is and reverses it back; the insertion sort returns it
    unchanged as well. *)
Definition sort_nan (A : Type) (key : A -> option Q) (reverse : bool)
  (l : list A) : list A :=
  sort_with (fun a b => nan_ltb (key a) (key b)) reverse l.

(** [a] may stand before [b] in a list sorted by descending key. *)
Definition desc (A : Type) (key : A -> Q) (a b : A) : Prop := key b <= key a.

(** [x] is the first element of [l] with the greatest key: the keys
    before it are smaller, the keys after it are not greater. *)
Definition first_maximum (A : Type) (key : A -> Q) (l : list A) (x : A) : Prop :=
  exists before after,
    l = before ++ x :: after /\
    (forall e, In e before -> key e < key x) /\
    (forall e, In e after -> key e <= key x).

(** ASCII model of [str.lower()]. *)
Definition lower_ascii (c : ascii) : ascii :=
  let n := nat_of_ascii c in
  if ((65 <=? n) && (n <=? 90))%nat then ascii_of_nat (n + 32) else c.

Fixpoint lower (s : string) : string :=
  match s with
  | EmptyString => EmptyString
  | String c s' => String (lower_ascii c) (lower s')
  end.

(** ASCII model of [str.isspace()] on one character. *)
Definition is_space (c : ascii) : bool :=
  let n := nat_of_ascii c in
  (((9 <=? n) && (n <=? 13)) || ((28 <=? n) && (n <=? 32)))%nat.

Fixpoint lstrip (s : string) : string :=
  match s with
  | EmptyString => EmptyString
  | String c s' => if is_space c then lstrip s' else s
  end.

(** [rstrip]: a character is kept when it is not a space or when
    something is kept after it. *)
Fixpoint rstrip (s : string) : string :=
  match s with
  | EmptyString => EmptyString
  | String c s' =>
      match rstrip s' with
      | EmptyString => if is_space c then EmptyString else String c EmptyString
      | r => String c r
      end
  end.

(** [s.strip()] *)
Definition strip (s : string) : string := rstrip (lstrip s).

(** [kw in s] on strings: [kw] occurs in [s] as a substring. *)
Fixpoint contains (kw s : string) : bool :=
  (String.prefix kw s ||
   match s with
   | EmptyString => false
   | String _ s' => contains kw s'
   end)%bool.

End Py.

(** ** pandas / NumPy reductions on numeric data *)

Module Np.

(** A numeric [Series] or float array: [None] is NaN (a null cell). *)
Definition Series := list (option Q).

(** [series.isna().sum()] *)
Definition count_na (s : Series) : nat :=
  List.length (filter (fun c => match c with None => true | Some _ => false end) s).

(** [series.isna().all()] *)
Definition all_na (s : Series) : bool :=
  forallb (fun c => match c with None => true | Some _ => false end) s.

(** [series.dropna()] *)
Fixpoint dropna (s : Series) : list Q :=
  match s with
  | [] => []
  | Some v :: s' => v :: dropna s'
  | None :: s' => dropna s'
  end.

Definition sum (l : list Q) : Q := fold_right Qplus 0 l.

(** [mean] of a non-empty list. *)
Definition mean (l : list Q) : Q := sum l / Py.of_nat (List.length l).

Definition qmin (a b : Q) : Q := if Py.ltb b a then b else a.
Definition qmax (a b : Q) : Q := if Py.ltb a b then b else a.

(** [min] and [max] of the list [x :: l]. *)
Definition min_of (x : Q) (l : list Q) : Q := fold_left qmin l x.
Definition max_of (x : Q) (l : list Q) : Q := fold_left qmax l x.

(** Sum of squared deviations from the mean. *)
Definition ssd (l : list Q) : Q :=
  let m := mean l in sum (map (fun v => (v - m) * (v - m)) l).

(** [np.diff] / [Series.diff().dropna()] on data without nulls:
    successive differences. *)
Fixpoint diff (l : list Q) : list Q :=
  match l with
  | a :: (b :: _) as l' => (b - a) :: diff l'
  | _ => []
  end.

Section Sqrt.
(** The floating-point square root. *)
Variable sqrt : Q -> Q.

(** pandas [Series.std()] on data without nulls: sample standard deviation
    (ddof = 1); NaN below two values. *)
Definition std_sample (l : list Q) : option Q :=
  if (List.length l <? 2)%nat then None
  else Some (sqrt (ssd l / Py.of_nat (List.length l - 1))).

(** [np.std] / [np.nanstd] on data without nulls: population standard
    deviation (ddof = 0) of a non-empty list. *)
Definition std_pop (l : list Q) : Q :=
  sqrt (ssd l / Py.of_nat (List.length l)).

End Sqrt.

(** [a - b] and [a / b] on floats that may be NaN.  [nan_div] is used
    only where the divisor is not zero. *)
Definition nan_sub (a b : option Q) : option Q :=
  match a, b with
  | Some x, Some y => Some (x - y)
  | _, _ => None
  end.

Definition nan_add (a b : option Q) : option Q :=
  match a, b with
  | Some x, Some y => Some (x + y)
  | _, _ => None
  end.

Definition nan_mul (a b : option Q) : option Q :=
  match a, b with
  | Some x, Some y => Some (x * y)
  | _, _ => None
  end.

Definition nan_div (a b : option Q) : option Q :=
  match a, b with
  | Some x, Some y => Some (x / y)
  | _, _ => None
  end.

(** [np.diff] on an array that may hold NaN. *)
Fixpoint np_diff (l : Series) : Series :=
  match l with
  | a :: (b :: _) as l' => nan_sub b a :: np_diff l'
  | _ => []
  end.

(** [np.trapezoid(y, x)] on two arrays of the same length:
    the sum of [(x[i+1] - x[i]) * (y[i+1] + y[i]) / 2]. *)
Fixpoint trapezoid (y x : list Q) : Q :=
  match y, x with
  | y0 :: (y1 :: _) as y', x0 :: (x1 :: _) as x' =>
      (x1 - x0) * (y1 + y0) / 2 + trapezoid y' x'
  | _, _ => 0
  end.

(** [np.percentile(a, q)] with the default linear interpolation on a
    non-empty array without NaN: with [s] the sorted array and
    [h = (n - 1) * q / 100], the value [s[lo] + (h - lo) * (s[hi] - s[lo])]
    where [lo] is [h] rounded down and [hi] the next index, if any. *)
Definition percentile (a : list Q) (q : Q) : Q :=
  let s := Py.sort (fun v => v) false a in
  let n := List.length s in
  let h := Py.of_nat (n - 1) * q / 100 in
  let lo := Z.to_nat (Qfloor h) in
  let hi := Nat.min (lo + 1) (n - 1) in
  nth lo s 0 + (h - Py.of_nat lo) * (nth hi s 0 - nth lo s 0).

(** [np.percentile], [np.mean] and [np.std] on an array that may hold
    NaN: the result is NaN as soon as one entry is. *)
Definition nan_percentile (a : Series) (q : Q) : option Q :=
  if (count_na a =? 0)%nat then Some (percentile (dropna a) q) else None.

Definition np_mean (l : Series) : option Q :=
  if (count_na l =? 0)%nat then Some (mean (dropna l)) else None.

Definition np_std (sqrt : Q -> Q) (l : Series) : option Q :=
  if (count_na l =? 0)%nat then Some (std_pop sqrt (dropna l)) else None.

(** A square root for the worked examples: rounded down to six decimals. *)
Definition sqrt6 (q : Q) : Q :=
  Z.sqrt (Qfloor (q * 1000000000000)) # 1000000.

End Np.

(** ** pandas data frames *)

Module Pd.

(** A cell of a column.  [CNull] is a missing value (NaN / None). *)
Inductive Cell :=
| CNull
| CInt (z : Z)
| CFloat (q : Q)
| CBool (b : bool)
| CStr (s : string).

(** The column dtypes the CSV reader produces. *)
Inductive DType := DInt | DFloat | DBool | DObject.

Record Column := mkColumn {
  name : string;
  dtype : DType;
  cells : list Cell
}.

(** [nrows] is [len(df)]; every column has [nrows] cells. *)
Record DataFrame := mkDataFrame {
  nrows : nat;
  columns : list Column
}.

(** [pd.api.types.is_numeric_dtype] and [is_float_dtype]. *)
Definition is_numeric_dtype (c : Column) : bool :=
  match dtype c with DObject => false | _ => true end.

Definition is_float_dtype (c : Column) : bool :=
  match dtype c with DFloat => true | _ => false end.

(** The number a cell holds, if it holds one. *)
Definition cell_num (c : Cell) : option Q :=
  match c with
  | CInt z => Some (inject_Z z)
  | CFloat q => Some q
  | CBool b => Some (if b then 1 else 0)
  | _ => None
  end.

(** Elementwise [==]: numbers by value, strings by content; a null is
    equal to nothing, itself included. *)
Definition cell_eqb (a b : Cell) : bool :=
  match a, b with
  | CStr s, CStr t => String.eqb s t
  | CNull, _ | _, CNull => false
  | _, _ =>
      match cell_num a, cell_num b with
      | Some x, Some y => Qeq_bool x y
      | _, _ => false
      end
  end.

(** Identity of values for [unique], [nunique] and [value_counts]: as
    [cell_eqb], except that all nulls count as one value. *)
Definition cell_same (a b : Cell) : bool :=
  match a, b with
  | CNull, CNull => true
  | _, _ => cell_eqb a b
  end.

(** [series.unique()]: the distinct values in order of first appearance. *)
Fixpoint unique_acc (seen : list Cell) (l : list Cell) : list Cell :=
  match l with
  | [] => []
  | c :: l' =>
      if existsb (cell_same c) seen then unique_acc seen l'
      else c :: unique_acc (c :: seen) l'
  end.

Definition unique (l : list Cell) : list Cell := unique_acc [] l.

(** [df[name]]: the first column of that name ([None]: KeyError). *)
Definition get (df : DataFrame) (n : string) : option Column :=
  find (fun c => String.eqb (name c) n) (columns df).

(** [values[mask]] where [mask = (bcol == b)]. *)
Definition select (A : Type) (values : list A) (bcol : list Cell) (b : Cell)
  : list A :=
  map fst (filter (fun p => cell_eqb (snd p) b) (combine values bcol)).

Section Parse.
(** The parser of [pd.to_numeric] on one string: the number, or [None]
    when the string is not numeric. *)
Variable parse : string -> option Q.

(** [pd.to_numeric(series, errors='coerce')] *)
Definition to_numeric (l : list Cell) : Np.Series :=
  map (fun c => match c with
                | CStr s => parse s
                | _ => cell_num c
                end) l.

End Parse.

(** A parser for the worked examples: it reads non-empty strings of
    decimal digits. *)
Fixpoint digits_acc (acc : Z) (s : string) : option Z :=
  match s with
  | EmptyString => Some acc
  | String c s' =>
      let n := nat_of_ascii c in
      if ((48 <=? n) && (n <=? 57))%nat
      then digits_acc (acc * 10 + Z.of_nat (n - 48)) s'
      else None
  end.

Definition parse_digits (s : string) : option Q :=
  match s with
  | EmptyString => None
  | _ => option_map inject_Z (digits_acc 0 s)
  end.

(** [series.values.astype(float)] on a column of numeric dtype. *)
Definition astype_float (l : list Cell) : Np.Series := map cell_num l.

End Pd.

(** ** class DataQualityAnalyzer *)

Module DataQualityAnalyzer.
Import Np.

(** [series.isna().sum() / len(series) * 100]; on an empty series NumPy's
    [0 / 0] is NaN. *)
Definition compute_missing_percentage (series : Series) : option Q :=
  match series with
  | [] => None
  | _ => Some (Py.of_nat (count_na series) / Py.of_nat (List.length series) * 100)
  end.

Inductive DensityType := Empty | Sparse | Intermittent | Offline | Continuous.

(** The dict returned by [classify_signal_density]; an absent key is [None]. *)
Record Density := mkDensity {
  density_type : DensityType;
  density : Q;
  reason : option string;
  zero_pct : option Q
}.

(** [a > b] where [a] may be NaN: every comparison with NaN is false. *)
Definition nan_gtb (a : option Q) (b : Q) : bool :=
  match a with Some v => Py.ltb b v | None => false end.

Definition classify_signal_density (series : Series) (missing_pct : option Q)
  : Density :=
  let valid_count := (List.length series - count_na series)%nat in
  let total_count := List.length series in
  if (total_count =? 0)%nat then mkDensity Empty 0 None None
  else
    let density := Py.of_nat valid_count / Py.of_nat total_count in
    if nan_gtb missing_pct 70 then
      mkDensity Sparse density (Some "high_missing"%string) None
    else if nan_gtb missing_pct 30 then
      mkDensity Intermittent density (Some "moderate_missing"%string) None
    else
      let non_null := dropna series in
      let zeros := List.length (filter (fun v => Qeq_bool v 0) non_null) in
      let zero_pct := Py.of_nat zeros / Py.of_nat (List.length non_null) * 100 in
      if ((0 <? List.length non_null)%nat && Py.ltb 50 zero_pct)%bool then
        mkDensity Offline density None (Some zero_pct)
      else
        mkDensity Continuous density None None.

(** [range(non-null values)] in the words of the specification: the
    largest minus the smallest non-null value; NaN when there is none. *)
Definition value_range (series : Series) : option Q :=
  match dropna series with
  | [] => None
  | d0 :: rest => Some (max_of d0 rest - min_of d0 rest)
  end.

(** The dict returned by [detect_flatline]; an absent key is [None]. *)
Record Flatline := mkFlatline {
  is_flatlined : bool;
  flatline_pct : option Q;
  constant_value : option Q;
  cv : option Q;
  relative_range : option Q
}.

Section WithSqrt.
Variable sqrt : Q -> Q.

(** The parameter [threshold_pct] of the source is never read. *)
Definition detect_flatline (series : Series) : Flatline :=
  match dropna series with
  | [] | [_] => mkFlatline false (Some 0) None None None
  | (d0 :: rest) as data =>
      let data_range := max_of d0 rest - min_of d0 rest in
      let data_std := sqrt (ssd data / Py.of_nat (List.length data - 1)) in
      let data_mean := Qabs (mean data) in
      if Qeq_bool data_range 0 then
        mkFlatline true (Some 100) (Some d0) None None
      else
        let cv := if Py.ltb 0 data_mean then data_std / data_mean else 0 in
        let relative_range :=
          if Py.ltb 0 data_mean then data_range / data_mean else data_range in
        mkFlatline (Py.ltb cv (1 # 1000) && Py.ltb relative_range (1 # 100))%bool
                   None None (Some cv) (Some relative_range)
  end.

(** The dict returned by [compute_sampling_stats]. *)
Inductive Sampling :=
| SamplingUnavailable
| SamplingStats (mean_interval std_interval min_interval max_interval
                 regularity_score : Q) (is_regular : bool).

(** Sorted non-null times, their successive differences, the positive
    ones: [t.dropna().sort_values().diff().dropna()] filtered by [> 0]. *)
Definition positive_intervals (time_data : Series) : list Q :=
  filter (fun d => Py.ltb 0 d) (diff (Py.sort (fun v => v) false (dropna time_data))).

(** The loop over [batch_col.unique()]. *)
Fixpoint batch_intervals (time_data : Series) (batch_col : list Pd.Cell)
  (batches : list Pd.Cell) : list Q :=
  match batches with
  | [] => []
  | batch :: rest =>
      let batch_time := dropna (Pd.select time_data batch_col batch) in
      (if (1 <? List.length batch_time)%nat
       then positive_intervals (Pd.select time_data batch_col batch)
       else [])
      ++ batch_intervals time_data batch_col rest
  end.

(** [time_series] is numeric already at every call, so the
    [pd.to_numeric] of the first line leaves it as it is. *)
Definition compute_sampling_stats (time_series : Series)
  (batch_col : option (list Pd.Cell)) : Sampling :=
  let time_data := time_series in
  if (all_na time_data || (List.length time_data <? 2)%nat)%bool
  then SamplingUnavailable
  else
    let intervals :=
      match batch_col with
      | Some bc => batch_intervals time_data bc (Pd.unique bc)
      | None => positive_intervals time_data
      end in
    match intervals with
    | [] => SamplingUnavailable
    | i0 :: rest =>
        let mean_interval := mean intervals in
        let std_interval :=
          if (1 <? List.length intervals)%nat
          then sqrt (ssd intervals / Py.of_nat (List.length intervals - 1))
          else 0 in
        let cv := if Py.ltb 0 mean_interval
                  then std_interval / mean_interval else 0 in
        let regularity := qmax 0 (1 - qmin 1 cv) in
        SamplingStats mean_interval std_interval
                      (min_of i0 rest) (max_of i0 rest)
                      regularity (Py.ltb (1 # 2) regularity)
    end.

End WithSqrt.

End DataQualityAnalyzer.

(** ** class TemporalAnalyzer *)

Module TemporalAnalyzer.
Import Np.

(** NumPy broadcasting of [a / b] on one-dimensional arrays: the lengths
    are equal, or one of the arrays has length 1 and is repeated;
    otherwise NumPy raises ValueError ([None]). *)
Definition broadcast_div (a b : Series) : option Series :=
  if (List.length a =? List.length b)%nat
  then Some (map (fun p => nan_div (fst p) (snd p)) (combine a b))
  else
    match b with
    | [d] => Some (map (fun v => nan_div v d) a)
    | _ =>
        match a with
        | [v] => Some (map (fun d => nan_div v d) b)
        | _ => None
        end
    end.

(** [np.where(dt == 0, np.nan, dt)] *)
Definition zero_to_nan (dt : Series) : Series :=
  map (fun d => match d with
                | Some t => if Qeq_bool t 0 then None else Some t
                | None => None
                end) dt.

(** The slope between two successive samples, from the pair of the
    difference of the values and the difference of the times: NaN on a
    repeated time. *)
Definition slope_of (p : Q * Q) : option Q :=
  if Qeq_bool (snd p) 0 then None else Some (fst p / snd p).

Definition compute_derivative (time values : Series) : option Series :=
  if (List.length time <? 2)%nat then Some []
  else
    let dt := np_diff time in
    let dv := np_diff values in
    let dt := zero_to_nan dt in
    broadcast_div dv dt.

(** The dict returned by [compute_growth_metrics]; an absent key is [None]. *)
Record GrowthMetrics := mkGrowthMetrics {
  is_growth_like : bool;
  monotonicity_ratio : option Q;
  max_slope : option Q;
  mean_slope : option Q;
  slope_std : option Q;
  stability_score : option Q
}.

(** [np.sum(diffs > 0)]: a NaN is not positive. *)
Definition count_positive (diffs : Series) : nat :=
  List.length (filter (fun d => match d with
                                | Some v => Py.ltb 0 v
                                | None => false
                                end) diffs).

Section WithSqrt.
Variable sqrt : Q -> Q.

(** [None] is the ValueError of [compute_derivative]. *)
Definition compute_growth_metrics (time values : Series)
  : option GrowthMetrics :=
  if (List.length values <? 5)%nat
  then Some (mkGrowthMetrics false None None None None None)
  else
    let diffs := np_diff values in
    let positive_ratio :=
      Py.of_nat (count_positive diffs) / Py.of_nat (List.length diffs) in
    let is_growth_like := Py.ltb (7 # 10) positive_ratio in
    if negb is_growth_like
    then Some (mkGrowthMetrics false (Some positive_ratio) None None None None)
    else
      match compute_derivative time values with
      | None => None
      | Some derivative =>
          match dropna derivative with
          | [] => Some (mkGrowthMetrics true (Some positive_ratio)
                          None None None None)
          | (d0 :: rest) as valid_deriv =>
              let max_slope := max_of d0 rest in
              let mean_slope := mean valid_deriv in
              let slope_std := std_pop sqrt valid_deriv in
              let stability :=
                if Qeq_bool mean_slope 0 then 0
                else 1 - qmin 1 (slope_std / Qabs mean_slope) in
              Some (mkGrowthMetrics true (Some positive_ratio)
                      (Some max_slope) (Some mean_slope) (Some slope_std)
                      (Some stability))
          end
      end.

End WithSqrt.

Inductive PhaseType := Increasing | Decreasing | Stationary.

Definition phase_eqb (a b : PhaseType) : bool :=
  match a, b with
  | Increasing, Increasing | Decreasing, Decreasing
  | Stationary, Stationary => true
  | _, _ => false
  end.

(** One entry of the list returned by [segment_phases]; a time or a
    duration is Python's [None] when the index is past the end of [time]. *)
Record Phase := mkPhase {
  phase_type : PhaseType;
  start_index : nat;
  end_index : nat;
  start_time : option Q;
  end_time : option Q;
  duration : option Q;
  mean_rate : Q
}.

(** The type the loop gives to one value of the derivative. *)
Definition classify_rate (threshold d : Q) : PhaseType :=
  if Py.ltb threshold d then Increasing
  else if Py.ltb d (- threshold) then Decreasing
  else Stationary.

(** [derivative[a:b]] *)
Definition slice (A : Type) (l : list A) (a b : nat) : list A :=
  firstn (b - a) (skipn a l).

(** The state of the loop of [segment_phases]:
    [(phases, current_phase, phase_start)]. *)
Definition PhaseState := (list Phase * option PhaseType * nat)%type.

(** [phase_type != current_phase] *)
Definition phase_changes (current_phase : option PhaseType) (p : PhaseType)
  : bool :=
  match current_phase with
  | Some c => negb (phase_eqb p c)
  | None => true
  end.

(** The phase closed at index [i], which is not part of it. *)
Definition closed_phase (time derivative : list Q) (current : PhaseType)
  (phase_start i : nat) : Phase :=
  mkPhase current phase_start (i - 1)
          (nth_error time phase_start)
          (nth_error time (i - 1))
          (match nth_error time (i - 1) with
           | Some t_end => Some (t_end - nth phase_start time 0)
           | None => None
           end)
          (mean (slice derivative phase_start i)).

(** One iteration of the loop body, at index [i] with value [d]. *)
Definition phase_step (time derivative : list Q) (min_phase_length : nat)
  (threshold : Q) (st : PhaseState) (id : nat * Q) : PhaseState :=
  let '(phases, current_phase, phase_start) := st in
  let (i, d) := id in
  let p := classify_rate threshold d in
  if phase_changes current_phase p then
    let phases :=
      match current_phase with
      | Some current =>
          if (min_phase_length <=? i - phase_start)%nat
          then phases ++ [closed_phase time derivative current phase_start i]
          else phases
      | None => phases
      end in
    (phases, Some p, i)
  else st.

(** The phase that is open when the loop ends. *)
Definition last_phase (time derivative : list Q) (current : PhaseType)
  (phase_start : nat) (t_last : Q) : Phase :=
  mkPhase current phase_start (List.length derivative - 1)
          (nth_error time phase_start)
          (Some t_last)
          (match nth_error time phase_start with
           | Some t_start => Some (t_last - t_start)
           | None => None
           end)
          (mean (skipn phase_start derivative)).

(** What makes a reported phase right for a derivative: it is at least
    [min_phase_length] samples long and lies within the derivative, every
    sample in it has the type of the phase, and the samples just before
    and just after it, where there are any, have another type. *)
Definition phase_sound (derivative : list Q) (threshold : Q)
  (min_phase_length : nat) (p : Phase) : Prop :=
  (start_index p + min_phase_length <= end_index p + 1)%nat /\
  (start_index p <= end_index p < List.length derivative)%nat /\
  (forall i d, (start_index p <= i <= end_index p)%nat ->
     nth_error derivative i = Some d ->
     classify_rate threshold d = phase_type p) /\
  (forall d, (0 < start_index p)%nat ->
     nth_error derivative (start_index p - 1) = Some d ->
     classify_rate threshold d <> phase_type p) /\
  (forall d, nth_error derivative (end_index p + 1) = Some d ->
     classify_rate threshold d <> phase_type p).

(** [p] ends before [q] starts. *)
Definition phase_before (p q : Phase) : Prop :=
  (end_index p < start_index q)%nat.

(** The invariant of the loop of [segment_phases] after [k] samples. *)
Definition phases_so_far (derivative : list Q) (threshold : Q)
  (min_phase_length k : nat) (st : PhaseState) : Prop :=
  let '(phases, current_phase, phase_start) := st in
  Forall (phase_sound derivative threshold min_phase_length) phases /\
  StronglySorted phase_before phases /\
  (forall p, In p phases -> (end_index p < phase_start)%nat) /\
  match current_phase with
  | None => k = 0%nat /\ phases = []
  | Some c =>
      (phase_start < k)%nat /\
      (forall i d, (phase_start <= i < k)%nat ->
         nth_error derivative i = Some d -> classify_rate threshold d = c) /\
      (forall d, (0 < phase_start)%nat ->
         nth_error derivative (phase_start - 1) = Some d ->
         classify_rate threshold d <> c)
  end.

Section WithFilters.
(** [scipy.ndimage.uniform_filter1d(values, size=window, mode='nearest')]
    and [np.gradient]; [np.gradient] raises ValueError ([None]) on an
    array it finds too short. *)
Variable uniform_filter1d : list Q -> nat -> list Q.
Variable gradient : list Q -> option (list Q).
Variable sqrt : Q -> Q.

(** [smooth_signal] *)
Definition smooth_signal (values : list Q) (window : nat) : list Q :=
  if (List.length values <? window)%nat then values
  else uniform_filter1d values window.

(** [segment_phases] on arrays without NaN, as its caller passes them.
    [None] is an exception: the ValueError of [np.gradient], or the
    IndexError of [time[-1]] on an empty [time]. *)
Definition segment_phases (time values : list Q) (min_phase_length : nat)
  : option (list Phase) :=
  if (List.length values <? min_phase_length * 2)%nat then Some []
  else
    let window := Nat.max 3 (List.length values / 20) in
    let smoothed := uniform_filter1d values window in
    match gradient smoothed with
    | None => None
    | Some derivative =>
        let threshold := std_pop sqrt derivative * (1 # 2) in
        let '(phases, current_phase, phase_start) :=
          fold_left (phase_step time derivative min_phase_length threshold)
                    (Py.enumerate derivative) ([], None, 0%nat) in
        match current_phase with
        | Some current =>
            if (min_phase_length <=? List.length derivative - phase_start)%nat
            then
              match time with
              | [] => None
              | t0 :: time' =>
                  Some (phases ++ [last_phase time derivative current phase_start
                                     (last time' t0)])
              end
            else Some phases
        | None => Some phases
        end
    end.

End WithFilters.

End TemporalAnalyzer.

(** ** class RelationshipAnalyzer *)

Module RelationshipAnalyzer.
Import Np.

(** The dict returned by [compute_correlations]; a coefficient or p-value
    is a float and may be NaN. *)
Inductive Correlations :=
| CorrUnavailable
| CorrStats (pearson_r pearson_p spearman_r spearman_p : option Q)
            (n_samples : nat).

(** The dict returned by [compute_lagged_correlation]; the lag profile is
    the list of [(lag, correlation)] entries in the order they were
    appended. *)
Inductive Lagged :=
| LagUnavailable
| LagStats (best_lag : Z) (best_correlation : Q)
           (lag_profile : list (Z * option Q)).

(** The dict returned by [compute_relationship_stability]. *)
Inductive Stability :=
| StabUnavailable
| StabStats (mean_correlation std_correlation : option Q)
            (consistency_score : Q) (is_stable : bool).

(** [x[mask], y[mask]] with [mask = ~(np.isnan(x) | np.isnan(y))]: the
    rows on which both values are present, as pairs.  [x] and [y] have the
    same length. *)
Fixpoint clean_pairs (x y : Series) : list (Q * Q) :=
  match x, y with
  | Some a :: x', Some b :: y' => (a, b) :: clean_pairs x' y'
  | _ :: x', _ :: y' => clean_pairs x' y'
  | _, _ => []
  end.

(** [range(-max_lag, max_lag + 1)] *)
Definition lag_range (max_lag : Z) : list Z :=
  map (fun i => (- max_lag + Z.of_nat i)%Z)
      (seq 0 (Z.to_nat (2 * max_lag + 1))).

(** The two slices taken for one lag. *)
Definition shift (x_clean y_clean : list Q) (lag : Z) : list Q * list Q :=
  let n := List.length x_clean in
  let k := Z.abs_nat lag in
  if (lag <? 0)%Z then (firstn (n - k) x_clean, skipn k y_clean)
  else if (0 <? lag)%Z then (skipn k x_clean, firstn (n - k) y_clean)
  else (x_clean, y_clean).

(** [abs(r) > abs(best_corr)], false when [r] is NaN. *)
Definition abs_gtb (r : option Q) (best_corr : Q) : bool :=
  match r with
  | Some v => Py.ltb (Qabs best_corr) (Qabs v)
  | None => false
  end.

Section WithStats.
(** [scipy.stats.pearsonr] and [scipy.stats.spearmanr] on two arrays
    without nulls: the coefficient and the p-value, each possibly NaN. *)
Variable pearsonr : list Q -> list Q -> option Q * option Q.
Variable spearmanr : list Q -> list Q -> option Q * option Q.
(** [np.sqrt], for [np.nanstd]. *)
Variable sqrt : Q -> Q.

Definition compute_correlations (x y : Series) : Correlations :=
  let xy := clean_pairs x y in
  let x_clean := map fst xy in
  let y_clean := map snd xy in
  if (List.length x_clean <? 5)%nat then CorrUnavailable
  else
    let (pearson_r, pearson_p) := pearsonr x_clean y_clean in
    let (spearman_r, spearman_p) := spearmanr x_clean y_clean in
    CorrStats pearson_r pearson_p spearman_r spearman_p (List.length x_clean).

(** The state of the loop over the lags:
    [(best_lag, best_corr, lag_results)]. *)
Definition LagState := (Z * Q * list (Z * option Q))%type.

(** An invariant of the loop: the best correlation is at least as strong as
    every number in the profile, and the best lag is the first entry of
    that strength, unless nothing but zeros and NaN has been seen. *)
Definition best_so_far (st : LagState) : Prop :=
  let '(best_lag, best_corr, profile) := st in
  (forall lag r, In (lag, Some r) profile -> Qabs r <= Qabs best_corr) /\
  ((best_lag = 0%Z /\ best_corr = 0) \/
   (0 < Qabs best_corr /\
    exists before after,
      profile = before ++ (best_lag, Some best_corr) :: after /\
      forall lag r, In (lag, Some r) before -> Qabs r < Qabs best_corr)).

(** The correlation the loop computes at one lag:
    [stats.pearsonr(x_shifted, y_shifted)[0]]. *)
Definition lag_correlation (x_clean y_clean : list Q) (lag : Z) : option Q :=
  let (x_shifted, y_shifted) := shift x_clean y_clean lag in
  fst (pearsonr x_shifted y_shifted).

(** One iteration of the loop body. *)
Definition lag_step (x_clean y_clean : list Q) (st : LagState) (lag : Z)
  : LagState :=
  let '(best_lag, best_corr, lag_results) := st in
  let (x_shifted, y_shifted) := shift x_clean y_clean lag in
  if (List.length x_shifted <? 5)%nat then st
  else
    let r := fst (pearsonr x_shifted y_shifted) in
    let lag_results := lag_results ++ [(lag, r)] in
    match r with
    | Some v =>
        if abs_gtb r best_corr then (lag, v, lag_results)
        else (best_lag, best_corr, lag_results)
    | None => (best_lag, best_corr, lag_results)
    end.

(** The entries one lag contributes to the lag profile: none when the
    overlap is shorter than 5, one otherwise. *)
Definition lag_entry (x_clean y_clean : list Q) (lag : Z)
  : list (Z * option Q) :=
  let (x_shifted, y_shifted) := shift x_clean y_clean lag in
  if (List.length x_shifted <? 5)%nat then []
  else [(lag, fst (pearsonr x_shifted y_shifted))].

Definition compute_lagged_correlation (x y : Series) (max_lag : Z) : Lagged :=
  let xy := clean_pairs x y in
  let x_clean := map fst xy in
  let y_clean := map snd xy in
  if (Z.of_nat (List.length x_clean) <? max_lag + 5)%Z then LagUnavailable
  else
    let '(best_lag, best_corr, lag_results) :=
      fold_left (lag_step x_clean y_clean) (lag_range max_lag) (0%Z, 0, []) in
    LagStats best_lag best_corr lag_results.

(** [1 - min(1, v)] where [v] may be NaN: [min(1, nan)] is [1]. *)
Definition one_minus_min1 (v : option Q) : Q :=
  match v with
  | Some c => 1 - qmin 1 c
  | None => 1 - 1
  end.

(** [np.nanmean], [np.nanstd]: NaN entries are ignored; NaN when nothing
    is left. *)
Definition nanmean (l : Series) : option Q :=
  match dropna l with [] => None | d => Some (mean d) end.

Definition nanstd (l : Series) : option Q :=
  match dropna l with [] => None | d => Some (std_pop sqrt d) end.

Definition compute_relationship_stability (correlations_by_batch : Series)
  : Stability :=
  if (List.length correlations_by_batch <? 2)%nat then StabUnavailable
  else
    let mean_corr := nanmean correlations_by_batch in
    let std_corr := nanstd correlations_by_batch in
    let ratio := match std_corr, mean_corr with
                 | Some sd, Some m => Some (sd / (Qabs m + (1 # 100)))
                 | _, _ => None
                 end in
    let consistency := one_minus_min1 ratio in
    StabStats mean_corr std_corr consistency (Py.ltb (7 # 10) consistency).

End WithStats.

End RelationshipAnalyzer.

(** ** Exact statistics *)

Module ExactStats.
Import Np.

Definition dot (a b : list Q) : Q :=
  sum (map (fun p => fst p * snd p) (combine a b)).

(** Deviations from the mean. *)
Definition center (l : list Q) : list Q := map (fun v => v - mean l) l.

Definition sign (q : Q) : Q := if Py.ltb q 0 then -1 else 1.

(** The Pearson coefficient of two arrays of equal length without nulls,
    in exact arithmetic.  With [sxy], [sxx], [syy] the sums of products of
    deviations, [r = sxy / sqrt (sxx * syy)] is irrational in general; the
    model carries [r] as the rational number [r * |r|], that is
    [sign sxy * sxy^2 / (sxx * syy)].  The map from [r] to [r * |r|] is
    strictly increasing and odd on [[-1, 1]] and fixes -1, 0 and 1, so
    comparisons of [|r|] and the values -1, 0, 1 read the same on both.
    On a constant array the coefficient is undefined and [scipy] returns
    NaN.  [Qred] picks the reduced fraction. *)
Definition pearson (x y : list Q) : option Q :=
  let dx := center x in
  let dy := center y in
  let sxx := dot dx dx in
  let syy := dot dy dy in
  let sxy := dot dx dy in
  if (Qeq_bool sxx 0 || Qeq_bool syy 0)%bool then None
  else Some (Qred (sign sxy * (sxy * sxy) / (sxx * syy))).

(** [scipy.stats.pearsonr] with this coefficient; the p-value is left to
    a parameter. *)
Definition pearsonr (p_value : list Q -> list Q -> option Q)
  (x y : list Q) : option Q * option Q :=
  (pearson x y, p_value x y).

(** A least-squares fit for the worked examples: the slope and the
    intercept are exact, the correlation coefficient is computed with
    the six-decimal square root and clipped to [[-1, 1]], and it is 0 when
    one of the variances is; the p-value and the standard error are not
    computed. *)
Definition linregress6 (x y : list Q) : Q * Q * Q :=
  let dx := center x in
  let dy := center y in
  let sxx := dot dx dx in
  let syy := dot dy dy in
  let sxy := dot dx dy in
  let slope := sxy / sxx in
  let r := if (Qeq_bool sxx 0 || Qeq_bool syy 0)%bool then 0
           else qmax (-1) (qmin 1 (sxy / sqrt6 (sxx * syy))) in
  (slope, mean y - slope * mean x, r).

(** A stand-in for the statistics a worked example does not look at. *)
Definition no_stat (x y : list Q) : option Q * option Q := (None, None).

End ExactStats.

(** ** class BatchComparisonAnalyzer *)

Module BatchComparisonAnalyzer.

(** The dict returned by [compute_batch_metrics]: metric name to value.
    A value is a float and may be NaN ([None]): [rank_batches] and the
    functions after it take any such dict. *)
Definition Metrics := list (string * option Q).

(** A dict of metrics whose values are numbers. *)
Definition of_numbers (m : list (string * Q)) : Metrics :=
  map (fun kv => (fst kv, Some (snd kv))) m.

(** [batch_metrics: Dict[str, Dict]], in insertion order. *)
Definition BatchMetrics := list (string * Metrics).

(** One entry of the list returned by [rank_batches]. *)
Record Ranking := mkRanking {
  batch_id : string;
  value : option Q;
  rank : nat;
  normalized_score : Q
}.

(** The first loop of [rank_batches]: the batches that have [metric_key],
    in dict order, with the metric's value. *)
Fixpoint collect (batch_metrics : BatchMetrics) (metric_key : string)
  : list (string * option Q) :=
  match batch_metrics with
  | [] => []
  | (b, metrics) :: rest =>
      match Py.dict_get metric_key metrics with
      | Some v => (b, v) :: collect rest metric_key
      | None => collect rest metric_key
      end
  end.

(** [1 - (i / len(rankings)) if len(rankings) > 1 else 1.0] *)
Definition score (i n : nat) : Q :=
  if (1 <? n)%nat then 1 - Py.of_nat i / Py.of_nat n else 1.

(** [rank_batches].  The sort compares the values with [<], which is
    false on a NaN; see [Py.sort_nan] for where the arrangement is the one
    Python reaches. *)
Definition rank_batches (batch_metrics : BatchMetrics) (metric_key : string)
  (higher_is_better : bool) : list Ranking :=
  let rankings := collect batch_metrics metric_key in
  let rankings := Py.sort_nan (fun x => snd x) higher_is_better rankings in
  map (fun ir : nat * (string * option Q) =>
         let (i, r) := ir in
         mkRanking (fst r) (snd r) (i + 1) (score i (List.length rankings)))
      (Py.enumerate rankings).

(** [a] may stand before [b] in the ranking: with "higher is better"
    the value of [b] is not greater, otherwise it is not smaller; no order
    is defined on a NaN. *)
Definition ranked_before (higher_is_better : bool) (a b : Ranking) : Prop :=
  match value a, value b with
  | Some x, Some y => if higher_is_better then y <= x else x <= y
  | _, _ => False
  end.

(** The score the specification text gives to a rank among [n] batches:
    [1 - (rank-1)/(N-1)], and [1.0] for a single batch. *)
Definition spec_score (rk n : nat) : Q :=
  if (n =? 1)%nat then 1
  else 1 - Py.of_nat (rk - 1) / Py.of_nat (n - 1).

(** [time[valid_mask]] with [valid_mask = ~np.isnan(values)], for arrays
    of the same length. *)
Fixpoint mask_valid (time : list Q) (values : Np.Series) : list Q :=
  match time, values with
  | t :: time', Some _ :: values' => t :: mask_valid time' values'
  | _ :: time', None :: values' => mask_valid time' values'
  | _, _ => []
  end.

(** The keys of the dict [compute_batch_metrics] returns, in the order
    the source writes them. *)
Definition batch_metric_keys : list string :=
  ["max_value"; "min_value"; "mean_value"; "final_value"; "integrated_value";
   "max_rate"; "mean_rate"; "rate_stability"]%string.

Section WithSqrt.
Variable sqrt : Q -> Q.

(** [compute_batch_metrics].  Both callers pass times without NaN, and
    [time] is an array of numbers here; [values] may hold NaN.  The empty
    dict is [[]]; [None] is the ValueError NumPy raises in
    [compute_derivative] when the two arrays cannot be divided.  On such
    arrays every metric is a number. *)
Definition compute_batch_metrics (time : list Q) (values : Np.Series)
  : option Metrics :=
  if (List.length values <? 2)%nat then Some []
  else
    let valid_values := Np.dropna values in
    let valid_time :=
      if (List.length time =? List.length values)%nat
      then mask_valid time values
      else firstn (List.length valid_values) time in
    match valid_values with
    | [] | [_] => Some []
    | v0 :: vrest =>
        let integrated :=
          if (List.length valid_time =? List.length valid_values)%nat
          then Np.trapezoid valid_values valid_time
          else Np.sum valid_values in
        match TemporalAnalyzer.compute_derivative
                (map Some valid_time) (map Some valid_values) with
        | None => None
        | Some derivative =>
            let valid_deriv :=
              if (0 <? List.length derivative)%nat
              then Np.dropna derivative else [0] in
            let max_rate :=
              match valid_deriv with
              | [] => 0
              | d0 :: drest => Np.max_of d0 drest
              end in
            let mean_rate :=
              match valid_deriv with
              | [] => 0
              | _ => Np.mean valid_deriv
              end in
            let rate_stability :=
              match valid_deriv with
              | [] => 0
              | _ => 1 - Np.qmin 1 (Np.std_pop sqrt valid_deriv
                                    / (Qabs (Np.mean valid_deriv) + (1 # 1000)))
              end in
            Some (of_numbers
                    [("max_value", Np.max_of v0 vrest);
                     ("min_value", Np.min_of v0 vrest);
                     ("mean_value", Np.mean valid_values);
                     ("final_value", last valid_values v0);
                     ("integrated_value", integrated);
                     ("max_rate", max_rate);
                     ("mean_rate", mean_rate);
                     ("rate_stability", rate_stability)]%string)
        end
    end.

End WithSqrt.

(** [detect_outlier_batches]: Tukey's fences on the values of the
    batches that have the metric.  With a NaN among the values the
    quartiles and the fences are NaN and every comparison is false. *)
Definition detect_outlier_batches (batch_metrics : BatchMetrics)
  (metric_key : string) : list string :=
  let entries := collect batch_metrics metric_key in
  let values := map snd entries in
  if (List.length values <? 4)%nat then []
  else
    let q1 := Np.nan_percentile values 25 in
    let q3 := Np.nan_percentile values 75 in
    let iqr := Np.nan_sub q3 q1 in
    let lower_bound := Np.nan_sub q1 (Np.nan_mul (Some (3 # 2)) iqr) in
    let upper_bound := Np.nan_add q3 (Np.nan_mul (Some (3 # 2)) iqr) in
    map fst (filter (fun e => (Py.nan_ltb (snd e) lower_bound
                               || Py.nan_ltb upper_bound (snd e))%bool) entries).

End BatchComparisonAnalyzer.

(** ** class GlobalMetricsAnalyzer *)

Module GlobalMetricsAnalyzer.
Import Np BatchComparisonAnalyzer.

(** The tuple returned by [scipy.stats.linregress]; each float may be NaN. *)
Record Linregress := mkLinregress {
  slope : option Q;
  intercept : option Q;
  r_value : option Q;
  p_value : option Q;
  std_err : option Q
}.

Inductive Trend := Stable | Improving | Degrading.

(** The dict returned by [compute_batch_trend]. *)
Inductive BatchTrend :=
| TrendUnavailable
| TrendStats (trend : Trend) (slope r_squared p_value : option Q)
             (mean_value std_value : option Q).

(** The first loop: the metric's values in the order of [batch_order],
    for the batches that are in [batch_metrics] and have the metric. *)
Fixpoint trend_values (batch_metrics : BatchMetrics) (metric_key : string)
  (batch_order : list string) : Series :=
  match batch_order with
  | [] => []
  | batch_id :: rest =>
      match Py.dict_get batch_id batch_metrics with
      | Some metrics =>
          match Py.dict_get metric_key metrics with
          | Some v => v :: trend_values batch_metrics metric_key rest
          | None => trend_values batch_metrics metric_key rest
          end
      | None => trend_values batch_metrics metric_key rest
      end
  end.

(** [batch_id in batch_metrics and metric_key in batch_metrics[batch_id]]:
    the batch supplies the metric. *)
Definition supplies (batch_metrics : BatchMetrics) (metric_key : string)
  (batch_id : string) : bool :=
  match Py.dict_get batch_id batch_metrics with
  | Some metrics =>
      match Py.dict_get metric_key metrics with
      | Some _ => true
      | None => false
      end
  | None => false
  end.

(** [np.arange(n)] as floats. *)
Definition arange (n : nat) : list Q := map Py.of_nat (seq 0 n).

(** [abs(r) < bound] and [s > 0] on floats that may be NaN. *)
Definition abs_ltb (r : option Q) (bound : Q) : bool :=
  match r with Some v => Py.ltb (Qabs v) bound | None => false end.

Definition pos (s : option Q) : bool :=
  match s with Some v => Py.ltb 0 v | None => false end.

(** The [if / elif / else] that names the trend. *)
Definition classify (r_value slope : option Q) : Trend :=
  if abs_ltb r_value (3 # 10) then Stable
  else if pos slope then Improving
  else Degrading.

Section WithLinregress.
(** [scipy.stats.linregress(x, values)]; the values may hold NaN. *)
Variable linregress : list Q -> Series -> Linregress.
Variable sqrt : Q -> Q.

Definition compute_batch_trend (batch_metrics : BatchMetrics)
  (metric_key : string) (batch_order : list string) : BatchTrend :=
  let values := trend_values batch_metrics metric_key batch_order in
  if (List.length values <? 3)%nat then TrendUnavailable
  else
    let x := arange (List.length values) in
    let lr := linregress x values in
    let trend := classify (r_value lr) (slope lr) in
    TrendStats trend (slope lr)
               (option_map (fun r => r * r) (r_value lr))
               (p_value lr)
               (np_mean values) (np_std sqrt values).

End WithLinregress.

(** One entry of the list returned by [compute_best_batch_per_metric]. *)
Record BestBatch := mkBestBatch {
  bb_variable : string;
  bb_metric : string;
  best_batch : string;
  bb_value : option Q;
  bb_score : Q
}.

Definition metric_keys : list string :=
  ["max_value"; "integrated_value"; "mean_rate"; "rate_stability"]%string.

(** The inner loop: [best] holds [best_batch] and [best_value], which are
    set together; a later batch replaces them only with a value that is
    strictly greater, which a NaN never is and nothing is than a NaN. *)
Fixpoint best_of (batch_metrics : BatchMetrics) (metric : string)
  (best : option (string * option Q)) : option (string * option Q) :=
  match batch_metrics with
  | [] => best
  | (batch_id, metrics) :: rest =>
      match Py.dict_get metric metrics with
      | Some val =>
          match best with
          | None => best_of rest metric (Some (batch_id, val))
          | Some (_, best_value) =>
              if Py.nan_ltb best_value val
              then best_of rest metric (Some (batch_id, val))
              else best_of rest metric best
          end
      | None => best_of rest metric best
      end
  end.

(** One step of that loop on a batch that has the metric. *)
Definition best_step (best : option (string * option Q))
  (e : string * option Q) : option (string * option Q) :=
  match best with
  | None => Some e
  | Some (_, best_value) =>
      if Py.nan_ltb best_value (snd e) then Some e else best
  end.

Definition compute_best_batch_per_metric (batch_metrics : BatchMetrics)
  (variable : string) : list BestBatch :=
  flat_map (fun metric =>
              match best_of batch_metrics metric None with
              | Some (batch, value) =>
                  [mkBestBatch variable metric batch value 1]
              | None => []
              end) metric_keys.




(** The elements of a set of floats built by [add] from the list [l]:
    one for each value, in the order of first appearance. *)
Fixpoint distinct (l : list Q) : list Q :=
  match l with
  | [] => []
  | t :: l' => t :: filter (fun u => negb (Qeq_bool u t)) (distinct l')
  end.






Section WithSqrt.
Variable sqrt : Q -> Q.



End WithSqrt.

End GlobalMetricsAnalyzer.

(** ** class DatasetAnalyzer *)

Module DatasetAnalyzer.
Import Np Pd DataQualityAnalyzer RelationshipAnalyzer.

(** The fields of the object.  The loops over [self.df.columns] below run
    over the columns themselves: column names are unique in a frame read
    from a file, so [self.df[col]] is the column the loop is at. *)
Record Analyzer := mkAnalyzer {
  df : DataFrame;
  time_col : option string;
  batch_col : option string;
  numeric_cols : list string;
  categorical_cols : list string
}.

(** [__init__] *)
Definition init (d : DataFrame) : Analyzer := mkAnalyzer d None None [] [].

Definition time_keywords : list string :=
  ["time"; "timestamp"; "date"; "hour"; "minute"; "t"; "elapsed"; "duration"]%string.

Definition batch_keywords : list string :=
  ["batch"; "run"; "experiment"; "lot"; "id"; "sample"; "replicate"]%string.

(** [any(kw in col_lower for kw in batch_keywords)] *)
Definition batch_name_match (c : Column) : bool :=
  let col_lower := Py.strip (Py.lower (name c)) in
  existsb (fun kw => Py.contains kw col_lower) batch_keywords.

(** [any(kw == col_lower or kw in col_lower for kw in time_keywords)] *)
Definition time_name_match (c : Column) : bool :=
  let col_lower := Py.strip (Py.lower (name c)) in
  existsb (fun kw => String.eqb kw col_lower || Py.contains kw col_lower)%bool
          time_keywords.

Definition is_null (c : Cell) : bool :=
  match c with CNull => true | _ => false end.

(** [series.nunique()] and [series.value_counts()]: nulls are left out. *)
Definition non_null (l : list Cell) : list Cell :=
  filter (fun c => negb (is_null c)) l.

Definition nunique (l : list Cell) : nat := List.length (unique (non_null l)).

Definition value_counts (l : list Cell) : list nat :=
  map (fun v => List.length (filter (cell_eqb v) l)) (unique (non_null l)).

(** [counts.min()] *)
Definition min_count (counts : list nat) : nat :=
  match counts with
  | [] => 0
  | c :: rest => fold_left Nat.min rest c
  end.

(** [_is_batch_like]; [total_count] is [len(self.df)]. *)
Definition _is_batch_like (total_count : nat) (c : Column) : bool :=
  if is_float_dtype c then false
  else
    let unique_count := nunique (cells c) in
    if (Py.ltb (Py.of_nat unique_count) (Py.of_nat total_count * (1 # 10))
        && (1 <? unique_count)%nat)%bool
    then (5 <? min_count (value_counts (cells c)))%nat
    else false.

(** [col == self.batch_col] and the like: a name against a field that may
    be [None]. *)
Definition name_is (field : option string) (n : string) : bool :=
  match field with
  | Some f => String.eqb n f
  | None => false
  end.

(** [if self.time_col] / [if self.batch_col]: [None] and the empty string
    are false. *)
Definition truthy (field : option string) : option string :=
  match field with
  | Some EmptyString => None
  | f => f
  end.

(** A field of the [stats] dict: Python's [None], or a float that may be
    NaN. *)
Inductive OptFloat := PyNone | Float (v : option Q).

Record Stats := mkStats {
  s_mean : OptFloat;
  s_std : OptFloat;
  s_min : OptFloat;
  s_max : OptFloat
}.

(** One entry of the [variables] list of the quality report. *)
Record VariableQuality := mkVariableQuality {
  variable : string;
  missing_pct : option Q;
  q_density : Density;
  flatline : Flatline;
  sampling : Sampling;
  stats : Stats
}.

(** One entry of the list returned by [_analyze_relationships]. *)
Record Relationship := mkRelationship {
  var_x : string;
  var_y : string;
  correlation : Correlations;
  lagged_correlation : Lagged;
  cross_batch_stability : Stability
}.

(** The sort key of the relationship list:
    [abs(r["correlation"]["pearson"]["r"]) if available else 0]. *)
Definition strength (r : Relationship) : option Q :=
  match correlation r with
  | CorrStats pearson_r _ _ _ _ => option_map Qabs pearson_r
  | CorrUnavailable => Some 0
  end.

(** [a] may stand before [b] in a list sorted by descending strength;
    no order is defined on a NaN. *)
Definition stronger_or_equal (a b : Relationship) : Prop :=
  match strength a, strength b with
  | Some ka, Some kb => kb <= ka
  | _, _ => False
  end.

(** [for i, col_x in enumerate(cols): for col_y in cols[i+1:]] *)
Fixpoint pairs (A : Type) (cols : list A) : list (A * A) :=
  match cols with
  | [] => []
  | col_x :: rest => map (pair col_x) rest ++ pairs rest
  end.

Section WithLibraries.
(** The string parser of [pd.to_numeric], the floating-point square root,
    and the two [scipy.stats] correlations. *)
Variable parse : string -> option Q.
Variable sqrt : Q -> Q.
Variable pearsonr : list Q -> list Q -> option Q * option Q.
Variable spearmanr : list Q -> list Q -> option Q * option Q.

(** [_is_monotonic_numeric] *)
Definition _is_monotonic_numeric (c : Column) : bool :=
  let data := dropna (to_numeric parse (cells c)) in
  if (List.length data <? 2)%nat then false
  else
    let diffs := diff data in
    let nonneg := List.length (filter (fun d => Qle_bool 0 d) diffs) in
    Py.ltb (95 # 100) (Py.of_nat nonneg / Py.of_nat (List.length diffs)).

(** The body of the conversion loop for one column that is not the batch
    column.  pandas gives the converted column dtype int64 when every cell
    is a whole number and float64 otherwise; both are numeric and nothing
    after this point tells them apart, so the model writes [DFloat]. *)
Definition convert_column (total_count : nat) (c : Column) : Column :=
  if is_numeric_dtype c then c
  else
    let converted := to_numeric parse (cells c) in
    let notna := (List.length converted - count_na converted)%nat in
    if Py.ltb (Py.of_nat total_count * (1 # 2)) (Py.of_nat notna)
    then mkColumn (name c) DFloat
                  (map (fun v => match v with
                                 | Some q => CFloat q
                                 | None => CNull
                                 end) converted)
    else c.

(** The test of the time loop on a column of the converted frame. *)
Definition time_like (batch : option string) (c : Column) : bool :=
  (negb (name_is batch (name c)) && time_name_match c
   && (is_numeric_dtype c || _is_monotonic_numeric c))%bool.

Definition _infer_columns (self : Analyzer) : Analyzer :=
  let total_count := nrows (df self) in
  let cols := columns (df self) in
  (* batch column by name *)
  let batch :=
    match batch_col self with
    | None => option_map name (find batch_name_match cols)
    | Some b => Some b
    end in
  (* batch column by pattern *)
  let batch :=
    match batch with
    | None => option_map name (find (_is_batch_like total_count) cols)
    | Some b => Some b
    end in
  (* numeric conversion of the other columns *)
  let cols :=
    map (fun c => if name_is batch (name c) then c
                  else convert_column total_count c) cols in
  (* time column *)
  let time :=
    match time_col self with
    | None => option_map name (find (time_like batch) cols)
    | Some t => Some t
    end in
  (* the remaining columns *)
  let rest :=
    filter (fun c => negb (name_is time (name c) || name_is batch (name c))) cols in
  mkAnalyzer (mkDataFrame total_count cols) time batch
             (numeric_cols self ++ map name (filter is_numeric_dtype rest))
             (categorical_cols self
              ++ map name (filter (fun c => negb (is_numeric_dtype c)) rest)).

(** The first two lines of [_analyze_quality]; the outer [None] is a
    KeyError. *)
Definition quality_time_series (self : Analyzer) : option Series :=
  match truthy (time_col self) with
  | Some t => option_map (fun c => to_numeric parse (cells c)) (get (df self) t)
  | None => Some (map (fun i => Some (Py.of_nat i)) (seq 0 (nrows (df self))))
  end.

Definition quality_batch_series (self : Analyzer) : option (option (list Cell)) :=
  match truthy (batch_col self) with
  | Some b => option_map (fun c => Some (cells c)) (get (df self) b)
  | None => Some None
  end.

(** The [stats] dict of one numeric series. *)
Definition series_stats (series : Series) : Stats :=
  match dropna series with
  | [] => mkStats PyNone PyNone PyNone PyNone
  | (d0 :: rest) as data =>
      mkStats (Float (Some (mean data)))
              (Float (std_sample sqrt data))
              (Float (Some (min_of d0 rest)))
              (Float (Some (max_of d0 rest)))
  end.

(** The body of the loop of [_analyze_quality]. *)
Definition variable_quality (time_series : Series)
  (batch_series : option (list Cell)) (col : string) (series : Series)
  : VariableQuality :=
  let missing_pct := compute_missing_percentage series in
  mkVariableQuality col missing_pct
    (classify_signal_density series missing_pct)
    (detect_flatline sqrt series)
    (compute_sampling_stats sqrt time_series batch_series)
    (series_stats series).

Fixpoint quality_loop (self : Analyzer) (time_series : Series)
  (batch_series : option (list Cell)) (cols : list string)
  : option (list VariableQuality) :=
  match cols with
  | [] => Some []
  | col :: rest =>
      match get (df self) col with
      | None => None
      | Some c =>
          option_map
            (cons (variable_quality time_series batch_series col
                     (astype_float (cells c))))
            (quality_loop self time_series batch_series rest)
      end
  end.

(** The [variables] list of the report of [_analyze_quality]; [None] is a
    KeyError. *)
Definition _analyze_quality (self : Analyzer) : option (list VariableQuality) :=
  match quality_time_series self, quality_batch_series self with
  | Some time_series, Some batch_series =>
      quality_loop self time_series batch_series (numeric_cols self)
  | _, _ => None
  end.

(** The loop over the batches in [_analyze_relationships]: the Pearson r
    of every batch on which the correlation is available. *)
Fixpoint batch_corrs (x y : Series) (bcol : list Cell) (batches : list Cell)
  : Series :=
  match batches with
  | [] => []
  | batch :: rest =>
      match compute_correlations pearsonr spearmanr
              (select x bcol batch) (select y bcol batch) with
      | CorrStats r _ _ _ _ => r :: batch_corrs x y bcol rest
      | CorrUnavailable => batch_corrs x y bcol rest
      end
  end.

(** The body of the inner loop for one pair of columns: [None] when the
    pair is skipped. *)
Definition relationship (batch_series : option (list Cell))
  (col_x col_y : string) (x y : Series) : option Relationship :=
  match compute_correlations pearsonr spearmanr x y with
  | CorrUnavailable => None
  | corr =>
      let lagged := compute_lagged_correlation pearsonr x y 5 in
      let stability :=
        match batch_series with
        | Some bcol =>
            let bcs := batch_corrs x y bcol (unique bcol) in
            if (2 <=? List.length bcs)%nat
            then compute_relationship_stability sqrt bcs
            else StabUnavailable
        | None => StabUnavailable
        end in
      Some (mkRelationship col_x col_y corr lagged stability)
  end.

Fixpoint relationship_loop (self : Analyzer)
  (batch_series : option (list Cell)) (ps : list (string * string))
  : option (list Relationship) :=
  match ps with
  | [] => Some []
  | (col_x, col_y) :: rest =>
      match get (df self) col_x, get (df self) col_y with
      | Some cx, Some cy =>
          option_map
            (fun l =>
               match relationship batch_series col_x col_y
                       (astype_float (cells cx)) (astype_float (cells cy)) with
               | Some r => r :: l
               | None => l
               end)
            (relationship_loop self batch_series rest)
      | _, _ => None
      end
  end.

(** [_analyze_relationships]; [None] is a KeyError. *)
Definition _analyze_relationships (self : Analyzer) : option (list Relationship) :=
  if (List.length (numeric_cols self) <? 2)%nat then Some []
  else
    let cols_to_analyze := firstn 15 (numeric_cols self) in
    match quality_batch_series self with
    | None => None
    | Some batch_series =>
        option_map
          (fun relationships =>
             firstn 30 (Py.sort_nan strength true relationships))
          (relationship_loop self batch_series (pairs cols_to_analyze))
    end.

End WithLibraries.

(** The [time] of a record of the canonical form: the cell of the time
    column, or the index label of the row when there is no time column. *)
Inductive TimeVal := TCell (c : Cell) | TIndex (idx : nat).

(** One record of [standardized_data].  [iterrows] hands out the cells of
    a row in one common dtype, so that an integer may arrive as the float
    of the same value; the record holds the cell of the frame. *)
Record StdRecord := mkStdRecord {
  r_batch : string;
  r_time : TimeVal;
  r_variable : string;
  r_value : Cell
}.

(** A loop that appends the records of each element and stops at the
    first exception. *)
Fixpoint flat_traverse (A B : Type) (f : A -> option (list B)) (l : list A)
  : option (list B) :=
  match l with
  | [] => Some []
  | a :: l' =>
      match f a, flat_traverse f l' with
      | Some bs, Some rest => Some (bs ++ rest)
      | _, _ => None
      end
  end.

(** The index labels of the rows of [df[df[batch_col] == batch]]. *)
Definition batch_rows (bcol : list Cell) (batch : Cell) : list nat :=
  select (seq 0 (List.length bcol)) bcol batch.

(** [row[name]] for the row with index label [idx]; [None] is a KeyError. *)
Definition row_cell (self : Analyzer) (idx : nat) (n : string) : option Cell :=
  match get (df self) n with
  | Some c => nth_error (cells c) idx
  | None => None
  end.

(** The two inner loops of [_standardize_data] for one row. *)
Definition row_records (self : Analyzer) (batch_id : string) (idx : nat)
  : option (list StdRecord) :=
  match
    match truthy (time_col self) with
    | Some t => option_map TCell (row_cell self idx t)
    | None => Some (TIndex idx)
    end
  with
  | None => None
  | Some time_val =>
      flat_traverse
        (fun var => option_map (fun v => [mkStdRecord batch_id time_val var v])
                               (row_cell self idx var))
        (numeric_cols self)
  end.

(** What one record says of the row it was taken from. *)
Definition record_of_row (self : Analyzer) (batch_id : string) (idx : nat)
  (r : StdRecord) : Prop :=
  r_batch r = batch_id /\
  row_cell self idx (r_variable r) = Some (r_value r) /\
  match truthy (time_col self) with
  | Some t => exists c, row_cell self idx t = Some c /\ r_time r = TCell c
  | None => r_time r = TIndex idx
  end.

Section WithStr.
(** [str(batch)] *)
Variable str : Cell -> string.

(** [_standardize_data]: the records the loops append, in order; [None]
    is a KeyError. *)
Definition _standardize_data (self : Analyzer) : option (list StdRecord) :=
  match batch_col self with
  | None =>
      flat_traverse (row_records self "all") (seq 0 (nrows (df self)))
  | Some b =>
      match get (df self) b with
      | None => None
      | Some bc =>
          flat_traverse
            (fun batch =>
               flat_traverse (row_records self (str batch))
                             (batch_rows (cells bc) batch))
            (unique (cells bc))
      end
  end.

End WithStr.

(** The [duration] block of the overview. *)
Record Duration := mkDuration {
  d_min : Q;
  d_max : Q;
  d_span : Q
}.

(** The dict returned by [_get_overview]. *)
Record Overview := mkOverview {
  o_rows : nat;
  o_columns : nat;
  o_time_column : option string;
  o_batch_column : option string;
  o_batches : list string;
  o_batch_count : nat;
  o_is_multi_batch : bool;
  o_numeric_variables : list string;
  o_categorical_variables : list string;
  o_duration : option Duration
}.

Section WithParseStr.
Variable parse : string -> option Q.
Variable str : Cell -> string.

(** [list(self.df[self.batch_col].unique()) if self.batch_col else []];
    the outer [None] is a KeyError. *)
Definition overview_batches (self : Analyzer) : option (list Cell) :=
  match truthy (batch_col self) with
  | Some b => option_map (fun c => unique (cells c)) (get (df self) b)
  | None => Some []
  end.

(** The [duration] of the overview: [min], [max] and their difference
    over the time stamps that are numbers; the outer [None] is a KeyError. *)
Definition overview_duration (self : Analyzer) : option (option Duration) :=
  match truthy (time_col self) with
  | Some t =>
      match get (df self) t with
      | None => None
      | Some c =>
          let time_data := to_numeric parse (cells c) in
          if all_na time_data then Some None
          else
            match dropna time_data with
            | [] => Some None
            | t0 :: rest =>
                Some (Some (mkDuration (min_of t0 rest) (max_of t0 rest)
                                       (max_of t0 rest - min_of t0 rest)))
            end
      end
  | None => Some None
  end.

(** [_get_overview]; [None] is a KeyError. *)
Definition _get_overview (self : Analyzer) : option Overview :=
  match overview_batches self, overview_duration self with
  | Some batches, Some duration =>
      Some (mkOverview
              (nrows (df self))
              (List.length (columns (df self)))
              (time_col self)
              (batch_col self)
              (map str batches)
              (match batches with [] => 1%nat | _ => List.length batches end)
              (1 <? List.length batches)%nat
              (numeric_cols self)
              (categorical_cols self)
              duration)
  | _, _ => None
  end.

End WithParseStr.

(** A flag of the overall quality; the two counted flags are the
    strings [flatlined_signals:<n>] and [offline_signals:<n>]. *)
Inductive Flag :=
| no_data
| high_missing_data
| moderate_missing_data
| irregular_sampling
| flatlined_signals (n : nat)
| offline_signals (n : nat).

Record Overall := mkOverall {
  score : Q;
  flags : list Flag
}.

(** [sampling_info.get("available") and
    sampling_info.get("regularity_score", 1) < 0.3] *)
Definition irregular (s : Sampling) : bool :=
  match s with
  | SamplingStats _ _ _ _ regularity_score _ => Py.ltb regularity_score (3 # 10)
  | SamplingUnavailable => false
  end.

Definition is_offline (d : Density) : bool :=
  match density_type d with Offline => true | _ => false end.

(** [_compute_overall_quality].  The score is followed through the four
    checks as in the source and clamped by [max(0, min(100, score))] at
    the end. *)
Definition _compute_overall_quality (variable_qualities : list VariableQuality)
  : Overall :=
  match variable_qualities with
  | [] => mkOverall 0 [no_data]
  | first :: _ =>
      let score := 100 in
      let flags := [] in
      let avg_missing := np_mean (map missing_pct variable_qualities) in
      let '(score, flags) :=
        if nan_gtb avg_missing 20 then (score - 20, flags ++ [high_missing_data])
        else if nan_gtb avg_missing 5 then (score - 5, flags ++ [moderate_missing_data])
        else (score, flags) in
      let '(score, flags) :=
        if irregular (sampling first)
        then (score - 10, flags ++ [irregular_sampling])
        else (score, flags) in
      let flatline_count :=
        List.length (filter (fun v => is_flatlined (flatline v)) variable_qualities) in
      let '(score, flags) :=
        if (0 <? flatline_count)%nat
        then (score - 3 * Py.of_nat (Nat.min flatline_count 5),
              flags ++ [flatlined_signals flatline_count])
        else (score, flags) in
      let offline_count :=
        List.length (filter (fun v => is_offline (q_density v)) variable_qualities) in
      let flags :=
        if (0 <? offline_count)%nat
        then flags ++ [offline_signals offline_count]
        else flags in
      mkOverall (qmax 0 (qmin 100 score)) flags
  end.

(** What a flag takes off the score. *)
Definition penalty (f : Flag) : Q :=
  match f with
  | high_missing_data => 20
  | moderate_missing_data => 5
  | irregular_sampling => 10
  | flatlined_signals n => 3 * Py.of_nat (Nat.min n 5)
  | no_data | offline_signals _ => 0
  end.

End DatasetAnalyzer.

(** ** main.py *)

Module Main.

(** A Python or NumPy float: a finite number, NaN, or an infinity. *)
Inductive PyFloat := FNum (q : Q) | FNan | FPosInf | FNegInf.

(** [np.isnan(f) or np.isinf(f)] *)
Definition not_finite (f : PyFloat) : bool :=
  match f with FNum _ => false | _ => true end.

(** The objects [clean_for_json] tells apart.  [OFloat] is a Python
    [float] proper and [ONpFloat64] an [np.float64], which is a subclass
    of [float] and so is caught by [isinstance(obj, float)]; [ONpFloat] is
    an [np.float16] or [np.float32], whose value [float(obj)] keeps (an
    [np.longdouble], which [float(obj)] may round, is left out).  [OStr]
    is a Python [str] proper and
    [ONpStr] an [np.str_], a subclass of [str].  An array is given by the
    value its [tolist()] returns.  [OOther] is any other object, given by
    its [str()].  The keys of a dict are objects of any kind. *)
#[warnings="-register-all"] Inductive Obj :=
| ODict (items : list (Obj * Obj))
| OList (items : list Obj)
| OBool (b : bool)
| ONpBool (b : bool)
| OFloat (f : PyFloat)
| ONpFloat64 (f : PyFloat)
| ONpInt (z : Z)
| ONpFloat (f : PyFloat)
| ONdarray (tolist : Obj)
| OStr (s : string)
| ONpStr (s : string)
| OInt (z : Z)
| ONone
| OOther (str : string).

(** The keys of a dict are not cleaned; a finite [np.float64] and an
    [np.str_] are returned as the objects they are. *)
Fixpoint clean_for_json (obj : Obj) : Obj :=
  match obj with
  | ODict items => ODict (map (fun kv => (fst kv, clean_for_json (snd kv))) items)
  | OList items => OList (map clean_for_json items)
  | OBool b | ONpBool b => OBool b
  | OFloat f | ONpFloat64 f => if not_finite f then ONone else obj
  | ONpInt z => OInt z
  | ONpFloat f => if not_finite f then ONone else OFloat f
  | ONdarray tolist => clean_for_json tolist
  | OStr _ | ONpStr _ | OInt _ | ONone => obj
  | OOther str => OStr str
  end.

(** The values a JSON encoder takes, the keys of dicts not looked at:
    dicts and lists of such values, Python booleans, finite floats (a
    [float] or its subclass [np.float64]), integers, strings (a [str] or
    its subclass [np.str_]) and [None]. *)
Fixpoint json_safe (obj : Obj) : bool :=
  match obj with
  | ODict items => forallb (fun kv => json_safe (snd kv)) items
  | OList items => forallb json_safe items
  | OBool _ | OStr _ | ONpStr _ | OInt _ | ONone => true
  | OFloat f | ONpFloat64 f => negb (not_finite f)
  | ONpBool _ | ONpInt _ | ONpFloat _ | ONdarray _ | OOther _ => false
  end.

(** The keys of a dict, in order; no keys for another object. *)
Definition keys (obj : Obj) : list Obj :=
  match obj with
  | ODict items => map fst items
  | _ => []
  end.

(** [s.split(sep)] with a separator of one character: the pieces between
    the separators, at least one. *)
Fixpoint split_on (sep : ascii) (s : string) : list string :=
  match s with
  | EmptyString => [EmptyString]
  | String c s' =>
      if Ascii.eqb c sep then EmptyString :: split_on sep s'
      else
        match split_on sep s' with
        | [] => [String c EmptyString]
        | w :: ws => String c w :: ws
        end
  end.

(** [s.strip(ch)] for one character [ch]. *)
Fixpoint lstrip_char (ch : ascii) (s : string) : string :=
  match s with
  | EmptyString => EmptyString
  | String c s' => if Ascii.eqb c ch then lstrip_char ch s' else s
  end.

Fixpoint rstrip_char (ch : ascii) (s : string) : string :=
  match s with
  | EmptyString => EmptyString
  | String c s' =>
      match rstrip_char ch s' with
      | EmptyString => if Ascii.eqb c ch then EmptyString else String c EmptyString
      | r => String c r
      end
  end.

Definition strip_char (ch : ascii) (s : string) : string :=
  rstrip_char ch (lstrip_char ch s).

(** [s.replace(ch, '')] for one character [ch]. *)
Fixpoint remove_char (ch : ascii) (s : string) : string :=
  match s with
  | EmptyString => EmptyString
  | String c s' =>
      if Ascii.eqb c ch then remove_char ch s' else String c (remove_char ch s')
  end.

Definition is_empty (s : string) : bool :=
  match s with EmptyString => true | _ => false end.

(** [for i, density in enumerate(numeric_densities): if density >= 0.5:
    data_start = i; break], counting from [i]. *)
Fixpoint first_dense (numeric_densities : list Q) (i : nat) : option nat :=
  match numeric_densities with
  | [] => None
  | density :: rest =>
      if Qle_bool (1 # 2) density then Some i else first_dense rest (S i)
  end.

(** [for i in range(header_row, -1, -1): if numeric_densities[i] < 0.3:
    return (i, data_start)], with [k = header_row + 1] indices to visit. *)
Fixpoint header_above (numeric_densities : list Q) (k : nat) : option nat :=
  match k with
  | O => None
  | S i =>
      if Py.ltb (nth i numeric_densities 0) (3 # 10) then Some i
      else header_above numeric_densities i
  end.

(** The second half of [detect_data_start_row], from the densities on. *)
Definition locate_rows (numeric_densities : list Q) : option nat * nat :=
  match first_dense numeric_densities 0 with
  | None => (Some 0%nat, 1%nat)
  | Some O => (None, 0%nat)
  | Some (S header_row as data_start) =>
      if Py.ltb (nth header_row numeric_densities 0) (3 # 10)
      then (Some header_row, data_start)
      else
        match header_above numeric_densities (S header_row) with
        | Some i => (Some i, data_start)
        | None => (None, data_start)
        end
  end.

Section WithFloat.
(** [float(s)] does not raise ValueError. *)
Variable float_ok : string -> bool.

(** The cell is counted as numeric; [034] is the double quote. *)
Definition numeric_cell (cell : string) : bool :=
  let cell := strip_char "'" (strip_char "034" (Py.strip cell)) in
  if is_empty cell then false
  else float_ok (remove_char "," cell).

(** The body of the first loop for one line. *)
Definition numeric_density (line : string) : Q :=
  let cells := split_on "," line in
  match cells with
  | [] => 0
  | _ =>
      Py.of_nat (List.length (filter numeric_cell cells))
      / Py.of_nat (List.length cells)
  end.

(** [detect_data_start_row]: the header row, [None] when the file has
    none, and the row where the data starts. *)
Definition detect_data_start_row (contents : string) (max_scan_rows : nat)
  : option nat * nat :=
  let lines := split_on "010" (Py.strip contents) in
  if (List.length lines <? 2)%nat then (Some 0%nat, 1%nat)
  else
    let scan_limit := Nat.min max_scan_rows (List.length lines) in
    let numeric_densities := map numeric_density (firstn scan_limit lines) in
    locate_rows numeric_densities.

End WithFloat.

End Main.

(** ** Data sets for the worked examples *)

Module Examples.
Import Pd DatasetAnalyzer.
Local Open Scope string_scope.

(** Two columns whose names both contain a batch keyword, in both orders. *)
Definition col_batch : Column :=
  mkColumn "batch" DObject [CStr "a"; CStr "a"; CStr "b"; CStr "b"].
Definition col_run : Column :=
  mkColumn "run" DObject [CStr "x"; CStr "x"; CStr "y"; CStr "y"].
Definition col_value : Column :=
  mkColumn "value" DFloat [CFloat 1; CFloat 2; CFloat 3; CFloat 4].

Definition batch_run : DataFrame :=
  mkDataFrame 4 [col_batch; col_run; col_value].
Definition run_batch : DataFrame :=
  mkDataFrame 4 [col_run; col_batch; col_value].

(** A fermentation table: batch, hour, two measured variables; the first
    variable was never recorded. *)
Definition col_Batch : Column :=
  mkColumn "Batch" DObject
    [CStr "B1"; CStr "B1"; CStr "B1"; CStr "B2"; CStr "B2"; CStr "B2"].
Definition col_Hour : Column :=
  mkColumn "Hour" DInt [CInt 0; CInt 1; CInt 2; CInt 0; CInt 2; CInt 4].
Definition col_Biomass : Column :=
  mkColumn "Biomass" DFloat [CNull; CNull; CNull; CNull; CNull; CNull].
Definition col_pH : Column :=
  mkColumn "pH" DFloat
    [CFloat 7; CFloat (69 # 10); CNull; CFloat 7; CFloat (71 # 10); CFloat 7].

Definition fermentation : DataFrame :=
  mkDataFrame 6 [col_Batch; col_Hour; col_Biomass; col_pH].

(** The same columns in another order. *)
Definition fermentation_permuted : DataFrame :=
  mkDataFrame 6 [col_pH; col_Hour; col_Batch; col_Biomass].

(** The same batches and hours with other measurements. *)
Definition col_Glucose : Column :=
  mkColumn "Glucose" DFloat
    [CFloat 20; CFloat 15; CFloat 9; CFloat 20; CFloat 11; CFloat 2].

Definition fermentation_glucose : DataFrame :=
  mkDataFrame 6 [col_Batch; col_Hour; col_Glucose].

(** Four measured variables on five rows; the pH probe is flatlined. *)
Definition probes : DataFrame :=
  mkDataFrame 5
    [mkColumn "Glucose" DFloat [CFloat 1; CFloat 2; CFloat 3; CFloat 4; CFloat 5];
     mkColumn "Biomass" DFloat [CFloat 3; CFloat 1; CFloat 4; CFloat 1; CFloat 5];
     mkColumn "pH" DFloat [CFloat 7; CFloat 7; CFloat 7; CFloat 7; CFloat 7];
     mkColumn "Oxygen" DFloat [CFloat 3; CFloat 1; CFloat 4; CFloat 1; CFloat 6]].

(** Per-batch metrics of one variable: rising, falling, and flat with
    noise; [B4] has too few points and an empty metrics dict. *)
Definition rising : BatchComparisonAnalyzer.BatchMetrics :=
  [("B1", [("max_value", Some 4); ("integrated_value", Some 10)]);
   ("B2", [("max_value", Some 5); ("integrated_value", Some 12)]);
   ("B3", [("max_value", Some 5); ("integrated_value", Some 15)]);
   ("B4", [])].

Definition falling : BatchComparisonAnalyzer.BatchMetrics :=
  [("B1", [("integrated_value", Some 15)]);
   ("B2", [("integrated_value", Some 12)]);
   ("B3", [("integrated_value", Some 10)])].

Definition noisy : BatchComparisonAnalyzer.BatchMetrics :=
  [("B1", [("integrated_value", Some 10)]);
   ("B2", [("integrated_value", Some 14)]);
   ("B3", [("integrated_value", Some 9)]);
   ("B4", [("integrated_value", Some 14)]);
   ("B5", [("integrated_value", Some 10)])].

Definition two_batches : BatchComparisonAnalyzer.BatchMetrics :=
  [("B1", [("integrated_value", Some 10)]);
   ("B2", [("integrated_value", Some 12)])].

(** Three batches of which the second has a mean rate that is NaN, as
    a batch gets that holds an infinite sample. *)
Definition with_nan : BatchComparisonAnalyzer.BatchMetrics :=
  [("B1", [("mean_rate", Some 1)]);
   ("B2", [("mean_rate", None)]);
   ("B3", [("mean_rate", Some 2)])].

(** [scipy.stats.linregress] for the examples; every statistic is NaN
    when a value is. *)
Definition linregress (x : list Q) (y : Np.Series)
  : GlobalMetricsAnalyzer.Linregress :=
  if (Np.count_na y =? 0)%nat then
    let '(slope, intercept, r) := ExactStats.linregress6 x (Np.dropna y) in
    GlobalMetricsAnalyzer.mkLinregress
      (Some (Qred slope)) (Some (Qred intercept)) (Some (Qred r)) None None
  else GlobalMetricsAnalyzer.mkLinregress None None None None None.

(** Numeric series. *)
Definition squares : list Q := [0; 1; 4; 9; 16; 25; 36; 49; 64; 81].
Definition five_rows : list Q := [1; 2; 3; 4; 5].
Definition ten_steps : list Q := [0; 1; 2; 3; 4; 5; 6; 7; 8; 9].

Definition feed : Np.Series :=
  [Some 0; Some 1; None; Some 4; Some 9; Some 16; Some 25; Some 36;
   Some 49; Some 64; Some 81; Some 100; Some 121].
Definition yield : Np.Series :=
  [Some 3; Some 1; Some 4; None; Some 1; Some 5; Some 9; Some 2;
   Some 6; Some 5; Some 3; Some 5; Some 8].

(** One batch of a culture: hours, a biomass that rises at every step,
    a substrate that falls, and a probe read at a repeated hour. *)
Definition hours : list Q := [0; 1; 2; 3; 4; 5].
Definition biomass : list Q := [1; 2; 4; 7; 11; 16].
Definition substrate : list Q := [20; 18; 15; 11; 6; 6].
Definition repeated_hours : list Q := [0; 1; 1; 2; 3; 4].

(** A moving average over [size] samples around each index, with the
    first and the last value repeated past the ends, and the gradient by
    central differences, one-sided at the two ends: stand-ins for
    [uniform_filter1d] and [np.gradient] in the worked examples. *)
Definition moving_average (values : list Q) (size : nat) : list Q :=
  let n := List.length values in
  map (fun i =>
         Np.mean (map (fun j => nth (Nat.min (i + j - size / 2) (n - 1)) values 0)
                      (seq 0 size)))
      (seq 0 n).

Definition central_gradient (values : list Q) : option (list Q) :=
  let n := List.length values in
  if (n <? 2)%nat then None
  else Some (map (fun i =>
                    if (i =? 0)%nat then nth 1 values 0 - nth 0 values 0
                    else if (i =? n - 1)%nat
                    then nth (n - 1) values 0 - nth (n - 2) values 0
                    else (nth (i + 1) values 0 - nth (i - 1) values 0) / 2)
                 (seq 0 n)).

(** A culture that grows for seven hours and then stays level. *)
Definition growth_hours : list Q :=
  [0; 1; 2; 3; 4; 5; 6; 7; 8; 9; 10; 11; 12; 13; 14; 15].
Definition growth_curve : list Q :=
  [0; 3; 6; 9; 12; 15; 18; 21; 21; 21; 21; 21; 21; 21; 21; 21].

(** A report as the analysis returns it, and the same after cleaning. *)
Definition raw_report : Main.Obj :=
  Main.ODict
    [(Main.OStr "rows", Main.ONpInt 12);
     (Main.OStr "is_multi_batch", Main.ONpBool true);
     (Main.OStr "mean", Main.ONpFloat64 (Main.FNum (7 # 2)));
     (Main.OStr "median", Main.ONpFloat (Main.FNum (7 # 2)));
     (Main.OStr "std", Main.ONpFloat64 Main.FNan);
     (Main.OStr "bins", Main.ONdarray (Main.OList [Main.OFloat (Main.FNum 0);
                                                   Main.OFloat Main.FPosInf]));
     (Main.ONpStr "batches", Main.OList [Main.ONpStr "B1"; Main.OOther "(1, 2)"])].

Definition report : Main.Obj :=
  Main.ODict
    [(Main.OStr "rows", Main.OInt 12);
     (Main.OStr "is_multi_batch", Main.OBool true);
     (Main.OStr "mean", Main.ONpFloat64 (Main.FNum (7 # 2)));
     (Main.OStr "median", Main.OFloat (Main.FNum (7 # 2)));
     (Main.OStr "std", Main.ONone);
     (Main.OStr "bins", Main.OList [Main.OFloat (Main.FNum 0); Main.ONone]);
     (Main.ONpStr "batches", Main.OList [Main.ONpStr "B1"; Main.OStr "(1, 2)"])].

(** A table in which one row has lost its batch id, after the inference
    of the columns. *)
Definition unlabelled_row : Analyzer :=
  mkAnalyzer
    (mkDataFrame 4
       [mkColumn "batch" DObject [CStr "a"; CNull; CStr "b"; CStr "a"];
        mkColumn "hour" DInt [CInt 0; CInt 1; CInt 0; CInt 1];
        mkColumn "od" DFloat [CFloat 1; CFloat 2; CFloat 3; CFloat 4];
        mkColumn "pH" DFloat [CFloat 7; CFloat 7; CNull; CFloat 7]])
    (Some "hour") (Some "batch") ["od"; "pH"] [].

(** [str] of a cell that holds a string. *)
Definition str_of_cell (c : Cell) : string :=
  match c with
  | CStr s => s
  | _ => "nan"
  end.


(** The metrics of three batches, the third with a single sample. *)
Definition metrics_of (time : list Q) (values : Np.Series)
  : BatchComparisonAnalyzer.Metrics :=
  match BatchComparisonAnalyzer.compute_batch_metrics Np.sqrt6 time values with
  | Some m => m
  | None => []
  end.

Definition fermentation_metrics : BatchComparisonAnalyzer.BatchMetrics :=
  [("B1", metrics_of hours (map Some biomass));
   ("B2", metrics_of hours (map Some substrate));
   ("B3", metrics_of [0] [Some 1])]%string.

(** The analyzers after [_infer_columns]. *)
Definition fermentation_analyzer : Analyzer :=
  _infer_columns parse_digits (init fermentation).
Definition glucose_analyzer : Analyzer :=
  _infer_columns parse_digits (init fermentation_glucose).
Definition probes_analyzer : Analyzer :=
  _infer_columns parse_digits (init probes).

End Examples.

(* ================================================================= *)
(** * Part II: properties *)
(* ================================================================= *)

(** ** Facts about the Python built-ins *)

Module PyFacts.
Import Py.

Lemma ltb_lt (a b : Q) : ltb a b = true <-> a < b.
Proof.
  unfold ltb. rewrite negb_true_iff.
  split; intro H.
  - apply Qnot_le_lt. intro Hle. apply Qle_bool_iff in Hle. congruence.
  - destruct (Qle_bool b a) eqn:E; [|reflexivity].
    apply Qle_bool_iff in E. exfalso. apply (Qlt_not_le _ _ H E).
Qed.

Lemma ltb_ge (a b : Q) : ltb a b = false <-> b <= a.
Proof.
  unfold ltb. rewrite negb_false_iff. apply Qle_bool_iff.
Qed.

Lemma of_nat_pos (n : nat) : (0 < n)%nat -> 0 < of_nat n.
Proof.
  intro H. unfold of_nat, Qlt. simpl. lia.
Qed.

Lemma of_nat_le (i j : nat) : (i <= j)%nat -> of_nat i <= of_nat j.
Proof.
  intro H. unfold of_nat. rewrite <- Zle_Qle. lia.
Qed.

Lemma enumerate_from_fst (A : Type) (l : list A) (i : nat) :
  map fst (enumerate_from i l) = seq i (List.length l).
Proof.
  revert i. induction l as [|x l IH]; intro i; simpl; [reflexivity|].
  now rewrite IH.
Qed.

Lemma enumerate_from_snd (A : Type) (l : list A) (i : nat) :
  map snd (enumerate_from i l) = l.
Proof.
  revert i. induction l as [|x l IH]; intro i; simpl; [reflexivity|].
  now rewrite IH.
Qed.

Lemma enumerate_from_nth_error (A : Type) (l : list A) (k i : nat) :
  nth_error (enumerate_from k l) i =
  option_map (fun x => ((k + i)%nat, x)) (nth_error l i).
Proof.
  revert k i. induction l as [|y l IH]; intros k [|i]; simpl; try reflexivity.
  - now rewrite Nat.add_0_r.
  - rewrite IH. now rewrite Nat.add_succ_r.
Qed.

Lemma enumerate_from_in (A : Type) (l : list A) (i k : nat) (x : A) :
  In (k, x) (enumerate_from i l) ->
  (i <= k < i + List.length l)%nat /\ nth_error l (k - i) = Some x.
Proof.
  revert i. induction l as [|y l IH]; intro i; simpl; [tauto|].
  intros [E | H].
  - inversion E; subst. split; [lia|]. now rewrite Nat.sub_diag.
  - apply IH in H. destruct H as [Hk Hn]. split; [lia|].
    replace (k - i)%nat with (S (k - S i)) by lia. exact Hn.
Qed.

Section SortWithFacts.
Variable A : Type.
Variable lt : A -> A -> bool.

Lemma insert_desc_perm (x : A) (l : list A) :
  Permutation (insert_desc lt x l) (x :: l).
Proof.
  induction l as [|y l IH]; simpl; [reflexivity|].
  destruct (lt x y); [|reflexivity].
  rewrite IH. apply perm_swap.
Qed.

Lemma insert_asc_perm (x : A) (l : list A) :
  Permutation (insert_asc lt x l) (x :: l).
Proof.
  induction l as [|y l IH]; simpl; [reflexivity|].
  destruct (lt y x); [|reflexivity].
  rewrite IH. apply perm_swap.
Qed.

Lemma sort_with_perm (reverse : bool) (l : list A) :
  Permutation (sort_with lt reverse l) l.
Proof.
  unfold sort_with. induction l as [|x l IH]; simpl; [reflexivity|].
  destruct reverse.
  - rewrite insert_desc_perm. now constructor.
  - rewrite insert_asc_perm. now constructor.
Qed.

(** Sortedness, for a relation [R] that the comparison decides on the
    elements satisfying [P]. *)
Variable P : A -> Prop.
Variable R : A -> A -> Prop.
Hypothesis lt_true : forall x y, P x -> P y -> lt x y = true -> R y x.
Hypothesis lt_false : forall x y, P x -> P y -> lt x y = false -> R x y.
Hypothesis R_trans : forall x y z, P x -> P y -> P z -> R x y -> R y z -> R x z.

Lemma insert_desc_sorted_with (x : A) (l : list A) :
  P x -> Forall P l ->
  StronglySorted R l -> StronglySorted R (insert_desc lt x l).
Proof.
  intros Px Hl Hs. induction Hs as [|y l Hs IH Hall]; simpl.
  - constructor; constructor.
  - inversion Hl as [|? ? Py Hl']; subst.
    destruct (lt x y) eqn:E.
    + constructor; [now apply IH|].
      apply (Permutation_Forall (Permutation_sym (insert_desc_perm x l))).
      constructor; [|exact Hall]. now apply lt_true.
    + constructor; [constructor; assumption|].
      constructor; [now apply lt_false|].
      rewrite Forall_forall in *. intros z Hz.
      apply R_trans with y; auto.
Qed.

Lemma sort_with_desc_sorted (l : list A) :
  Forall P l -> StronglySorted R (sort_with lt true l).
Proof.
  unfold sort_with. induction 1 as [|x l Px Hl IH]; simpl.
  - constructor.
  - apply insert_desc_sorted_with; auto.
    apply (Permutation_Forall (Permutation_sym (sort_with_perm true l))), Hl.
Qed.

End SortWithFacts.

(** A list without ascent is left as it is by the descending sort. *)
Lemma sort_with_ascent_free (A : Type) (lt : A -> A -> bool) (l : list A) :
  ascent_free lt l -> sort_with lt true l = l.
Proof.
  unfold sort_with. induction l as [|a l IH]; simpl; [reflexivity|].
  destruct l as [|b l]; [reflexivity|].
  intros [Hab Hl]. rewrite (IH Hl). simpl. now rewrite Hab.
Qed.

Section SortFacts.
Variable A : Type.
Variable key : A -> Q.

Lemma sort_perm (reverse : bool) (l : list A) :
  Permutation (sort key reverse l) l.
Proof. apply sort_with_perm. Qed.

Lemma sort_length (reverse : bool) (l : list A) :
  List.length (sort key reverse l) = List.length l.
Proof. apply Permutation_length, sort_perm. Qed.

Lemma sort_desc_sorted (l : list A) :
  StronglySorted (desc key) (sort key true l).
Proof.
  apply sort_with_desc_sorted with (P := fun _ => True).
  - intros x y _ _ H. apply ltb_lt in H. unfold desc. now apply Qlt_le_weak.
  - intros x y _ _ H. now apply ltb_ge in H.
  - intros x y z _ _ _ H1 H2. unfold desc in *. now apply Qle_trans with (key y).
  - apply Forall_forall. trivial.
Qed.

End SortFacts.

Section SortAscFacts.
Variable A : Type.
Variable lt : A -> A -> bool.
(** Ascending order, for a relation [R] that the comparison decides on
    the elements satisfying [P]. *)
Variable P : A -> Prop.
Variable R : A -> A -> Prop.
Hypothesis lt_true : forall x y, P x -> P y -> lt x y = true -> R x y.
Hypothesis lt_false : forall x y, P x -> P y -> lt x y = false -> R y x.
Hypothesis R_trans : forall x y z, P x -> P y -> P z -> R x y -> R y z -> R x z.

Lemma insert_asc_sorted_with (x : A) (l : list A) :
  P x -> Forall P l ->
  StronglySorted R l -> StronglySorted R (insert_asc lt x l).
Proof.
  intros Px Hl Hs. induction Hs as [|y l Hs IH Hall]; simpl.
  - constructor; constructor.
  - inversion Hl as [|? ? Py Hl']; subst.
    destruct (lt y x) eqn:E.
    + constructor; [now apply IH|].
      apply (Permutation_Forall (Permutation_sym (insert_asc_perm lt x l))).
      constructor; [|exact Hall]. now apply lt_true.
    + constructor; [constructor; assumption|].
      constructor; [now apply lt_false|].
      rewrite Forall_forall in *. intros z Hz.
      apply R_trans with y; auto.
Qed.

Lemma sort_with_asc_sorted (l : list A) :
  Forall P l -> StronglySorted R (sort_with lt false l).
Proof.
  unfold sort_with. induction 1 as [|x l Px Hl IH]; simpl.
  - constructor.
  - apply insert_asc_sorted_with; auto.
    apply (Permutation_Forall (Permutation_sym (sort_with_perm lt false l))), Hl.
Qed.

End SortAscFacts.

Section SortNanFacts.
Variable A : Type.
Variable key : A -> option Q.

Lemma sort_nan_perm (reverse : bool) (l : list A) :
  Permutation (sort_nan key reverse l) l.
Proof. apply sort_with_perm. Qed.

Lemma sort_nan_length (reverse : bool) (l : list A) :
  List.length (sort_nan key reverse l) = List.length l.
Proof. apply Permutation_length, sort_nan_perm. Qed.

(** On keys that are numbers the list comes out in order, descending
    with [reverse] and ascending without. *)
Lemma sort_nan_numbers_sorted (reverse : bool) (l : list A) :
  Forall (fun a => key a <> None) l ->
  StronglySorted (fun a b => match key a, key b with
                             | Some x, Some y =>
                                 if reverse then y <= x else x <= y
                             | _, _ => False
                             end)
                 (sort_nan key reverse l).
Proof.
  intro Hnum. unfold sort_nan. destruct reverse.
  - apply sort_with_desc_sorted with (P := fun a => key a <> None); [| | |exact Hnum].
    + intros x y Hx Hy H. unfold nan_ltb in H.
      destruct (key x), (key y); try congruence.
      apply ltb_lt in H. now apply Qlt_le_weak.
    + intros x y Hx Hy H. unfold nan_ltb in H.
      destruct (key x), (key y); try congruence. now apply ltb_ge in H.
    + intros x y z Hx Hy Hz H1 H2.
      destruct (key x), (key y), (key z); try congruence; try contradiction.
      now apply Qle_trans with q0.
  - apply sort_with_asc_sorted with (P := fun a => key a <> None); [| | |exact Hnum].
    + intros x y Hx Hy H. unfold nan_ltb in H.
      destruct (key x), (key y); try congruence.
      apply ltb_lt in H. now apply Qlt_le_weak.
    + intros x y Hx Hy H. unfold nan_ltb in H.
      destruct (key x), (key y); try congruence. now apply ltb_ge in H.
    + intros x y z Hx Hy Hz H1 H2.
      destruct (key x), (key y), (key z); try congruence; try contradiction.
      now apply Qle_trans with q0.
Qed.

End SortNanFacts.

(** Sorting the images under [f] is sorting with the comparison taken
    through [f]. *)
Lemma sort_with_map (A B : Type) (f : A -> B) (lt : B -> B -> bool)
  (reverse : bool) (l : list A) :
  sort_with lt reverse (map f l)
  = map f (sort_with (fun a b => lt (f a) (f b)) reverse l).
Proof.
  unfold sort_with. induction l as [|x l IH]; [reflexivity|].
  cbn [map fold_right]. rewrite IH. destruct reverse.
  - generalize (fold_right (insert_desc (fun a b => lt (f a) (f b))) [] l).
    intro s. induction s as [|y s IHs]; [reflexivity|].
    cbn [map insert_desc]. destruct (lt (f x) (f y)); cbn [map]; [now rewrite IHs | reflexivity].
  - generalize (fold_right (insert_asc (fun a b => lt (f a) (f b))) [] l).
    intro s. induction s as [|y s IHs]; [reflexivity|].
    cbn [map insert_asc]. destruct (lt (f y) (f x)); cbn [map]; [now rewrite IHs | reflexivity].
Qed.

(** The built-ins on small inputs, as Python evaluates them. *)
Example sort_reverse_is_stable :
  sort (fun x : string * Q => snd x) true
       [("a", 1); ("b", 2); ("c", 1); ("d", 2)]%string
  = [("b", 2); ("d", 2); ("a", 1); ("c", 1)]%string.
Proof. reflexivity. Qed.

Example sort_forward_is_stable :
  sort (fun x : string * Q => snd x) false
       [("a", 2); ("b", 1); ("c", 2); ("d", 1)]%string
  = [("b", 1); ("d", 1); ("a", 2); ("c", 2)]%string.
Proof. reflexivity. Qed.

Example sort_nan_keys_unchanged :
  sort_nan (fun v : option Q => v) true
           [Some (35 # 100); None; Some (45 # 100); None; Some (98 # 100); None]
  = [Some (35 # 100); None; Some (45 # 100); None; Some (98 # 100); None].
Proof. reflexivity. Qed.

Example strip_lower :
  strip (lower "  Run ID ") = "run id"%string /\
  contains "id" "run id" = true /\
  contains "t" "ph" = false /\
  contains "t" "temperature" = true.
Proof. repeat split. Qed.

End PyFacts.

(** ** Ranking of batches *)

Module BatchComparisonFacts.
Import Py PyFacts BatchComparisonAnalyzer.

Lemma score_first (n : nat) : score 0 n == 1.
Proof.
  unfold score. destruct (1 <? n)%nat; [|reflexivity].
  unfold of_nat at 1. simpl. unfold Qdiv. rewrite Qmult_0_l. ring.
Qed.

Lemma score_antitone (i j n : nat) :
  (i <= j)%nat -> score j n <= score i n.
Proof.
  intro H. unfold score. destruct (1 <? n)%nat eqn:E; [|apply Qle_refl].
  apply Nat.ltb_lt in E.
  assert (Hn : 0 < of_nat n) by (apply of_nat_pos; lia).
  assert (Hd : of_nat i / of_nat n <= of_nat j / of_nat n).
  { unfold Qdiv. apply Qmult_le_compat_r; [now apply of_nat_le|].
    apply Qlt_le_weak, Qinv_lt_0_compat, Hn. }
  lra.
Qed.

Lemma rank_batches_length (bm : BatchMetrics) (key : string) (hib : bool) :
  List.length (rank_batches bm key hib) = List.length (collect bm key).
Proof.
  unfold rank_batches, enumerate.
  rewrite length_map, <- (length_map fst), enumerate_from_fst, length_seq.
  apply sort_nan_length.
Qed.

(** The entries of the result, position by position. *)
Lemma rank_batches_nth_error (bm : BatchMetrics) (key : string) (hib : bool) (i : nat) :
  nth_error (rank_batches bm key hib) i =
  option_map (fun x : string * option Q =>
                mkRanking (fst x) (snd x) (i + 1)
                          (score i (List.length (rank_batches bm key hib))))
             (nth_error (sort_nan (fun x => snd x) hib (collect bm key)) i).
Proof.
  rewrite rank_batches_length.
  unfold rank_batches, enumerate.
  rewrite nth_error_map, enumerate_from_nth_error, sort_nan_length.
  destruct (nth_error _ i); reflexivity.
Qed.

Lemma rank_batches_in (bm : BatchMetrics) (key : string) (hib : bool) (r : Ranking) :
  In r (rank_batches bm key hib) ->
  exists i, (i < List.length (rank_batches bm key hib))%nat /\
    rank r = (i + 1)%nat /\
    normalized_score r = score i (List.length (rank_batches bm key hib)).
Proof.
  intro H. apply In_nth_error in H. destruct H as [i Hi].
  exists i. split.
  - apply nth_error_Some. congruence.
  - rewrite rank_batches_nth_error in Hi.
    destruct (nth_error _ i); simpl in Hi; [|discriminate].
    inversion Hi; subst; simpl. split; reflexivity.
Qed.

Lemma rank_batches_proj (bm : BatchMetrics) (key : string) (hib : bool) :
  map (fun r => (batch_id r, value r)) (rank_batches bm key hib) =
  sort_nan (fun x => snd x) hib (collect bm key).
Proof.
  unfold rank_batches, enumerate. rewrite map_map.
  etransitivity; [|apply (enumerate_from_snd _ 0)].
  apply map_ext. intros [i [b v]]. reflexivity.
Qed.

(** On values that are numbers the ranking is the sorted list of the
    numbers. *)
Lemma rank_batches_numbers (bm : BatchMetrics) (key : string) (hib : bool)
  (es : list (string * Q)) :
  collect bm key = of_numbers es ->
  map (fun r => (batch_id r, value r)) (rank_batches bm key hib)
  = of_numbers (sort (fun x => snd x) hib es).
Proof.
  intro H. rewrite rank_batches_proj, H. unfold sort_nan, sort, of_numbers.
  apply sort_with_map.
Qed.

Lemma rank_batches_ranks (bm : BatchMetrics) (key : string) (hib : bool) :
  map rank (rank_batches bm key hib) =
  seq 1 (List.length (rank_batches bm key hib)).
Proof.
  rewrite rank_batches_length.
  rewrite <- (sort_nan_length (fun x : string * option Q => snd x) hib).
  unfold rank_batches, enumerate. rewrite map_map.
  rewrite <- seq_shift, <- enumerate_from_fst, map_map.
  apply map_ext. intros [i x]. simpl. lia.
Qed.

Lemma StronglySorted_map (A B : Type) (f : A -> B) (R : B -> B -> Prop) (l : list A) :
  StronglySorted R (map f l) -> StronglySorted (fun a b => R (f a) (f b)) l.
Proof.
  induction l as [|x l IH]; simpl; intro H; [constructor|].
  inversion H; subst. constructor; [now apply IH|].
  now apply Forall_map.
Qed.

Lemma rank_batches_sorted (bm : BatchMetrics) (key : string) (hib : bool) :
  Forall (fun e => snd e <> None) (collect bm key) ->
  StronglySorted (ranked_before hib) (rank_batches bm key hib).
Proof.
  intro Hnum.
  apply StronglySorted_map with
    (f := fun r => (batch_id r, value r))
    (R := fun a b : string * option Q =>
            match snd a, snd b with
            | Some x, Some y => if hib then y <= x else x <= y
            | _, _ => False
            end).
  rewrite rank_batches_proj.
  apply (sort_nan_numbers_sorted (fun x : string * option Q => snd x) hib Hnum).
Qed.

(** C1, as the code has it.  For N batches that have the metric,
    [rank_batches] returns exactly those batches with ranks 1..N; when no
    value is NaN they are sorted by the metric's value, descending with
    "higher is better" and ascending otherwise; the normalized score of a
    batch is [1 - (rank-1)/N] when N > 1 (the divisor is N, not N-1) and
    [1] when N = 1; rank 1 always scores 1 and the scores never increase
    with the rank. *)
Theorem rank_batches_correct (bm : BatchMetrics) (key : string) (hib : bool) :
  let rs := rank_batches bm key hib in
  let n := List.length rs in
  Permutation (map (fun r => (batch_id r, value r)) rs) (collect bm key) /\
  (Forall (fun e => snd e <> None) (collect bm key) ->
   StronglySorted (ranked_before hib) rs) /\
  map rank rs = seq 1 n /\
  (forall r, In r rs ->
     normalized_score r ==
     if (1 <? n)%nat then 1 - of_nat (rank r - 1) / of_nat n else 1) /\
  (forall r, In r rs -> rank r = 1%nat -> normalized_score r == 1) /\
  (forall r1 r2, In r1 rs -> In r2 rs -> (rank r1 <= rank r2)%nat ->
     normalized_score r2 <= normalized_score r1).
Proof.
  intros rs n. subst rs n.
  split; [rewrite rank_batches_proj; apply sort_nan_perm|].
  split; [apply rank_batches_sorted|].
  split; [apply rank_batches_ranks|].
  split; [|split].
  - intros r Hr. apply rank_batches_in in Hr.
    destruct Hr as [i [_ [Hrk Hsc]]]. rewrite Hsc, Hrk.
    replace (i + 1 - 1)%nat with i by lia. reflexivity.
  - intros r Hr H1. apply rank_batches_in in Hr.
    destruct Hr as [i [_ [Hrk Hsc]]]. rewrite Hsc.
    replace i with 0%nat by lia. apply score_first.
  - intros r1 r2 H1 H2 Hle.
    apply rank_batches_in in H1. destruct H1 as [i [_ [Hi Hsi]]].
    apply rank_batches_in in H2. destruct H2 as [j [_ [Hj Hsj]]].
    rewrite Hsi, Hsj. apply score_antitone. lia.
Qed.

Lemma rank_batches_correct_witness :
  let rs := rank_batches Examples.rising "integrated_value" true in
  Permutation (map (fun r => (batch_id r, value r)) rs)
              (collect Examples.rising "integrated_value") /\
  StronglySorted (ranked_before true) rs /\
  map rank rs = [1; 2; 3]%nat /\
  (forall r, In r rs ->
     normalized_score r == 1 - of_nat (rank r - 1) / of_nat 3) /\
  (forall r, In r rs -> rank r = 1%nat -> normalized_score r == 1) /\
  (forall r1 r2, In r1 rs -> In r2 rs -> (rank r1 <= rank r2)%nat ->
     normalized_score r2 <= normalized_score r1).
Proof.
  destruct (rank_batches_correct Examples.rising "integrated_value" true)
    as (H1 & H2 & H3 & H4 & H5 & H6).
  split; [exact H1|]. split.
  - apply H2. simpl. repeat constructor; discriminate.
  - split; [exact H3|]. split; [exact H4|]. split; [exact H5 | exact H6].
Defined.

(** The ranking of the example batches: B3, B2, B1 with scores 1, 2/3
    and 1/3. *)
Example rank_batches_rising :
  map (fun r => (batch_id r, rank r, Qred (normalized_score r)))
      (rank_batches Examples.rising "integrated_value" true)
  = [("B3", 1%nat, 1); ("B2", 2%nat, 2 # 3); ("B1", 3%nat, 1 # 3)]%string.
Proof. vm_compute. reflexivity. Qed.

(** With "lower is better" the same batches come out ascending. *)
Example rank_batches_rising_ascending :
  map (fun r => (batch_id r, rank r))
      (rank_batches Examples.rising "integrated_value" false)
  = [("B1", 1%nat); ("B2", 2%nat); ("B3", 3%nat)]%string.
Proof. vm_compute. reflexivity. Qed.

(** A value that is NaN leaves the ranking unsorted: no value is [<] its
    successor, so the sort, which Python runs on such a list as the
    insertion sort does, keeps the dict order, and the batch with the
    greatest value gets rank 3. *)
Example rank_batches_nan_unsorted :
  ascent_free (fun a b : string * option Q => nan_ltb (snd a) (snd b))
              (collect Examples.with_nan "mean_rate") /\
  map (fun r => (batch_id r, value r, rank r))
      (rank_batches Examples.with_nan "mean_rate" true)
  = [("B1", Some 1, 1%nat); ("B2", None, 2%nat); ("B3", Some 2, 3%nat)]%string /\
  ~ StronglySorted (ranked_before true)
      (rank_batches Examples.with_nan "mean_rate" true).
Proof.
  split; [simpl; auto|]. split; [vm_compute; reflexivity|].
  intro H. vm_compute in H. inversion H as [|? ? _ Hall]; subst.
  inversion Hall as [|? ? Hb _]; subst. exact Hb.
Qed.

(** C1 as the specification words it fails on two batches: the batch of
    rank 2 scores 1/2, where [1 - (rank-1)/(N-1)] is 0. *)
Lemma rank_batches_spec_score_counterexample :
  let bm := [("B1", [("integrated_value", Some 5)]);
             ("B2", [("integrated_value", Some 3)])]%string in
  let rs := rank_batches bm "integrated_value" true in
  exists r, In r rs /\ batch_id r = "B2"%string /\ rank r = 2%nat /\
            normalized_score r == 1 # 2 /\
            ~ normalized_score r == spec_score (rank r) (List.length rs).
Proof.
  simpl. eexists. split; [right; left; reflexivity|]. simpl.
  repeat split; try reflexivity. intro H. discriminate H.
Qed.

End BatchComparisonFacts.

(** ** Data quality *)

Module DataQualityFacts.
Import Np DataQualityAnalyzer.

Lemma Qeq_bool_true (a b : Q) : Qeq_bool a b = true <-> a == b.
Proof. split; [apply Qeq_bool_eq | apply Qeq_eq_bool]. Qed.

(** C4, as the code has it.  A column with at least two non-null values
    whose range is exactly zero is reported flatlined, with
    [flatline_pct = 100] and the constant value. *)
Theorem detect_flatline_zero_range (sqrt : Q -> Q) (series : Series) (r : Q) :
  (2 <= List.length (dropna series))%nat ->
  value_range series = Some r -> r == 0 ->
  is_flatlined (detect_flatline sqrt series) = true /\
  flatline_pct (detect_flatline sqrt series) = Some 100 /\
  constant_value (detect_flatline sqrt series) = hd_error (dropna series).
Proof.
  unfold value_range, detect_flatline.
  destruct (dropna series) as [|d0 [|d1 rest]]; intros Hlen Hr Hz;
    try (simpl in Hlen; lia).
  injection Hr as Hr. rewrite <- Hr in Hz.
  apply Qeq_bool_true in Hz.
  unfold max_of, min_of in *. cbn [fold_left] in *.
  rewrite Hz. simpl. auto.
Qed.

Lemma detect_flatline_zero_range_witness :
  let series := [Some 7; None; Some 7; Some 7] in
  is_flatlined (detect_flatline sqrt6 series) = true /\
  flatline_pct (detect_flatline sqrt6 series) = Some 100 /\
  constant_value (detect_flatline sqrt6 series) = hd_error (dropna series).
Proof.
  apply (@detect_flatline_zero_range sqrt6 [Some 7; None; Some 7; Some 7] 0).
  - simpl. lia.
  - reflexivity.
  - reflexivity.
Defined.

(** C4 as the specification words it fails on a column with a single
    non-null value: its range is zero, and [detect_flatline] answers
    "not flatlined, 0 percent" from its guard on fewer than two values. *)
Lemma detect_flatline_single_value_counterexample :
  let series := [Some 7; None; None] in
  value_range series = Some 0 /\
  is_flatlined (detect_flatline sqrt6 series) = false /\
  flatline_pct (detect_flatline sqrt6 series) = Some 0.
Proof. repeat split. Qed.

(** The density classes and the near-flatline test on small series. *)
Example density_classes :
  density_type (classify_signal_density [Some 1; None; None; None]
                  (compute_missing_percentage [Some 1; None; None; None]))
    = Sparse /\
  density_type (classify_signal_density [Some 1; None; Some 2; Some 3; None]
                  (compute_missing_percentage [Some 1; None; Some 2; Some 3; None]))
    = Intermittent /\
  density_type (classify_signal_density [Some 0; Some 0; Some 3; None]
                  (compute_missing_percentage [Some 0; Some 0; Some 3; None]))
    = Offline /\
  density_type (classify_signal_density [Some 0; Some 2; Some 3; None]
                  (compute_missing_percentage [Some 0; Some 2; Some 3; None]))
    = Continuous /\
  density_type (classify_signal_density [] (compute_missing_percentage []))
    = Empty.
Proof. repeat split. Qed.

Example near_flatline :
  is_flatlined (detect_flatline sqrt6 [Some 1000; Some (10000001 # 10000); Some 1000])
    = true /\
  is_flatlined (detect_flatline sqrt6 [Some 1000; Some 1020; Some 1000]) = false.
Proof. split; vm_compute; reflexivity. Qed.

(** Sampling within batches: hours 0, 1, 2 in one batch and 0, 2, 4 in
    the other give the intervals 1, 1, 2, 2. *)
Example sampling_within_batches :
  batch_intervals [Some 0; Some 1; Some 2; Some 0; Some 2; Some 4]
    (Pd.cells Examples.col_Batch) (Pd.unique (Pd.cells Examples.col_Batch))
    = [1 - 0; 2 - 1; 2 - 0; 4 - 2] /\
  match compute_sampling_stats sqrt6
          [Some 0; Some 1; Some 2; Some 0; Some 2; Some 4]
          (Some (Pd.cells Examples.col_Batch)) with
  | SamplingStats mean_interval std_interval min_interval max_interval
                  regularity is_regular =>
      mean_interval == 3 # 2 /\ std_interval == 577350 # 1000000 /\
      min_interval == 1 /\ max_interval == 2 /\ is_regular = true
  | SamplingUnavailable => False
  end.
Proof. split; vm_compute; repeat split. Qed.

End DataQualityFacts.

(** ** The quality report *)

Module QualityReportFacts.
Import Np Pd DataQualityAnalyzer DatasetAnalyzer PyFacts.

Lemma all_na_count (s : Series) : all_na s = true -> count_na s = List.length s.
Proof.
  unfold count_na. induction s as [|[v|] s IH]; simpl; intro H;
    [reflexivity | discriminate | now rewrite IH].
Qed.

Lemma all_na_dropna (s : Series) : all_na s = true -> dropna s = [].
Proof.
  induction s as [|[v|] s IH]; simpl; intro H; [reflexivity | discriminate | auto].
Qed.

Section Report.
Variable parse : string -> option Q.
Variable sqrt : Q -> Q.

(** Every entry of the report is the loop body run on a numeric column. *)
Lemma quality_loop_entries (self : Analyzer) (ts : Series)
  (bs : option (list Cell)) (cols : list string) (report : list VariableQuality) :
  quality_loop sqrt self ts bs cols = Some report ->
  Forall2 (fun col q =>
             exists c, get (df self) col = Some c /\
               q = variable_quality sqrt ts bs col (astype_float (cells c)))
          cols report.
Proof.
  revert report. induction cols as [|col cols IH]; simpl; intros report H.
  - inversion H. constructor.
  - destruct (get (df self) col) as [c|] eqn:Hc; [|discriminate].
    destruct (quality_loop sqrt self ts bs cols) as [l|]; [|discriminate].
    inversion H; subst. constructor; [|now apply IH].
    exists c. auto.
Qed.

Lemma analyze_quality_entries (self : Analyzer) (report : list VariableQuality)
  (q : VariableQuality) :
  _analyze_quality parse sqrt self = Some report -> In q report ->
  exists ts bs c,
    quality_time_series parse self = Some ts /\
    quality_batch_series self = Some bs /\
    In (variable q) (numeric_cols self) /\
    get (df self) (variable q) = Some c /\
    q = variable_quality sqrt ts bs (variable q) (astype_float (cells c)).
Proof.
  unfold _analyze_quality. intros H Hq.
  destruct (quality_time_series parse self) as [ts|]; [|discriminate].
  destruct (quality_batch_series self) as [bs|]; [|discriminate].
  apply quality_loop_entries in H.
  exists ts, bs.
  induction H as [|col q' cols rep Hhd Htl IH]; [destruct Hq|].
  destruct Hq as [E | Hq].
  - subst q'. destruct Hhd as [c [Hc Hq']]. exists c.
    rewrite Hq'. simpl. repeat split; auto.
  - destruct (IH Hq) as [c' H']. exists c'.
    destruct H' as (? & ? & ? & ? & ?). repeat split; auto. now right.
Qed.

(** No lookup of the quality report fails after [_infer_columns]: the
    names the analyzer holds are names of columns of its frame. *)
Lemma get_name_in (d : DataFrame) (n : string) :
  In n (map name (columns d)) -> exists c, get d n = Some c.
Proof.
  unfold get. induction (columns d) as [|c cols IH]; simpl; [tauto|].
  intros [E | H].
  - subst n. rewrite String.eqb_refl. eauto.
  - destruct (String.eqb (name c) n); eauto.
Qed.

Lemma find_name_in (A : Type) (f : A -> string) (p : A -> bool)
  (l : list A) (n : string) :
  option_map f (find p l) = Some n -> In n (map f l).
Proof.
  destruct (find p l) as [c|] eqn:E; simpl; [|discriminate].
  intro H. inversion H; subst. apply find_some in E. apply in_map, E.
Qed.

Lemma truthy_some (field : option string) (n : string) :
  truthy field = Some n -> field = Some n.
Proof. destruct field as [[|a s']|]; simpl; congruence. Qed.

Lemma quality_loop_total (self : Analyzer) (ts : Series)
  (bs : option (list Cell)) (cols : list string) :
  (forall col, In col cols -> In col (map name (columns (df self)))) ->
  exists report, quality_loop sqrt self ts bs cols = Some report.
Proof.
  induction cols as [|col cols IH]; simpl; intro H; [eauto|].
  destruct (get_name_in (df self) col) as [c Hc]; [apply H; now left|].
  rewrite Hc. destruct IH as [rep Hrep]; [intros; apply H; now right|].
  rewrite Hrep. simpl. eauto.
Qed.

Theorem analyze_quality_total (d : DataFrame) :
  exists report,
    _analyze_quality parse sqrt (_infer_columns parse (init d)) = Some report.
Proof.
  unfold _analyze_quality, quality_time_series, quality_batch_series.
  unfold _infer_columns, init. cbn [df time_col batch_col numeric_cols
    categorical_cols nrows columns app].
  set (batch := match option_map name (find batch_name_match (columns d)) with
                | Some b => Some b
                | None => option_map name (find (_is_batch_like (nrows d)) (columns d))
                end).
  set (cols := map (fun c => if name_is batch (name c) then c
                             else convert_column parse (nrows d) c) (columns d)).
  set (time := option_map name (find (time_like parse batch) cols)).
  assert (Hnames : map name cols = map name (columns d)).
  { unfold cols. rewrite map_map. apply map_ext. intro c.
    destruct (name_is batch (name c)); [reflexivity|].
    unfold convert_column. destruct (is_numeric_dtype c); [reflexivity|].
    destruct (Py.ltb _ _); reflexivity. }
  assert (Hb : forall b, batch = Some b -> In b (map name cols)).
  { intros b Hb. rewrite Hnames. unfold batch in Hb.
    destruct (option_map name (find batch_name_match (columns d))) eqn:E.
    - inversion Hb; subst. now apply find_name_in in E.
    - now apply find_name_in in Hb. }
  assert (Ht : forall t, time = Some t -> In t (map name cols)).
  { intros t Ht. now apply find_name_in in Ht. }
  assert (Hts : exists ts,
    match truthy time with
    | Some t => option_map (fun c => to_numeric parse (cells c))
                  (get (mkDataFrame (nrows d) cols) t)
    | None => Some (map (fun i => Some (Py.of_nat i)) (seq 0 (nrows d)))
    end = Some ts).
  { destruct (truthy time) as [t|] eqn:E; [|eauto].
    apply truthy_some, Ht in E.
    destruct (get_name_in (mkDataFrame (nrows d) cols) t E) as [c Hc].
    rewrite Hc. simpl. eauto. }
  assert (Hbs : exists bs,
    match truthy batch with
    | Some b => option_map (fun c => Some (cells c))
                  (get (mkDataFrame (nrows d) cols) b)
    | None => Some None
    end = Some bs).
  { destruct (truthy batch) as [b|] eqn:E; [|eauto].
    apply truthy_some, Hb in E.
    destruct (get_name_in (mkDataFrame (nrows d) cols) b E) as [c Hc].
    rewrite Hc. simpl. eauto. }
  destruct Hts as [ts Hts]. destruct Hbs as [bs Hbs]. rewrite Hts, Hbs.
  apply quality_loop_total. simpl. intros col Hcol.
  apply in_map_iff in Hcol. destruct Hcol as [c [Hn Hc]]. subst col.
  apply filter_In in Hc. destruct Hc as [Hc _].
  apply filter_In in Hc. destruct Hc as [Hc _].
  now apply in_map.
Qed.

(** C8.  For a numeric column with at least one row (an empty frame never
    reaches the analyzer) whose cells are all null, the entry of the
    quality report has [missing_pct = 100], density class [sparse], and a
    [stats] block whose mean, std, min and max are all [None]. *)
Theorem all_null_column_quality (self : Analyzer)
  (report : list VariableQuality) (q : VariableQuality) (c : Column) :
  _analyze_quality parse sqrt self = Some report ->
  In q report ->
  get (df self) (variable q) = Some c ->
  cells c <> [] ->
  all_na (astype_float (cells c)) = true ->
  (exists m, missing_pct q = Some m /\ m == 100) /\
  density_type (q_density q) = Sparse /\
  stats q = mkStats PyNone PyNone PyNone PyNone.
Proof.
  intros Hrep Hq Hc Hne Hna.
  destruct (analyze_quality_entries _ _ Hrep Hq)
    as (ts & bs & c' & _ & _ & _ & Hc' & E).
  rewrite Hc in Hc'. inversion Hc'; subst c'; clear Hc'.
  set (series := astype_float (cells c)) in *.
  assert (Hlen : (0 < List.length series)%nat).
  { unfold series, astype_float. rewrite length_map.
    destruct (cells c); [congruence | simpl; lia]. }
  assert (Hm : exists m, compute_missing_percentage series = Some m /\ m == 100).
  { unfold compute_missing_percentage.
    destruct series as [|v s] eqn:Es; [simpl in Hlen; lia|].
    eexists. split; [reflexivity|].
    rewrite (all_na_count _ Hna).
    assert (Hp : ~ Py.of_nat (List.length (v :: s)) == 0).
    { intro H0. pose proof (of_nat_pos Hlen) as Hpos.
      rewrite H0 in Hpos. now apply Qlt_irrefl in Hpos. }
    field. exact Hp. }
  destruct Hm as [m [Hm1 Hm2]].
  rewrite E. unfold variable_quality. cbn [missing_pct q_density stats].
  split; [eauto|]. split.
  - rewrite Hm1. unfold classify_signal_density.
    destruct (List.length series =? 0)%nat eqn:E0;
      [apply Nat.eqb_eq in E0; lia|].
    assert (H70 : nan_gtb (Some m) 70 = true).
    { simpl. apply ltb_lt. rewrite Hm2. reflexivity. }
    rewrite H70. reflexivity.
  - unfold series_stats. now rewrite (all_na_dropna _ Hna).
Qed.

(** C10.  The sampling block of every entry of a quality report is
    [compute_sampling_stats] of the time series (or row index) and the
    batch column; it does not read the variable's own values.  Hence two
    analyzers that agree on the time and batch columns (and the row
    count), whatever their numeric columns hold, give every variable the
    same sampling block; in particular any two variables of one report
    carry equal sampling statistics. *)
Theorem sampling_block_shared (self self' : Analyzer)
  (report report' : list VariableQuality) (q q' : VariableQuality) :
  quality_time_series parse self = quality_time_series parse self' ->
  quality_batch_series self = quality_batch_series self' ->
  _analyze_quality parse sqrt self = Some report ->
  _analyze_quality parse sqrt self' = Some report' ->
  In q report -> In q' report' ->
  exists ts bs,
    quality_time_series parse self = Some ts /\
    quality_batch_series self = Some bs /\
    sampling q = compute_sampling_stats sqrt ts bs /\
    sampling q' = sampling q.
Proof.
  intros Ht Hb Hrep Hrep' Hq Hq'.
  destruct (analyze_quality_entries _ _ Hrep Hq)
    as (ts & bs & c & Hts & Hbs & _ & _ & E).
  destruct (analyze_quality_entries _ _ Hrep' Hq')
    as (ts' & bs' & c' & Hts' & Hbs' & _ & _ & E').
  exists ts, bs. split; [exact Hts|]. split; [exact Hbs|].
  rewrite E, E'. unfold variable_quality. cbn [sampling].
  split; [reflexivity|]. congruence.
Qed.

End Report.

Lemma all_null_column_quality_witness :
  exists report q,
    _analyze_quality parse_digits sqrt6 Examples.fermentation_analyzer
      = Some report /\
    In q report /\ variable q = "Biomass"%string /\
    (exists m, missing_pct q = Some m /\ m == 100) /\
    density_type (q_density q) = Sparse /\
    stats q = mkStats PyNone PyNone PyNone PyNone.
Proof.
  eexists. eexists.
  split; [reflexivity|]. split; [left; reflexivity|]. split; [reflexivity|].
  eapply (@all_null_column_quality parse_digits sqrt6
            Examples.fermentation_analyzer _ _ Examples.col_Biomass).
  - reflexivity.
  - left; reflexivity.
  - reflexivity.
  - discriminate.
  - reflexivity.
Defined.

Lemma sampling_block_shared_witness :
  exists report report' q q',
    _analyze_quality parse_digits sqrt6 Examples.fermentation_analyzer
      = Some report /\
    _analyze_quality parse_digits sqrt6 Examples.glucose_analyzer
      = Some report' /\
    In q report /\ In q' report' /\
    variable q = "pH"%string /\ variable q' = "Glucose"%string /\
    exists ts bs,
      quality_time_series parse_digits Examples.fermentation_analyzer = Some ts /\
      quality_batch_series Examples.fermentation_analyzer = Some bs /\
      sampling q = compute_sampling_stats sqrt6 ts bs /\
      sampling q' = sampling q.
Proof.
  eexists. eexists. eexists. eexists.
  split; [reflexivity|]. split; [reflexivity|].
  split; [right; left; reflexivity|]. split; [left; reflexivity|].
  split; [reflexivity|]. split; [reflexivity|].
  eapply (@sampling_block_shared parse_digits sqrt6
            Examples.fermentation_analyzer Examples.glucose_analyzer).
  - reflexivity.
  - reflexivity.
  - reflexivity.
  - reflexivity.
  - right; left; reflexivity.
  - left; reflexivity.
Defined.

End QualityReportFacts.

(** ** Column roles *)

Module ColumnRoleFacts.
Import Np Pd DatasetAnalyzer.

(** The first match of a test does not depend on the order of the list
    when all the elements that pass the test have the same image. *)
Lemma find_permutation (A B : Type) (f : A -> B) (p : A -> bool) (l l' : list A) :
  Permutation l l' ->
  (forall x y, In x l -> In y l -> p x = true -> p y = true -> f x = f y) ->
  option_map f (find p l) = option_map f (find p l').
Proof.
  intros Hperm Huniq.
  destruct (find p l) as [x|] eqn:Ex; destruct (find p l') as [y|] eqn:Ey; simpl.
  - apply find_some in Ex. apply find_some in Ey.
    destruct Ex as [Hx Px]. destruct Ey as [Hy Py].
    f_equal. apply Huniq; auto.
    apply Permutation_in with l'; [now apply Permutation_sym | assumption].
  - apply find_some in Ex. destruct Ex as [Hx Px].
    pose proof (find_none _ _ Ey x (Permutation_in _ Hperm Hx)). congruence.
  - apply find_some in Ey. destruct Ey as [Hy Py].
    pose proof (find_none _ _ Ex y
                  (Permutation_in _ (Permutation_sym Hperm) Hy)). congruence.
  - reflexivity.
Qed.

Section Roles.
Variable parse : string -> option Q.

(** What [_infer_columns] selects on a fresh analyzer. *)
Lemma infer_batch_col (d : DataFrame) :
  batch_col (_infer_columns parse (init d)) =
  match option_map name (find batch_name_match (columns d)) with
  | Some b => Some b
  | None => option_map name (find (_is_batch_like (nrows d)) (columns d))
  end.
Proof. reflexivity. Qed.

Lemma infer_columns_df (d : DataFrame) :
  columns (df (_infer_columns parse (init d))) =
  map (fun c => if name_is (batch_col (_infer_columns parse (init d))) (name c)
                then c else convert_column parse (nrows d) c) (columns d).
Proof. reflexivity. Qed.

Lemma infer_time_col (d : DataFrame) :
  time_col (_infer_columns parse (init d)) =
  option_map name
    (find (time_like parse (batch_col (_infer_columns parse (init d))))
          (columns (df (_infer_columns parse (init d))))).
Proof. reflexivity. Qed.

(** C9, as the code has it.  Each role goes to the first column, in
    column order, that qualifies for it.  So a permutation of the columns
    leaves the batch column unchanged when at most one column name
    contains a batch keyword and, in case none does, at most one column is
    batch-like; and it leaves the time column unchanged when moreover at
    most one column of the converted frame qualifies as time column. *)
Theorem infer_columns_permutation (d d' : DataFrame) :
  nrows d = nrows d' ->
  Permutation (columns d) (columns d') ->
  (forall c1 c2, In c1 (columns d) -> In c2 (columns d) ->
     batch_name_match c1 = true -> batch_name_match c2 = true ->
     name c1 = name c2) ->
  (find batch_name_match (columns d) = None ->
   forall c1 c2, In c1 (columns d) -> In c2 (columns d) ->
     _is_batch_like (nrows d) c1 = true -> _is_batch_like (nrows d) c2 = true ->
     name c1 = name c2) ->
  (forall c1 c2,
     In c1 (columns (df (_infer_columns parse (init d)))) ->
     In c2 (columns (df (_infer_columns parse (init d)))) ->
     time_like parse (batch_col (_infer_columns parse (init d))) c1 = true ->
     time_like parse (batch_col (_infer_columns parse (init d))) c2 = true ->
     name c1 = name c2) ->
  batch_col (_infer_columns parse (init d')) =
    batch_col (_infer_columns parse (init d)) /\
  time_col (_infer_columns parse (init d')) =
    time_col (_infer_columns parse (init d)).
Proof.
  intros Hn Hperm Hkw Hpat Htime.
  assert (Hb : batch_col (_infer_columns parse (init d')) =
               batch_col (_infer_columns parse (init d))).
  { rewrite !infer_batch_col.
    rewrite <- (find_permutation name batch_name_match Hperm Hkw).
    destruct (find batch_name_match (columns d)) as [c|] eqn:E; simpl;
      [reflexivity|].
    rewrite <- Hn. symmetry.
    apply (find_permutation name (_is_batch_like (nrows d)) Hperm).
    now apply Hpat. }
  split; [exact Hb|].
  rewrite !infer_time_col. rewrite Hb.
  symmetry. apply find_permutation; [|exact Htime].
  rewrite !infer_columns_df. rewrite Hb, <- Hn.
  now apply Permutation_map.
Qed.

End Roles.

(** The roles in the fermentation table. *)
Example fermentation_roles :
  batch_col Examples.fermentation_analyzer = Some "Batch"%string /\
  time_col Examples.fermentation_analyzer = Some "Hour"%string /\
  numeric_cols Examples.fermentation_analyzer = ["Biomass"; "pH"]%string /\
  categorical_cols Examples.fermentation_analyzer = [].
Proof. repeat split. Qed.

Lemma infer_columns_permutation_witness :
  batch_col (_infer_columns parse_digits (init Examples.fermentation_permuted)) =
    batch_col (_infer_columns parse_digits (init Examples.fermentation)) /\
  time_col (_infer_columns parse_digits (init Examples.fermentation_permuted)) =
    time_col (_infer_columns parse_digits (init Examples.fermentation)).
Proof.
  apply (@infer_columns_permutation parse_digits
            Examples.fermentation Examples.fermentation_permuted).
  - reflexivity.
  - unfold Examples.fermentation, Examples.fermentation_permuted. simpl.
    apply Permutation_trans with
      [Examples.col_Batch; Examples.col_pH; Examples.col_Hour; Examples.col_Biomass].
    + apply perm_skip.
      apply Permutation_trans with
        [Examples.col_Hour; Examples.col_pH; Examples.col_Biomass].
      * apply perm_skip. apply perm_swap.
      * apply perm_swap.
    + apply Permutation_trans with
        [Examples.col_pH; Examples.col_Batch; Examples.col_Hour; Examples.col_Biomass].
      * apply perm_swap.
      * apply perm_skip. apply perm_swap.
  - intros c1 c2 H1 H2. simpl in H1, H2.
    destruct H1 as [<-|[<-|[<-|[<-|[]]]]];
      destruct H2 as [<-|[<-|[<-|[<-|[]]]]];
      intros E1 E2; try reflexivity; discriminate.
  - intro H. discriminate H.
  - intros c1 c2 H1 H2. simpl in H1, H2.
    destruct H1 as [<-|[<-|[<-|[<-|[]]]]];
      destruct H2 as [<-|[<-|[<-|[<-|[]]]]];
      intros E1 E2; try reflexivity; discriminate.
Defined.

(** C9 as the specification words it fails on two columns whose names
    both contain a batch keyword: the first one in column order becomes
    the batch column, so exchanging them changes the selection. *)
Lemma infer_columns_order_counterexample :
  Permutation (columns Examples.batch_run) (columns Examples.run_batch) /\
  nrows Examples.batch_run = nrows Examples.run_batch /\
  batch_col (_infer_columns parse_digits (init Examples.batch_run))
    = Some "batch"%string /\
  batch_col (_infer_columns parse_digits (init Examples.run_batch))
    = Some "run"%string.
Proof.
  split; [apply perm_swap|]. repeat split.
Qed.

End ColumnRoleFacts.

(** ** The exact Pearson coefficient *)

Module ExactStatsFacts.
Import Py Np ExactStats PyFacts.

Lemma dot_cons (x y : Q) (a b : list Q) :
  dot (x :: a) (y :: b) = x * y + dot a b.
Proof. reflexivity. Qed.

Lemma dot_nil_l (b : list Q) : dot [] b = 0.
Proof. reflexivity. Qed.

Lemma dot_nil_r (a : list Q) : dot a [] = 0.
Proof. destruct a; reflexivity. Qed.

Lemma Qsq_nonneg' (a : Q) : 0 <= a * a.
Proof.
  destruct (Qlt_le_dec a 0).
  - setoid_replace (a * a) with ((- a) * (- a)) by ring.
    apply Qmult_le_0_compat; lra.
  - now apply Qmult_le_0_compat.
Qed.

Lemma dot_self_nonneg (a : list Q) : 0 <= dot a a.
Proof.
  induction a as [|x a IH]; [apply Qle_refl|].
  rewrite dot_cons. pose proof (Qsq_nonneg' x). lra.
Qed.

Lemma cauchy_schwarz (a b : list Q) :
  dot a b * dot a b <= dot a a * dot b b.
Proof.
  revert b. induction a as [|x a IH]; intro b.
  - rewrite !dot_nil_l. lra.
  - destruct b as [|y b].
    + rewrite !dot_nil_r. lra.
    + rewrite !dot_cons.
      specialize (IH b).
      pose proof (dot_self_nonneg a) as HA.
      pose proof (dot_self_nonneg b) as HB.
      set (A := dot a a) in *. set (B := dot b b) in *. set (C := dot a b) in *.
      assert (HE : 0 <= x*x*B + y*y*A - 2*x*y*C).
      { destruct (Qlt_le_dec 0 A) as [HApos | HA0].
        - assert (H1 : 0 <= A * (x*x*B + y*y*A - 2*x*y*C)).
          { assert (H2 : A * (x*x*B + y*y*A - 2*x*y*C) ==
                         (y*A - x*C) * (y*A - x*C) + x*x*(A*B - C*C)) by ring.
            rewrite H2.
            assert (H3 : 0 <= (y*A - x*C) * (y*A - x*C)) by apply Qsq_nonneg'.
            assert (H4 : 0 <= x*x*(A*B - C*C)).
            { apply Qmult_le_0_compat; [apply Qsq_nonneg'|lra]. }
            lra. }
          set (E := x*x*B + y*y*A - 2*x*y*C) in *.
          destruct (Qlt_le_dec E 0) as [Hneg|]; [|assumption].
          exfalso.
          assert (H5 : A * E < 0).
          { setoid_replace 0 with (A * 0) by ring.
            now apply Qmult_lt_l. }
          lra.
        - assert (HA0' : A == 0) by lra.
          assert (HC : C * C <= 0).
          { apply Qle_trans with (A * B); [assumption|]. rewrite HA0'. lra. }
          assert (HC0 : C == 0).
          { destruct (Qeq_dec C 0) as [|Hn]; [assumption|]. exfalso.
            assert (0 < C * C).
            { destruct (Qlt_le_dec 0 C).
              - now apply Qmult_lt_0_compat.
              - assert (Hc : 0 < - C) by (destruct (Qlt_le_dec C 0); [lra|exfalso; apply Hn; lra]).
                setoid_replace (C * C) with ((- C) * (- C)) by ring.
                now apply Qmult_lt_0_compat. }
            lra. }
          rewrite HA0', HC0.
          setoid_replace (x * x * B + y * y * 0 - 2 * x * y * 0) with (x * x * B) by ring.
          apply Qmult_le_0_compat; [apply Qsq_nonneg'|assumption]. }
      setoid_replace ((x * y + C) * (x * y + C))
        with (x*x*(y*y) + C*C + 2*x*y*C) by ring.
      setoid_replace ((x * x + A) * (y * y + B))
        with (x*x*(y*y) + A*B + (x*x*B + y*y*A)) by ring.
      lra.
Qed.

Lemma dot_self_zero (a : list Q) :
  dot a a == 0 -> forall v, In v a -> v == 0.
Proof.
  induction a as [|x a IH]; [intros _ v []|].
  rewrite dot_cons. intros H v Hv.
  pose proof (Qsq_nonneg' x) as Hx. pose proof (dot_self_nonneg a) as Ha.
  assert (Hx0 : x * x == 0) by lra.
  assert (Ha0 : dot a a == 0) by lra.
  destruct Hv as [<- | Hv]; [|now apply IH].
  destruct (Qeq_dec x 0) as [|Hn]; [assumption|].
  apply Qmult_integral in Hx0. tauto.
Qed.

Lemma not_constant_dot (x : list Q) (a b : Q) :
  In a x -> In b x -> ~ a == b -> ~ dot (center x) (center x) == 0.
Proof.
  intros Ha Hb Hab H0.
  pose proof (dot_self_zero _ H0) as Hz.
  assert (Hc : forall v, In v x -> v == mean x).
  { intros v Hv. specialize (Hz (v - mean x)).
    assert (In (v - mean x) (center x)).
    { unfold center. apply in_map_iff. exists v. auto. }
    specialize (Hz H). lra. }
  apply Hab. rewrite (Hc a Ha), (Hc b Hb). reflexivity.
Qed.

Lemma sum_opp (l : list Q) : sum (map Qopp l) == - sum l.
Proof.
  induction l as [|v l IH]; simpl; [reflexivity|].
  unfold sum in *. simpl. rewrite IH. ring.
Qed.

Lemma mean_opp (l : list Q) : mean (map Qopp l) == - mean l.
Proof.
  unfold mean. rewrite sum_opp, length_map.
  unfold Qdiv. ring.
Qed.

Lemma dot_shift_opp (m m' : Q) (x : list Q) :
  m' == - m ->
  dot (map (fun v => v - m) x) (map (fun v => v - m') (map Qopp x))
    == - dot (map (fun v => v - m) x) (map (fun v => v - m) x) /\
  dot (map (fun v => v - m') (map Qopp x)) (map (fun v => v - m') (map Qopp x))
    == dot (map (fun v => v - m) x) (map (fun v => v - m) x).
Proof.
  intro Hm. induction x as [|v x [IH1 IH2]]; simpl.
  - split; reflexivity.
  - rewrite !dot_cons, IH1, IH2, Hm. split; ring.
Qed.

Lemma ltb_wd (a a' b b' : Q) : a == a' -> b == b' -> ltb a b = ltb a' b'.
Proof.
  intros Ha Hb. unfold ltb. f_equal.
  destruct (Qle_bool b a) eqn:E; symmetry.
  - apply Qle_bool_iff. rewrite <- Ha, <- Hb. now apply Qle_bool_iff.
  - destruct (Qle_bool b' a') eqn:E'; [|reflexivity].
    apply Qle_bool_iff in E'. rewrite <- Ha, <- Hb in E'.
    apply Qle_bool_iff in E'. congruence.
Qed.

Lemma Qeq_bool_false (a b : Q) : ~ a == b -> Qeq_bool a b = false.
Proof.
  intro H. destruct (Qeq_bool a b) eqn:E; [|reflexivity].
  apply Qeq_bool_eq in E. contradiction.
Qed.

Lemma pearson_opp (x : list Q) :
  ~ dot (center x) (center x) == 0 ->
  pearson x (map Qopp x) = Some (-1).
Proof.
  intro Hnz. unfold pearson.
  destruct (@dot_shift_opp (mean x) (mean (map Qopp x)) x (mean_opp x)) as [Hxy Hyy].
  fold (center x) in Hxy, Hyy. fold (center (map Qopp x)) in Hxy, Hyy.
  set (sxx := dot (center x) (center x)) in *.
  set (syy := dot (center (map Qopp x)) (center (map Qopp x))) in *.
  set (sxy := dot (center x) (center (map Qopp x))) in *.
  rewrite (Qeq_bool_false Hnz).
  assert (Hnzy : ~ syy == 0) by (rewrite Hyy; exact Hnz).
  rewrite (Qeq_bool_false Hnzy). cbn [orb].
  assert (Hpos : 0 < sxx).
  { pose proof (dot_self_nonneg (center x)). fold sxx in H.
    destruct (Qlt_le_dec 0 sxx); [assumption|]. exfalso. apply Hnz. lra. }
  assert (Hs : sign sxy = -1).
  { unfold sign. rewrite (ltb_wd (a' := - sxx) (b' := 0) Hxy (Qeq_refl 0)).
    assert (ltb (- sxx) 0 = true) by (apply ltb_lt; lra).
    now rewrite H. }
  rewrite Hs.
  assert (E : Qred (-1 * (sxy * sxy) / (sxx * syy)) = Qred (-1)).
  { apply Qred_complete. rewrite Hxy, Hyy. field. exact Hnz. }
  rewrite E. reflexivity.
Qed.

Lemma pearson_abs_le (x y : list Q) (r : Q) :
  pearson x y = Some r -> Qabs r <= 1.
Proof.
  unfold pearson.
  set (sxx := dot (center x) (center x)).
  set (syy := dot (center y) (center y)).
  set (sxy := dot (center x) (center y)).
  destruct (Qeq_bool sxx 0) eqn:Ex; [discriminate|].
  destruct (Qeq_bool syy 0) eqn:Ey; [discriminate|]. cbn [orb].
  set (q := sign sxy * (sxy * sxy) / (sxx * syy)).
  intro H. assert (Hr : r = Qred q) by congruence. clear H. subst r.
  assert (Eq : Qabs (Qred q) == Qabs q) by apply Qabs_wd, Qred_correct.
  rewrite Eq. unfold q. clear Eq q.
  assert (Hx : 0 < sxx).
  { pose proof (dot_self_nonneg (center x)). fold sxx in H.
    destruct (Qlt_le_dec 0 sxx); [assumption|]. exfalso.
    assert (E : sxx == 0) by lra. apply Qeq_eq_bool in E. congruence. }
  assert (Hy : 0 < syy).
  { pose proof (dot_self_nonneg (center y)). fold syy in H.
    destruct (Qlt_le_dec 0 syy); [assumption|]. exfalso.
    assert (E : syy == 0) by lra. apply Qeq_eq_bool in E. congruence. }
  assert (Hd : 0 < sxx * syy) by now apply Qmult_lt_0_compat.
  pose proof (cauchy_schwarz (center x) (center y)) as Hcs.
  fold sxx syy sxy in Hcs.
  assert (Hq : 0 <= sxy * sxy / (sxx * syy) <= 1).
  { split.
    - apply Qle_shift_div_l; [assumption|]. rewrite Qmult_0_l. apply Qsq_nonneg'.
    - apply Qle_shift_div_r; [assumption|]. now rewrite Qmult_1_l. }
  apply Qabs_Qle_condition.
  unfold sign. destruct (ltb sxy 0).
  - setoid_replace (-1 * (sxy * sxy) / (sxx * syy))
      with (- (sxy * sxy / (sxx * syy))) by (field; lra).
    split; lra.
  - setoid_replace (1 * (sxy * sxy) / (sxx * syy))
      with (sxy * sxy / (sxx * syy)) by (field; lra).
    split; lra.
Qed.

End ExactStatsFacts.

(** ** Correlations and lags *)

Module RelationshipFacts.
Import Np RelationshipAnalyzer PyFacts.

Lemma lag_range_in (max_lag lag : Z) :
  In lag (lag_range max_lag) <-> (- max_lag <= lag <= max_lag)%Z.
Proof.
  unfold lag_range. rewrite in_map_iff. split.
  - intros [i [E Hi]]. apply in_seq in Hi. lia.
  - intro H. exists (Z.to_nat (lag + max_lag)). split; [lia|].
    apply in_seq. lia.
Qed.

Lemma shift_zero (x y : list Q) : shift x y 0 = (x, y).
Proof. reflexivity. Qed.

Lemma shift_length (x y : list Q) (lag : Z) :
  List.length (fst (shift x y lag)) = (List.length x - Z.abs_nat lag)%nat.
Proof.
  unfold shift. destruct (lag <? 0)%Z eqn:E1; [|destruct (0 <? lag)%Z eqn:E2].
  - cbn [fst]. rewrite length_firstn. lia.
  - cbn [fst]. apply length_skipn.
  - cbn [fst]. apply Z.ltb_ge in E1, E2. assert (lag = 0%Z) by lia. subst. simpl. lia.
Qed.

Section Generic.
Variable pearsonr : list Q -> list Q -> option Q * option Q.
Variable spearmanr : list Q -> list Q -> option Q * option Q.

Lemma lag_entry_lag (x y : list Q) (lag l : Z) (v : option Q) :
  In (l, v) (lag_entry pearsonr x y lag) ->
  l = lag /\
  (5 <= List.length (fst (shift x y lag)))%nat /\
  v = fst (pearsonr (fst (shift x y lag)) (snd (shift x y lag))).
Proof.
  unfold lag_entry. destruct (shift x y lag) as [xs ys]. simpl.
  destruct (List.length xs <? 5)%nat eqn:E; simpl; [tauto|].
  apply Nat.ltb_ge in E.
  intros [H | []]. inversion H; subst. auto.
Qed.

(** The loop appends to the profile exactly the entries of the lag. *)
Lemma lag_step_profile (x y : list Q) (st : LagState) (lag : Z) :
  snd (lag_step pearsonr x y st lag) = snd st ++ lag_entry pearsonr x y lag.
Proof.
  unfold lag_step, lag_entry. destruct st as [[bl bc] prof].
  destruct (shift x y lag) as [xs ys].
  destruct (List.length xs <? 5)%nat; simpl; [now rewrite app_nil_r|].
  destruct (fst (pearsonr xs ys)) as [v|]; [|reflexivity].
  destruct (abs_gtb (Some v) bc); reflexivity.
Qed.

Lemma lag_loop_profile (x y : list Q) (lags : list Z) (st : LagState) :
  snd (fold_left (lag_step pearsonr x y) lags st) =
  snd st ++ flat_map (lag_entry pearsonr x y) lags.
Proof.
  revert st. induction lags as [|lag lags IH]; intro st; simpl.
  - now rewrite app_nil_r.
  - rewrite IH, lag_step_profile, <- app_assoc. reflexivity.
Qed.

(** C3.  When the unlagged correlation and the lag analysis (with a
    maximal lag that is not negative) are both available for a pair of
    series, the lag profile has an entry at lag 0, only one value stands
    at lag 0, and it is the unlagged Pearson r of the same cleaned pair. *)
Theorem lag_zero_is_pearson (x y : Series) (max_lag : Z)
  (r p sr sp : option Q) (n : nat) (best_lag : Z) (best_corr : Q)
  (profile : list (Z * option Q)) :
  (0 <= max_lag)%Z ->
  compute_correlations pearsonr spearmanr x y = CorrStats r p sr sp n ->
  compute_lagged_correlation pearsonr x y max_lag
    = LagStats best_lag best_corr profile ->
  In (0%Z, r) profile /\ (forall v, In (0%Z, v) profile -> v = r).
Proof.
  intros Hm Hc Hl.
  unfold compute_correlations in Hc. unfold compute_lagged_correlation in Hl.
  set (xc := map fst (clean_pairs x y)) in *.
  set (yc := map snd (clean_pairs x y)) in *.
  destruct (List.length xc <? 5)%nat eqn:E5; [discriminate|].
  apply Nat.ltb_ge in E5.
  destruct (pearsonr xc yc) as [pr pp] eqn:Ep.
  destruct (spearmanr xc yc) as [sr' sp'].
  inversion Hc; subst; clear Hc.
  destruct (Z.of_nat (List.length xc) <? max_lag + 5)%Z; [discriminate|].
  pose proof (lag_loop_profile xc yc (lag_range max_lag) (0%Z, 0, [])) as Hp.
  destruct (fold_left (lag_step pearsonr xc yc) (lag_range max_lag) (0%Z, 0, []))
    as [[bl bc] prof].
  inversion Hl; subst; clear Hl. simpl in Hp. subst profile.
  split.
  - apply in_flat_map. exists 0%Z. split; [apply lag_range_in; lia|].
    unfold lag_entry. rewrite shift_zero.
    destruct (List.length xc <? 5)%nat eqn:E; [apply Nat.ltb_lt in E; lia|].
    rewrite Ep. now left.
  - intros v Hv. apply in_flat_map in Hv. destruct Hv as [lag [_ Hv]].
    apply lag_entry_lag in Hv. destruct Hv as [E0 [_ Hv]]. subst lag.
    rewrite shift_zero in Hv. simpl in Hv. rewrite Ep in Hv. exact Hv.
Qed.

End Generic.

Lemma lag_zero_is_pearson_witness :
  match compute_correlations (ExactStats.pearsonr (fun _ _ => None))
          ExactStats.no_stat Examples.feed Examples.yield,
        compute_lagged_correlation (ExactStats.pearsonr (fun _ _ => None))
          Examples.feed Examples.yield 5
  with
  | CorrStats r _ _ _ _, LagStats _ _ profile =>
      In (0%Z, r) profile /\ (forall v, In (0%Z, v) profile -> v = r)
  | _, _ => False
  end.
Proof.
  destruct (compute_correlations (ExactStats.pearsonr (fun _ _ => None))
              ExactStats.no_stat Examples.feed Examples.yield)
    as [|r p sr sp n] eqn:Ec.
  - vm_compute in Ec. discriminate Ec.
  - destruct (compute_lagged_correlation (ExactStats.pearsonr (fun _ _ => None))
                Examples.feed Examples.yield 5)
      as [|best_lag best_corr profile] eqn:El.
    + vm_compute in El. discriminate El.
    + apply (@lag_zero_is_pearson (ExactStats.pearsonr (fun _ _ => None))
               ExactStats.no_stat Examples.feed Examples.yield 5
               r p sr sp n best_lag best_corr profile).
      * lia.
      * exact Ec.
      * exact El.
Defined.

End RelationshipFacts.

(** ** Perfectly anti-correlated columns *)

Module AntiCorrelationFacts.
Import Py Np RelationshipAnalyzer ExactStats PyFacts ExactStatsFacts RelationshipFacts.

Lemma clean_pairs_some (x y : list Q) :
  clean_pairs (map Some x) (map Some y) = combine x y.
Proof.
  revert y. induction x as [|a x IH]; intros [|b y]; simpl; try reflexivity.
  now rewrite IH.
Qed.

Lemma combine_opp_fst (x : list Q) : map fst (combine x (map Qopp x)) = x.
Proof. induction x as [|a x IH]; simpl; [reflexivity | now rewrite IH]. Qed.

Lemma combine_opp_snd (x : list Q) :
  map snd (combine x (map Qopp x)) = map Qopp x.
Proof. induction x as [|a x IH]; simpl; [reflexivity | now rewrite IH]. Qed.

Lemma fold_left_invariant (A B : Type) (f : A -> B -> A) (I : A -> Prop)
  (l : list B) (a : A) :
  (forall a b, In b l -> I a -> I (f a b)) -> I a -> I (fold_left f l a).
Proof.
  revert a. induction l as [|b l IH]; intros a Hf Ha; simpl; [exact Ha|].
  apply IH.
  - intros a' b' Hb'. apply Hf. now right.
  - apply Hf; [now left | exact Ha].
Qed.

Section BestLag.
Variable pearsonr : list Q -> list Q -> option Q * option Q.
Variables x y : list Q.

(** The best correlation so far stays weaker than [v0] across a lag whose
    own correlation is weaker than [v0] or NaN. *)
Lemma lag_step_weaker (st : LagState) (lag : Z) (v0 : Q) :
  (forall v, lag_correlation pearsonr x y lag = Some v -> Qabs v < Qabs v0) ->
  Qabs (snd (fst st)) < Qabs v0 ->
  Qabs (snd (fst (lag_step pearsonr x y st lag))) < Qabs v0.
Proof.
  intros Hr Hst. unfold lag_step. unfold lag_correlation in Hr.
  destruct st as [[bl bc] prof].
  destruct (shift x y lag) as [xs ys]. simpl in Hst.
  destruct (List.length xs <? 5)%nat; [exact Hst|].
  destruct (fst (pearsonr xs ys)) as [v|]; [|exact Hst].
  destruct (abs_gtb (Some v) bc); simpl; auto.
Qed.

(** A correlation strictly stronger than the best one so far replaces it. *)
Lemma lag_step_takes (st : LagState) (lag : Z) (v : Q) :
  (5 <= List.length (fst (shift x y lag)))%nat ->
  lag_correlation pearsonr x y lag = Some v ->
  Qabs (snd (fst st)) < Qabs v ->
  fst (lag_step pearsonr x y st lag) = (lag, v).
Proof.
  intros Hlen Hv Hst. unfold lag_step. unfold lag_correlation in Hv.
  destruct st as [[bl bc] prof].
  destruct (shift x y lag) as [xs ys]. simpl in Hlen, Hst.
  destruct (List.length xs <? 5)%nat eqn:E; [apply Nat.ltb_lt in E; lia|].
  rewrite Hv.
  assert (Hg : abs_gtb (Some v) bc = true) by (simpl; now apply ltb_lt).
  rewrite Hg. reflexivity.
Qed.

(** A correlation that is NaN or not stronger than the best one so far
    leaves the best lag as it is. *)
Lemma lag_step_keeps (st : LagState) (lag : Z) :
  (forall v, lag_correlation pearsonr x y lag = Some v ->
             Qabs v <= Qabs (snd (fst st))) ->
  fst (lag_step pearsonr x y st lag) = fst st.
Proof.
  intros Hr. unfold lag_step. unfold lag_correlation in Hr.
  destruct st as [[bl bc] prof].
  destruct (shift x y lag) as [xs ys]. simpl in Hr.
  destruct (List.length xs <? 5)%nat; [reflexivity|].
  destruct (fst (pearsonr xs ys)) as [v|]; [|reflexivity].
  assert (Hg : abs_gtb (Some v) bc = false) by (simpl; apply ltb_ge; now apply Hr).
  rewrite Hg. reflexivity.
Qed.

(** The best correlation so far is at least as strong as every number
    already in the profile. *)
Lemma lag_step_dominates (st : LagState) (lag : Z) :
  (forall l r, In (l, Some r) (snd st) -> Qabs r <= Qabs (snd (fst st))) ->
  forall l r, In (l, Some r) (snd (lag_step pearsonr x y st lag)) ->
              Qabs r <= Qabs (snd (fst (lag_step pearsonr x y st lag))).
Proof.
  destruct st as [[bl bc] prof]. unfold lag_step.
  destruct (shift x y lag) as [xs ys].
  destruct (List.length xs <? 5)%nat; [tauto|].
  cbn [fst snd]. intros Hmax.
  destruct (fst (pearsonr xs ys)) as [v|].
  - unfold abs_gtb. destruct (ltb (Qabs bc) (Qabs v)) eqn:E; cbn [fst snd].
    + apply ltb_lt in E.
      intros l r Hin. apply in_app_or in Hin. destruct Hin as [Hin | [Hin | []]].
      * apply Qlt_le_weak. eapply Qle_lt_trans; [eapply Hmax, Hin | exact E].
      * inversion Hin. apply Qle_refl.
    + apply ltb_ge in E.
      intros l r Hin. apply in_app_or in Hin. destruct Hin as [Hin | [Hin | []]].
      * eapply Hmax, Hin.
      * inversion Hin. subst. exact E.
  - cbn [fst snd].
    intros l r Hin. apply in_app_or in Hin. destruct Hin as [Hin | [Hin | []]].
    + eapply Hmax, Hin.
    + discriminate Hin.
Qed.

(** Across a lag other than 0, a best correlation that is not the initial 0
    stands at a lag other than 0. *)
Lemma lag_step_moved (st : LagState) (lag : Z) :
  lag <> 0%Z ->
  (snd (fst st) = 0 \/ fst (fst st) <> 0%Z) ->
  (snd (fst (lag_step pearsonr x y st lag)) = 0 \/
   fst (fst (lag_step pearsonr x y st lag)) <> 0%Z).
Proof.
  intros Hlag Hst. unfold lag_step. destruct st as [[bl bc] prof].
  destruct (shift x y lag) as [xs ys].
  destruct (List.length xs <? 5)%nat; [exact Hst|].
  destruct (fst (pearsonr xs ys)) as [v|]; [|exact Hst].
  destruct (abs_gtb (Some v) bc); [right; exact Hlag | exact Hst].
Qed.

(** Across a lag other than 0, a best lag other than 0 stays other than 0. *)
Lemma lag_step_away (st : LagState) (lag : Z) :
  lag <> 0%Z ->
  fst (fst st) <> 0%Z ->
  fst (fst (lag_step pearsonr x y st lag)) <> 0%Z.
Proof.
  intros Hlag Hst. unfold lag_step. destruct st as [[bl bc] prof].
  destruct (shift x y lag) as [xs ys].
  destruct (List.length xs <? 5)%nat; [exact Hst|].
  destruct (fst (pearsonr xs ys)) as [v|]; [|exact Hst].
  destruct (abs_gtb (Some v) bc); [exact Hlag | exact Hst].
Qed.

(** With at least 10 samples, every lag from -5 to 5 leaves an overlap of
    at least 5 samples and so has its entry in the profile. *)
Lemma lag_entry_present (lag : Z) :
  (10 <= List.length x)%nat -> (-5 <= lag <= 5)%Z ->
  lag_entry pearsonr x y lag = [(lag, lag_correlation pearsonr x y lag)].
Proof.
  intros Hn Hlag. unfold lag_entry, lag_correlation.
  pose proof (shift_length x y lag) as Hs.
  destruct (shift x y lag) as [xs ys]. cbn [fst] in Hs.
  destruct (List.length xs <? 5)%nat eqn:E; [apply Nat.ltb_lt in E; lia|].
  reflexivity.
Qed.

(** The loop over the lags -5 .. 5 on at least 10 samples: lag 0 wins when
    its correlation is a number other than 0, strictly stronger than the
    one at every negative lag and at least as strong as the one at every
    positive lag. *)
Lemma lag_loop_zero (v0 : Q) :
  (10 <= List.length x)%nat ->
  lag_correlation pearsonr x y 0 = Some v0 ->
  0 < Qabs v0 ->
  (forall lag v, (-5 <= lag < 0)%Z ->
     lag_correlation pearsonr x y lag = Some v -> Qabs v < Qabs v0) ->
  (forall lag v, (0 < lag <= 5)%Z ->
     lag_correlation pearsonr x y lag = Some v -> Qabs v <= Qabs v0) ->
  fst (fold_left (lag_step pearsonr x y) (lag_range 5) (0%Z, 0, [])) = (0%Z, v0).
Proof.
  intros Hn H0 Hpos Hneg Hlater.
  set (f := lag_step pearsonr x y).
  change (lag_range 5) with ([-5; -4; -3; -2; -1] ++ [0] ++ [1; 2; 3; 4; 5])%Z.
  rewrite !fold_left_app.
  set (st1 := fold_left f [-5; -4; -3; -2; -1]%Z (0%Z, 0, [])).
  assert (H1 : Qabs (snd (fst st1)) < Qabs v0).
  { unfold st1. apply fold_left_invariant.
    - intros st lag Hin Hst. apply lag_step_weaker; [|exact Hst].
      intros v. apply Hneg. simpl in Hin. lia.
    - exact Hpos. }
  change (fold_left f [0%Z] st1) with (f st1 0%Z).
  set (st2 := f st1 0%Z).
  assert (H2 : fst st2 = (0%Z, v0)).
  { unfold st2, f. apply lag_step_takes; [|exact H0|exact H1].
    rewrite shift_length. simpl. lia. }
  apply (fold_left_invariant f (fun st => fst st = (0%Z, v0))); [|exact H2].
  intros st lag Hin Hst. unfold f. rewrite lag_step_keeps; [exact Hst|].
  rewrite Hst. cbn [fst snd]. intro v. apply Hlater. simpl in Hin. lia.
Qed.

(** The same loop: lag 0 does not win when the correlation at some
    negative lag is a number other than 0 and at least as strong as the one
    at lag 0, or the one at lag 0 is NaN. *)
Lemma lag_loop_not_zero (lag : Z) (v : Q) :
  (10 <= List.length x)%nat ->
  (-5 <= lag < 0)%Z ->
  lag_correlation pearsonr x y lag = Some v ->
  0 < Qabs v ->
  (forall v0, lag_correlation pearsonr x y 0 = Some v0 -> Qabs v0 <= Qabs v) ->
  fst (fst (fold_left (lag_step pearsonr x y) (lag_range 5) (0%Z, 0, []))) <> 0%Z.
Proof.
  intros Hn Hlag Hv Hpos H0.
  set (f := lag_step pearsonr x y).
  change (lag_range 5) with ([-5; -4; -3; -2; -1] ++ [0] ++ [1; 2; 3; 4; 5])%Z.
  rewrite !fold_left_app.
  set (st1 := fold_left f [-5; -4; -3; -2; -1]%Z (0%Z, 0, [])).
  assert (Hdom : forall l r, In (l, Some r) (snd st1) ->
                             Qabs r <= Qabs (snd (fst st1))).
  { unfold st1.
    apply (fold_left_invariant f
             (fun st => forall l r, In (l, Some r) (snd st) ->
                                    Qabs r <= Qabs (snd (fst st)))).
    - intros st l _ Hst. apply lag_step_dominates. exact Hst.
    - intros l r []. }
  assert (Hmoved : snd (fst st1) = 0 \/ fst (fst st1) <> 0%Z).
  { unfold st1.
    apply (fold_left_invariant f
             (fun st => snd (fst st) = 0 \/ fst (fst st) <> 0%Z)).
    - intros st l Hin Hst. apply lag_step_moved; [|exact Hst].
      simpl in Hin. lia.
    - now left. }
  assert (Hin : In (lag, Some v) (snd st1)).
  { unfold st1, f. rewrite lag_loop_profile. cbn [snd app].
    apply in_flat_map. exists lag. split; [simpl; lia|].
    rewrite lag_entry_present by (trivial; lia). rewrite Hv. now left. }
  assert (Hge : Qabs v <= Qabs (snd (fst st1))) by (eapply Hdom, Hin).
  assert (Hbl : fst (fst st1) <> 0%Z).
  { destruct Hmoved as [Hz | Hnz]; [|exact Hnz].
    rewrite Hz in Hge. exfalso.
    apply (Qlt_irrefl 0). eapply Qlt_le_trans; [exact Hpos | exact Hge]. }
  change (fold_left f [0%Z] st1) with (f st1 0%Z).
  assert (H2 : fst (f st1 0%Z) = fst st1).
  { unfold f. apply lag_step_keeps. intros v0 Hv0.
    eapply Qle_trans; [apply H0, Hv0 | exact Hge]. }
  apply (fold_left_invariant f (fun st => fst (fst st) <> 0%Z)).
  - intros st l Hl Hst. apply lag_step_away; [|exact Hst].
    simpl in Hl. lia.
  - rewrite H2. exact Hbl.
Qed.

End BestLag.

Section AntiCorrelated.
Variable p_value : list Q -> list Q -> option Q.
Variable spearmanr : list Q -> list Q -> option Q * option Q.
(** [scipy.stats.pearsonr] as the lag loop calls it, with whatever
    coefficients it computes. *)
Variable pearsonr : list Q -> list Q -> option Q * option Q.

(** C2, as the code has it.  For [y = -x] without nulls, on at least 5 rows
    and with [x] not constant, the Pearson r is -1 in exact arithmetic.
    The lag analysis, run with a maximal lag of 5, is unavailable below 10
    rows.  From 10 rows on its profile holds the correlation computed at
    lag 0, and, whatever numbers [pearsonr] computes at the lags: the best
    lag is 0, with the correlation computed there, when that correlation
    is not 0, is strictly stronger than the one computed at every negative
    lag and is at least as strong as the one computed at every positive
    lag; the best lag is not 0 when the correlation computed at some
    negative lag is not 0 and is at least as strong as the one computed
    at lag 0 (the loop replaces the best lag by strict [>] only, so among
    equal [|r|] the earliest lag is kept). *)
Theorem anti_correlated_pair (x : list Q) :
  (5 <= List.length x)%nat ->
  (exists a b, In a x /\ In b x /\ ~ a == b) ->
  let y := map Qopp x in
  let r_at := lag_correlation pearsonr x y in
  (exists p sr sp,
     compute_correlations (ExactStats.pearsonr p_value) spearmanr
       (map Some x) (map Some y)
     = CorrStats (Some (-1)) p sr sp (List.length x)) /\
  ((List.length x < 10)%nat ->
     compute_lagged_correlation pearsonr (map Some x) (map Some y) 5
     = LagUnavailable) /\
  ((10 <= List.length x)%nat ->
   exists best_lag best_corr profile,
     compute_lagged_correlation pearsonr (map Some x) (map Some y) 5
     = LagStats best_lag best_corr profile /\
     In (0%Z, r_at 0%Z) profile /\
     (forall v0, r_at 0%Z = Some v0 -> 0 < Qabs v0 ->
        (forall lag v, (-5 <= lag < 0)%Z -> r_at lag = Some v ->
                       Qabs v < Qabs v0) ->
        (forall lag v, (0 < lag <= 5)%Z -> r_at lag = Some v ->
                       Qabs v <= Qabs v0) ->
        best_lag = 0%Z /\ best_corr = v0) /\
     (forall lag v, (-5 <= lag < 0)%Z -> r_at lag = Some v -> 0 < Qabs v ->
        (forall v0, r_at 0%Z = Some v0 -> Qabs v0 <= Qabs v) ->
        best_lag <> 0%Z)).
Proof.
  intros Hlen [a [b [Ha [Hb Hab]]]] y r_at.
  pose proof (@not_constant_dot x a b Ha Hb Hab) as Hnz.
  pose proof (@pearson_opp x Hnz) as Hr.
  unfold compute_correlations, compute_lagged_correlation.
  subst r_at y.
  rewrite !clean_pairs_some, !combine_opp_fst, !combine_opp_snd.
  set (y := map Qopp x).
  split; [|split].
  - destruct (List.length x <? 5)%nat eqn:E; [apply Nat.ltb_lt in E; lia|].
    unfold ExactStats.pearsonr. unfold y. rewrite Hr.
    destruct (spearmanr x (map Qopp x)) as [sr sp].
    eauto.
  - intro H10.
    destruct (Z.of_nat (List.length x) <? 5 + 5)%Z eqn:E; [reflexivity|].
    apply Z.ltb_ge in E. lia.
  - intros H10.
    destruct (Z.of_nat (List.length x) <? 5 + 5)%Z eqn:E;
      [apply Z.ltb_lt in E; lia|].
    pose proof (lag_loop_profile pearsonr x y (lag_range 5) (0%Z, 0, []))
      as Hprof.
    pose proof (fun v0 => @lag_loop_zero pearsonr x y v0 H10) as Hzero.
    pose proof (fun lag v => @lag_loop_not_zero pearsonr x y lag v H10) as Hnot.
    destruct (fold_left (lag_step pearsonr x y) (lag_range 5) (0%Z, 0, []))
      as [[bl bc] prof].
    cbn [fst snd app] in Hprof, Hzero, Hnot. subst prof.
    exists bl, bc. eexists. split; [reflexivity|]. split; [|split].
    + apply in_flat_map. exists 0%Z. split; [apply lag_range_in; lia|].
      rewrite lag_entry_present by (trivial; lia). now left.
    + intros v0 H0 Hpos Hneg Hlater.
      specialize (Hzero v0 H0 Hpos Hneg Hlater).
      inversion Hzero. now split.
    + intros lag v Hlag Hv Hpos H0. exact (Hnot lag v Hlag Hv Hpos H0).
Qed.

End AntiCorrelated.

Lemma anti_correlated_pair_witness :
  (exists p sr sp,
     compute_correlations (pearsonr (fun _ _ => None)) no_stat
       (map Some Examples.squares) (map Some (map Qopp Examples.squares))
     = CorrStats (Some (-1)) p sr sp 10) /\
  (exists profile,
     compute_lagged_correlation (pearsonr (fun _ _ => None))
       (map Some Examples.squares) (map Some (map Qopp Examples.squares)) 5
     = LagStats 0 (-1) profile /\
     In (0%Z, Some (-1)) profile).
Proof.
  destruct (@anti_correlated_pair (fun _ _ => None) no_stat
              (pearsonr (fun _ _ => None)) Examples.squares)
    as [Hc [_ Hl]].
  - simpl. lia.
  - exists 0, 1. split; [now left|]. split; [right; now left|]. discriminate.
  - split; [exact Hc|].
    destruct Hl as [bl [bc [prof [E [Hin [Hzero _]]]]]]; [simpl; lia|].
    destruct (Hzero (-1)) as [Hbl Hbc].
    + vm_compute. reflexivity.
    + reflexivity.
    + intros lag v Hlag.
      assert (Hcases : lag = (-5)%Z \/ lag = (-4)%Z \/ lag = (-3)%Z \/
                       lag = (-2)%Z \/ lag = (-1)%Z) by lia.
      destruct Hcases as [-> | [-> | [-> | [-> | ->]]]];
        vm_compute; intro H; injection H as <-; reflexivity.
    + intros lag v Hlag.
      assert (Hcases : lag = 1%Z \/ lag = 2%Z \/ lag = 3%Z \/
                       lag = 4%Z \/ lag = 5%Z) by lia.
      destruct Hcases as [-> | [-> | [-> | [-> | ->]]]];
        vm_compute; intro H; injection H as <-; discriminate.
    + subst bl bc. exists prof. split; [exact E|]. exact Hin.
Defined.

(** C2 as the specification words it fails on five rows: the Pearson r
    is -1, and the lag analysis, which the pipeline runs with a maximal lag
    of 5, asks for 10 paired samples and reports no best lag at all. *)
Lemma anti_correlated_five_rows_counterexample :
  (5 <= List.length Examples.five_rows)%nat /\
  DatasetAnalyzer.relationship sqrt6 (pearsonr (fun _ _ => None)) no_stat None
    "x" "y" (map Some Examples.five_rows)
    (map Some (map Qopp Examples.five_rows))
  = Some (DatasetAnalyzer.mkRelationship "x" "y"
            (CorrStats (Some (-1)) None None None 5)
            LagUnavailable StabUnavailable).
Proof.
  split; [simpl; lia | vm_compute; reflexivity].
Qed.

(** On a constant column the coefficient is NaN, not -1. *)
Lemma anti_correlated_constant_column :
  compute_correlations (pearsonr (fun _ _ => None)) no_stat
    (map Some [2; 2; 2; 2; 2]) (map Some (map Qopp [2; 2; 2; 2; 2]))
  = CorrStats None None None None 5.
Proof. vm_compute. reflexivity. Qed.

(** In exact arithmetic a series in equal steps is perfectly correlated
    with its negation at every lag; the earliest lag is then reported,
    not lag 0. *)
Lemma anti_correlated_equal_steps :
  compute_lagged_correlation (pearsonr (fun _ _ => None))
    (map Some Examples.ten_steps) (map Some (map Qopp Examples.ten_steps)) 5
  = LagStats (-5) (-1)
      (map (fun lag => (lag, Some (-1))) (lag_range 5)).
Proof. vm_compute. reflexivity. Qed.

End AntiCorrelationFacts.

(** ** The relationship list *)

Module RelationshipListFacts.
Import Py Np Pd RelationshipAnalyzer DatasetAnalyzer PyFacts.

Lemma in_pairs (A : Type) (l : list A) (a b : A) :
  In (a, b) (pairs l) ->
  exists i j, (i < j)%nat /\ nth_error l i = Some a /\ nth_error l j = Some b.
Proof.
  induction l as [|x l IH]; simpl; [tauto|].
  intro H. apply in_app_or in H. destruct H as [H | H].
  - apply in_map_iff in H. destruct H as [y [E Hy]]. inversion E; subst.
    apply In_nth_error in Hy. destruct Hy as [j Hj].
    exists 0%nat, (S j). split; [lia|]. auto.
  - destruct (IH H) as [i [j [Hij [Hi Hj]]]].
    exists (S i), (S j). split; [lia|]. auto.
Qed.

Lemma nth_error_firstn_some (A : Type) (n i : nat) (l : list A) (a : A) :
  nth_error (firstn n l) i = Some a -> (i < n)%nat /\ nth_error l i = Some a.
Proof.
  revert i l. induction n as [|n IH]; intros i l H.
  - destruct i; discriminate.
  - destruct l as [|x l]; [destruct i; discriminate|].
    destruct i as [|i]; simpl in *; [split; [lia|assumption]|].
    apply IH in H. split; [lia|tauto].
Qed.

Lemma in_firstn (A : Type) (n : nat) (l : list A) (x : A) :
  In x (firstn n l) -> In x l.
Proof.
  revert n. induction l as [|z l IH]; intros [|n]; simpl; try tauto.
  intros [E | H]; [now left | right; eauto].
Qed.

Lemma StronglySorted_firstn (A : Type) (R : A -> A -> Prop) (n : nat) (l : list A) :
  StronglySorted R l -> StronglySorted R (firstn n l).
Proof.
  revert l. induction n as [|n IH]; intros l H; simpl; [constructor|].
  destruct H as [|x l Hs Hall]; [constructor|].
  constructor; [now apply IH|].
  rewrite Forall_forall in *. intros y Hy. apply Hall.
  now apply in_firstn with n.
Qed.

Section WithStatistics.
Variable sqrt : Q -> Q.
Variable pearsonr : list Q -> list Q -> option Q * option Q.
Variable spearmanr : list Q -> list Q -> option Q * option Q.

Lemma compute_correlations_samples (x y : Series) (pr pp sr sp : option Q) (n : nat) :
  compute_correlations pearsonr spearmanr x y = CorrStats pr pp sr sp n ->
  (5 <= n)%nat /\ n = List.length (clean_pairs x y).
Proof.
  unfold compute_correlations. rewrite length_map.
  destruct (List.length (clean_pairs x y) <? 5)%nat eqn:E; [discriminate|].
  apply Nat.ltb_ge in E.
  destruct (pearsonr _ _), (spearmanr _ _). intro H. inversion H; subst. auto.
Qed.

(** A pair enters the list only with an available correlation, which it
    carries. *)
Lemma relationship_some (bs : option (list Cell)) (col_x col_y : string)
  (x y : Series) (r : Relationship) :
  relationship sqrt pearsonr spearmanr bs col_x col_y x y = Some r ->
  var_x r = col_x /\ var_y r = col_y /\
  correlation r = compute_correlations pearsonr spearmanr x y /\
  exists pr pp sr sp n, correlation r = CorrStats pr pp sr sp n /\ (5 <= n)%nat.
Proof.
  unfold relationship.
  destruct (compute_correlations pearsonr spearmanr x y)
    as [|pr pp sr sp n] eqn:E; [discriminate|].
  intro H. inversion H; subst; clear H. simpl.
  repeat split. exists pr, pp, sr, sp, n. split; [reflexivity|].
  now apply compute_correlations_samples in E.
Qed.

Lemma relationship_loop_entries (self : Analyzer) (bs : option (list Cell))
  (ps : list (string * string)) (all : list Relationship) (r : Relationship) :
  relationship_loop sqrt pearsonr spearmanr self bs ps = Some all ->
  In r all ->
  In (var_x r, var_y r) ps /\
  exists pr pp sr sp n, correlation r = CorrStats pr pp sr sp n /\ (5 <= n)%nat.
Proof.
  revert all. induction ps as [|[cx cy] ps IH]; simpl; intros all H Hr.
  - inversion H; subst. destruct Hr.
  - destruct (get (df self) cx) as [colx|]; [|discriminate].
    destruct (get (df self) cy) as [coly|]; [|discriminate].
    destruct (relationship_loop sqrt pearsonr spearmanr self bs ps) as [l|];
      [|discriminate].
    simpl in H. inversion H; subst; clear H.
    destruct (relationship sqrt pearsonr spearmanr bs cx cy _ _) as [r0|] eqn:E.
    + destruct Hr as [<- | Hr].
      * apply relationship_some in E. destruct E as (Ex & Ey & _ & Hc).
        rewrite Ex, Ey. split; [now left | exact Hc].
      * destruct (IH l eq_refl Hr) as [Hin Hc]. split; [now right | exact Hc].
    + destruct (IH l eq_refl Hr) as [Hin Hc]. split; [now right | exact Hc].
Qed.

Lemma sort_nan_sorted (all : list Relationship) :
  (forall r, In r all -> strength r <> None) ->
  StronglySorted stronger_or_equal (sort_nan strength true all).
Proof.
  intro Hnum. unfold sort_nan.
  apply sort_with_desc_sorted with (P := fun r => strength r <> None).
  - intros a b Ha Hb H. unfold stronger_or_equal, nan_ltb in *.
    destruct (strength a), (strength b); try congruence.
    apply ltb_lt in H. now apply Qlt_le_weak.
  - intros a b Ha Hb H. unfold stronger_or_equal, nan_ltb in *.
    destruct (strength a), (strength b); try congruence.
    now apply ltb_ge in H.
  - intros a b c Ha Hb Hc. unfold stronger_or_equal.
    destruct (strength a), (strength b), (strength c); try tauto.
    intros H1 H2. now apply Qle_trans with q0.
  - apply Forall_forall. exact Hnum.
Qed.

(** What holds of the relationship list on every data set: at most 30
    entries; each one a pair [col_x], [col_y] of two of the first 15
    numeric columns, [col_x] before [col_y], with an available base
    correlation on at least 5 paired samples; and, when no retained
    Pearson r is NaN, descending order of [|r|]. *)
Lemma analyze_relationships_shape (self : Analyzer) (rels : list Relationship) :
  _analyze_relationships sqrt pearsonr spearmanr self = Some rels ->
  (List.length rels <= 30)%nat /\
  (forall r, In r rels ->
     (exists i j, (i < j < 15)%nat /\
        nth_error (numeric_cols self) i = Some (var_x r) /\
        nth_error (numeric_cols self) j = Some (var_y r)) /\
     exists pr pp sr sp n,
       correlation r = CorrStats pr pp sr sp n /\ (5 <= n)%nat) /\
  ((forall bs all,
      quality_batch_series self = Some bs ->
      relationship_loop sqrt pearsonr spearmanr self bs
        (pairs (firstn 15 (numeric_cols self))) = Some all ->
      forall r, In r all -> strength r <> None) ->
   StronglySorted stronger_or_equal rels).
Proof.
  unfold _analyze_relationships.
  destruct (List.length (numeric_cols self) <? 2)%nat.
  { intro H. inversion H; subst. simpl.
    split; [lia|]. split; [tauto|]. intros _. constructor. }
  destruct (quality_batch_series self) as [bs|]; [|discriminate].
  destruct (relationship_loop sqrt pearsonr spearmanr self bs
              (pairs (firstn 15 (numeric_cols self)))) as [all|] eqn:El;
    [|discriminate].
  cbn [option_map]. intro H.
  assert (Hrels : rels = firstn 30 (sort_nan strength true all)) by congruence.
  clear H. subst rels.
  split; [apply firstn_le_length|]. split.
  - intros r Hr. apply in_firstn in Hr.
    apply (Permutation_in _ (sort_with_perm _ true all)) in Hr.
    destruct (@relationship_loop_entries self bs _ all r El Hr) as [Hp Hc].
    split; [|exact Hc].
    apply in_pairs in Hp. destruct Hp as [i [j [Hij [Hi Hj]]]].
    apply nth_error_firstn_some in Hi. apply nth_error_firstn_some in Hj.
    exists i, j. split; [lia|tauto].
  - intro Hnum. apply StronglySorted_firstn, sort_nan_sorted.
    now apply (Hnum bs all).
Qed.

End WithStatistics.

(** C6 on a data set with a flatlined column.  The Pearson r of every
    pair with the constant [pH] column is NaN, the pair is kept (its
    correlation is "available"), and the sort, whose comparisons with a
    NaN are all false, leaves the six entries in the order of the loop
    (no entry is smaller than its successor, so Python's sort sees a
    single run): the strongest pair, Biomass and Oxygen, stands fifth,
    behind two weaker pairs and two NaN.  The list is not in descending
    order of [|r|].  (Strengths are those of [ExactStats.pearson]: 1/8 stands for
    [|r| = 0.354], 1/5 for 0.447, 125/128 for 0.988.) *)
Theorem relationships_unsorted_with_constant_column :
  exists rels,
    _analyze_relationships sqrt6 (ExactStats.pearsonr (fun _ _ => None))
      ExactStats.no_stat Examples.probes_analyzer = Some rels /\
    map (fun r => (var_x r, var_y r, strength r)) rels =
      [("Glucose", "Biomass", Some (1 # 8));
       ("Glucose", "pH", None);
       ("Glucose", "Oxygen", Some (1 # 5));
       ("Biomass", "pH", None);
       ("Biomass", "Oxygen", Some (125 # 128));
       ("pH", "Oxygen", None)]%string /\
    ascent_free (fun a b => nan_ltb (strength a) (strength b)) rels /\
    ~ StronglySorted stronger_or_equal rels.
Proof.
  eexists. split; [vm_compute; reflexivity|]. split; [reflexivity|].
  split; [simpl; tauto|].
  intro H. inversion H as [|a l Hs Hall]; subst.
  inversion Hall as [|b l' Hb _]; subst.
  exact Hb.
Qed.

End RelationshipListFacts.

(** ** The trend across batches *)

Module GlobalMetricsFacts.
Import Py Np BatchComparisonAnalyzer GlobalMetricsAnalyzer PyFacts.

Lemma trend_values_length (bm : BatchMetrics) (key : string) (order : list string) :
  List.length (trend_values bm key order) =
  List.length (filter (supplies bm key) order).
Proof.
  induction order as [|b order IH]; simpl; [reflexivity|].
  unfold supplies at 1.
  destruct (dict_get b bm) as [metrics|]; [|exact IH].
  destruct (dict_get key metrics); simpl; now rewrite IH.
Qed.

(** The values are those of the supplying batches, in the order of
    [batch_order]. *)
Lemma trend_values_in_order (bm : BatchMetrics) (key : string) (order : list string) :
  Forall2 (fun b v => exists metrics,
             dict_get b bm = Some metrics /\ dict_get key metrics = Some v)
          (filter (supplies bm key) order) (trend_values bm key order).
Proof.
  induction order as [|b order IH]; simpl; [constructor|].
  unfold supplies at 1.
  destruct (dict_get b bm) as [metrics|] eqn:Eb; [|exact IH].
  destruct (dict_get key metrics) as [v|] eqn:Ek; [|exact IH].
  constructor; [|exact IH]. exists metrics. auto.
Qed.

Lemma classify_cases (r s : option Q) :
  (classify r s = Stable <-> exists v, r = Some v /\ Qabs v < 3 # 10) /\
  (classify r s = Improving <->
     ~ (exists v, r = Some v /\ Qabs v < 3 # 10) /\
     exists v, s = Some v /\ 0 < v) /\
  (classify r s = Degrading <->
     ~ (exists v, r = Some v /\ Qabs v < 3 # 10) /\
     ~ (exists v, s = Some v /\ 0 < v)).
Proof.
  assert (Hr : abs_ltb r (3 # 10) = true <-> exists v, r = Some v /\ Qabs v < 3 # 10).
  { destruct r as [v|]; simpl.
    - rewrite ltb_lt. split; [eauto|]. intros [w [E H]]. now inversion E; subst.
    - split; [discriminate|]. intros [w [E _]]. discriminate. }
  assert (Hs : pos s = true <-> exists v, s = Some v /\ 0 < v).
  { destruct s as [v|]; simpl.
    - rewrite ltb_lt. split; [eauto|]. intros [w [E H]]. now inversion E; subst.
    - split; [discriminate|]. intros [w [E _]]. discriminate. }
  unfold classify.
  destruct (abs_ltb r (3 # 10)) eqn:Er; [|destruct (pos s) eqn:Es].
  - assert (H1 : exists v, r = Some v /\ Qabs v < 3 # 10) by now apply Hr.
    repeat split; try discriminate; tauto.
  - assert (H1 : ~ exists v, r = Some v /\ Qabs v < 3 # 10).
    { intro H. apply Hr in H. discriminate. }
    assert (H2 : exists v, s = Some v /\ 0 < v) by now apply Hs.
    repeat split; try discriminate; tauto.
  - assert (H1 : ~ exists v, r = Some v /\ Qabs v < 3 # 10).
    { intro H. apply Hr in H. discriminate. }
    assert (H2 : ~ exists v, s = Some v /\ 0 < v).
    { intro H. apply Hs in H. discriminate. }
    repeat split; try discriminate; tauto.
Qed.

Section Trend.
Variable linregress : list Q -> Series -> Linregress.
Variable sqrt : Q -> Q.

(** C7.  Let [k] be the number of batches of [batch_order] that supply
    the metric; the values fitted are theirs, in the order of
    [batch_order].  With [k < 3] the trend is unavailable.  With [k >= 3]
    the trend is that of the least-squares fit of the [k] values against
    their positions 0..k-1: stable when [|r| < 0.3], else improving when
    the slope is positive, else degrading. *)
Theorem compute_batch_trend_correct (bm : BatchMetrics) (key : string)
  (order : list string) :
  let values := trend_values bm key order in
  let k := List.length (filter (supplies bm key) order) in
  let lr := linregress (arange k) values in
  Forall2 (fun b v => exists metrics,
             dict_get b bm = Some metrics /\ dict_get key metrics = Some v)
          (filter (supplies bm key) order) values /\
  ((k < 3)%nat ->
     compute_batch_trend linregress sqrt bm key order = TrendUnavailable) /\
  ((3 <= k)%nat ->
     exists trend r2 mean_value std_value,
       compute_batch_trend linregress sqrt bm key order
         = TrendStats trend (slope lr) r2 (p_value lr) mean_value std_value /\
       (trend = Stable <-> exists v, r_value lr = Some v /\ Qabs v < 3 # 10) /\
       (trend = Improving <->
          ~ (exists v, r_value lr = Some v /\ Qabs v < 3 # 10) /\
          exists v, slope lr = Some v /\ 0 < v) /\
       (trend = Degrading <->
          ~ (exists v, r_value lr = Some v /\ Qabs v < 3 # 10) /\
          ~ (exists v, slope lr = Some v /\ 0 < v))).
Proof.
  intros values k lr. subst values k lr.
  split; [apply trend_values_in_order|].
  rewrite <- trend_values_length.
  unfold compute_batch_trend. split.
  - intro H. apply Nat.ltb_lt in H. now rewrite H.
  - intro H. apply Nat.ltb_ge in H. rewrite H.
    eexists. eexists. eexists. eexists. split; [reflexivity|].
    apply classify_cases.
Qed.

End Trend.

Lemma compute_batch_trend_correct_witness :
  compute_batch_trend Examples.linregress sqrt6 Examples.two_batches
    "integrated_value" ["B1"; "B2"]%string = TrendUnavailable /\
  exists trend r2 mean_value std_value,
    compute_batch_trend Examples.linregress sqrt6 Examples.rising
      "integrated_value" ["B1"; "B2"; "B3"; "B4"]%string
    = TrendStats trend (Some (5 # 2)) r2 None mean_value std_value /\
    trend = Improving.
Proof.
  split.
  - apply (compute_batch_trend_correct Examples.linregress sqrt6
             Examples.two_batches "integrated_value" ["B1"; "B2"]%string).
    simpl. lia.
  - destruct (compute_batch_trend_correct Examples.linregress sqrt6
                Examples.rising "integrated_value"
                ["B1"; "B2"; "B3"; "B4"]%string)
      as [_ [_ H]].
    destruct H as (trend & r2 & m & sd & E & _ & Himp & _); [simpl; lia|].
    exists trend, r2, m, sd. split.
    + rewrite E. vm_compute. reflexivity.
    + apply Himp. split.
      * intros [v [Hv Hlt]]. vm_compute in Hv. injection Hv as <-.
        vm_compute in Hlt. discriminate Hlt.
      * eexists. split; [vm_compute; reflexivity|]. reflexivity.
Defined.

(** The three verdicts and the two-batch case on the example batches. *)
Example trend_of_examples :
  (exists s r2 p m sd,
     compute_batch_trend Examples.linregress sqrt6 Examples.rising
       "integrated_value" ["B1"; "B2"; "B3"; "B4"]%string
     = TrendStats Improving s r2 p m sd) /\
  (exists s r2 p m sd,
     compute_batch_trend Examples.linregress sqrt6 Examples.falling
       "integrated_value" ["B1"; "B2"; "B3"]%string
     = TrendStats Degrading s r2 p m sd) /\
  (exists s r2 p m sd,
     compute_batch_trend Examples.linregress sqrt6 Examples.noisy
       "integrated_value" ["B1"; "B2"; "B3"; "B4"; "B5"]%string
     = TrendStats Stable s r2 p m sd) /\
  compute_batch_trend Examples.linregress sqrt6 Examples.two_batches
    "integrated_value" ["B1"; "B2"]%string = TrendUnavailable.
Proof.
  repeat split; try (do 5 eexists; vm_compute; reflexivity).
Qed.

End GlobalMetricsFacts.

(** ** The best batch of a metric *)

Module BestBatchFacts.
Import Py Np BatchComparisonAnalyzer GlobalMetricsAnalyzer PyFacts.
Import BatchComparisonFacts.

Lemma first_maximum_unique (A : Type) (key : A -> Q) (l : list A) (x y : A) :
  first_maximum key l x -> first_maximum key l y -> x = y.
Proof.
  intros (b1 & a1 & E1 & Hb1 & Ha1) (b2 & a2 & E2 & Hb2 & Ha2).
  assert (Hx : nth_error l (List.length b1) = Some x).
  { rewrite E1, nth_error_app2, Nat.sub_diag; [reflexivity|lia]. }
  assert (Hy : nth_error l (List.length b2) = Some y).
  { rewrite E2, nth_error_app2, Nat.sub_diag; [reflexivity|lia]. }
  destruct (Nat.lt_trichotomy (List.length b1) (List.length b2)) as [H | [H | H]].
  - exfalso.
    assert (Hin : In x b2).
    { rewrite E2, nth_error_app1 in Hx by exact H. now apply nth_error_In in Hx. }
    assert (Hin' : In y a1).
    { rewrite E1, nth_error_app2 in Hy by lia.
      destruct (List.length b2 - List.length b1)%nat as [|k] eqn:Ek; [lia|].
      simpl in Hy. now apply nth_error_In in Hy. }
    pose proof (Hb2 _ Hin). pose proof (Ha1 _ Hin'). lra.
  - rewrite H in Hx. congruence.
  - exfalso.
    assert (Hin : In y b1).
    { rewrite E1, nth_error_app1 in Hy by exact H. now apply nth_error_In in Hy. }
    assert (Hin' : In x a2).
    { rewrite E2, nth_error_app2 in Hx by lia.
      destruct (List.length b1 - List.length b2)%nat as [|k] eqn:Ek; [lia|].
      simpl in Hx. now apply nth_error_In in Hx. }
    pose proof (Hb1 _ Hin). pose proof (Ha2 _ Hin'). lra.
Qed.

(** The head of a list sorted by descending key is its first maximum. *)
Lemma sort_desc_head (A : Type) (key : A -> Q) (l : list A) (x : A) (rest : list A) :
  sort key true l = x :: rest -> first_maximum key l x.
Proof.
  revert x rest. induction l as [|a l IH]; intros x rest H; [discriminate|].
  unfold sort, sort_with in H. simpl in H.
  fold (sort_with (fun a b => ltb (key a) (key b)) true l) in H.
  fold (sort key true l) in H.
  destruct (sort key true l) as [|y s] eqn:Es.
  - simpl in H. inversion H; subst.
    assert (l = []).
    { pose proof (sort_length key true l) as Hl. rewrite Es in Hl.
      destruct l; [reflexivity|discriminate]. }
    subst l. exists [], []. repeat split; intros e [].
  - destruct (IH y s eq_refl) as (before & after & E & Hb & Ha).
    simpl in H. destruct (ltb (key a) (key y)) eqn:Elt.
    + injection H as Hx Hr. subst x. apply ltb_lt in Elt.
      exists (a :: before), after. split; [simpl; now rewrite E|].
      split; [|exact Ha]. intros e [<- | He]; auto.
    + injection H as Hx Hr. subst x. apply ltb_ge in Elt.
      exists [], l. split; [reflexivity|]. split; [intros e []|].
      intros e He. rewrite E in He. apply in_app_or in He.
      destruct He as [He | [<- | He]].
      * apply Qle_trans with (key y); [apply Qlt_le_weak; auto | exact Elt].
      * exact Elt.
      * apply Qle_trans with (key y); auto.
Qed.

(** The loop of [best_of] runs over the batches that have the metric. *)
Lemma best_of_collect (bm : BatchMetrics) (metric : string)
  (best : option (string * option Q)) :
  best_of bm metric best = fold_left best_step (collect bm metric) best.
Proof.
  revert best. induction bm as [|[b metrics] bm IH]; intro best; simpl; [reflexivity|].
  destruct (dict_get metric metrics) as [v|]; [|apply IH].
  simpl. destruct best as [[b0 v0]|]; simpl.
  - destruct (nan_ltb v0 v); apply IH.
  - apply IH.
Qed.

(** The loop on values that are numbers. *)
Lemma best_fold_first_maximum (rest before after : list (string * Q)) (x : string * Q) :
  (forall e, In e before -> snd e < snd x) ->
  (forall e, In e after -> snd e <= snd x) ->
  exists y, fold_left best_step (of_numbers rest) (Some (fst x, Some (snd x)))
            = Some (fst y, Some (snd y)) /\
            first_maximum snd (before ++ x :: after ++ rest) y.
Proof.
  revert before after x. induction rest as [|e rest IH]; intros before after x Hb Ha.
  - exists x. split; [reflexivity|]. rewrite app_nil_r. exists before, after. auto.
  - cbn [of_numbers map fold_left]. fold (of_numbers rest).
    destruct x as [b v]. cbn [best_step fst snd nan_ltb] in *.
    destruct (ltb v (snd e)) eqn:E.
    + apply ltb_lt in E.
      destruct (IH (before ++ (b, v) :: after) [] e) as [y [Hy Hm]].
      * intros e' He'. apply in_app_or in He'.
        destruct He' as [He' | [<- | He']].
        -- apply Qlt_trans with v; auto.
        -- exact E.
        -- apply Qle_lt_trans with v; auto.
      * intros e' [].
      * exists y. split; [exact Hy|].
        simpl in Hm. rewrite <- app_assoc in Hm. exact Hm.
    + apply ltb_ge in E.
      destruct (IH before (after ++ [e]) (b, v)) as [y [Hy Hm]].
      * exact Hb.
      * intros e' He'. apply in_app_or in He'.
        destruct He' as [He' | [<- | []]]; auto.
      * exists y. split; [exact Hy|].
        rewrite <- app_assoc in Hm. exact Hm.
Qed.

(** The loop returns one of the entries it has seen. *)
Lemma best_fold_in (rest : list (string * option Q)) (x : string * option Q) :
  exists y, fold_left best_step rest (Some x) = Some y /\ In y (x :: rest).
Proof.
  revert x. induction rest as [|e rest IH]; intro x.
  - exists x. split; [reflexivity | now left].
  - cbn [fold_left best_step]. destruct x as [b v].
    destruct (nan_ltb v (snd e)).
    + destruct (IH e) as [y [Hy Hin]]. exists y. split; [exact Hy|]. now right.
    + destruct (IH (b, v)) as [y [Hy Hin]]. exists y. split; [exact Hy|].
      destruct Hin as [<- | Hin]; [now left | right; now right].
Qed.

(** Nothing replaces a NaN that comes first. *)
Lemma best_fold_nan_first (rest : list (string * option Q)) (b : string) :
  fold_left best_step rest (Some (b, None)) = Some (b, None).
Proof. induction rest as [|e rest IH]; [reflexivity | exact IH]. Qed.

Lemma best_of_cases (bm : BatchMetrics) (metric : string) :
  match best_of bm metric None with
  | Some y =>
      In y (collect bm metric) /\
      (forall es, collect bm metric = of_numbers es ->
         exists v, snd y = Some v /\ first_maximum snd es (fst y, v)) /\
      (forall b rest, collect bm metric = (b, None) :: rest -> y = (b, None))
  | None => collect bm metric = []
  end.
Proof.
  rewrite best_of_collect. destruct (collect bm metric) as [|x rest]; [reflexivity|].
  cbn [fold_left best_step].
  destruct (best_fold_in rest x) as [y [Hy Hin]]. rewrite Hy.
  split; [exact Hin|]. split.
  - intros [|[b v] es] H; [discriminate|].
    cbn [of_numbers map fst snd] in H. fold (of_numbers es) in H.
    injection H as Hx Hr. subst x rest.
    destruct (best_fold_first_maximum es [] [] (b, v)) as [z [Hz Hm]].
    + intros e [].
    + intros e [].
    + cbn [fst snd] in Hz. rewrite Hz in Hy. injection Hy as <-.
      exists (snd z). split; [reflexivity|]. destruct z. exact Hm.
  - intros b rest' H. injection H as Hx Hr. subst x rest.
    rewrite best_fold_nan_first in Hy. congruence.
Qed.

Lemma best_batch_entries (bm : BatchMetrics) (variable : string) (e : BestBatch) :
  In e (compute_best_batch_per_metric bm variable) ->
  In (bb_metric e) metric_keys /\ bb_variable e = variable /\
  bb_score e = 1 /\
  In (best_batch e, bb_value e) (collect bm (bb_metric e)) /\
  (forall es, collect bm (bb_metric e) = of_numbers es ->
     exists v, bb_value e = Some v /\ first_maximum snd es (best_batch e, v)) /\
  (forall b rest, collect bm (bb_metric e) = (b, None) :: rest ->
     best_batch e = b /\ bb_value e = None).
Proof.
  unfold compute_best_batch_per_metric.
  intros He. apply in_flat_map in He. destruct He as [metric [Hm He]].
  pose proof (best_of_cases bm metric) as Hbest.
  destruct (best_of bm metric None) as [[b v]|]; [|destruct He].
  destruct He as [<- | []]. cbn [bb_metric bb_variable bb_score best_batch bb_value].
  destruct Hbest as (H1 & H2 & H3).
  split; [exact Hm|]. split; [reflexivity|]. split; [reflexivity|].
  split; [exact H1|]. split; [exact H2|].
  intros b0 rest H. specialize (H3 b0 rest H). split; congruence.
Qed.

(** X1.  A metric is reported exactly when some batch has it, with one
    of the batches that have it and a score of 1.  When the values of
    the metric are numbers, the reported batch is their first maximum:
    among the batches that have the metric, in dict order, no value is
    greater than the reported one and every earlier value is smaller.
    When the first of the values is NaN, the first batch is reported,
    whatever the others are: no value is greater than a NaN. *)
Theorem best_batch_first_maximum (bm : BatchMetrics) (variable : string) :
  (forall e, In e (compute_best_batch_per_metric bm variable) ->
     In (bb_metric e) metric_keys /\ bb_variable e = variable /\
     bb_score e = 1 /\
     In (best_batch e, bb_value e) (collect bm (bb_metric e)) /\
     (forall es, collect bm (bb_metric e) = of_numbers es ->
        exists v, bb_value e = Some v /\
                  first_maximum snd es (best_batch e, v)) /\
     (forall b rest, collect bm (bb_metric e) = (b, None) :: rest ->
        best_batch e = b /\ bb_value e = None)) /\
  (forall metric, In metric metric_keys -> collect bm metric <> [] ->
     exists e, In e (compute_best_batch_per_metric bm variable) /\
               bb_metric e = metric).
Proof.
  split.
  - intros e He. unfold compute_best_batch_per_metric in He.
    apply in_flat_map in He. destruct He as [metric [Hm He]].
    pose proof (best_of_cases bm metric) as Hbest.
    destruct (best_of bm metric None) as [[b v]|]; [|destruct He].
    destruct He as [<- | []].
    cbn [bb_metric bb_variable bb_score best_batch bb_value].
    destruct Hbest as (H1 & H2 & H3).
    split; [exact Hm|]. split; [reflexivity|]. split; [reflexivity|].
    split; [exact H1|]. split; [exact H2|].
    intros b0 rest H. specialize (H3 b0 rest H). split; congruence.
  - intros metric Hm Hne. unfold compute_best_batch_per_metric.
    pose proof (best_of_cases bm metric) as Hbest.
    destruct (best_of bm metric None) as [[b v]|] eqn:E; [|contradiction].
    exists (mkBestBatch variable metric b v 1). split; [|reflexivity].
    apply in_flat_map. exists metric. split; [exact Hm|].
    rewrite E. now left.
Qed.

(** The first batch of the example holds a NaN and is reported as the
    best, before a batch whose mean rate is 2. *)
Example best_batch_nan_first :
  compute_best_batch_per_metric
    [("B1", [("mean_rate", None)]); ("B2", [("mean_rate", Some 2)])]%string
    "Biomass"
  = [mkBestBatch "Biomass" "mean_rate" "B1" None 1].
Proof. reflexivity. Qed.

(** X2.  On values that are numbers the two rankings agree: the best
    batch of a metric is the batch that [rank_batches] puts at rank 1 for
    that metric, with the same value. *)
Theorem best_batch_is_rank_one (bm : BatchMetrics) (variable : string)
  (e : BestBatch) (es : list (string * Q)) :
  In e (compute_best_batch_per_metric bm variable) ->
  collect bm (bb_metric e) = of_numbers es ->
  exists r rest,
    rank_batches bm (bb_metric e) true = r :: rest /\
    batch_id r = best_batch e /\ value r = bb_value e /\ rank r = 1%nat.
Proof.
  intros He Hnum.
  destruct (@best_batch_entries bm variable e He) as (_ & _ & _ & _ & Hmax & _).
  destruct (Hmax es Hnum) as [v [Hv Hfirst]].
  pose proof (@rank_batches_numbers bm (bb_metric e) true es Hnum) as Hproj.
  pose proof (rank_batches_ranks bm (bb_metric e) true) as Hranks.
  destruct (rank_batches bm (bb_metric e) true) as [|r rest] eqn:Er.
  - exfalso. destruct Hfirst as (before & after & E & _).
    pose proof (sort_length (fun x : string * Q => snd x) true es) as Hlen.
    destruct (sort (fun x : string * Q => snd x) true es); [|discriminate Hproj].
    rewrite E, length_app in Hlen. simpl in Hlen. lia.
  - exists r, rest. split; [reflexivity|].
    destruct (sort (fun x : string * Q => snd x) true es) as [|y s] eqn:Es;
      [discriminate Hproj|].
    apply sort_desc_head in Es.
    pose proof (first_maximum_unique Es Hfirst) as Heq. subst y.
    cbn [map of_numbers fst snd] in Hproj. injection Hproj as Hb Hval _.
    simpl in Hranks. inversion Hranks. rewrite Hv. auto.
Qed.

Lemma best_batch_is_rank_one_witness :
  exists e r rest,
    In e (compute_best_batch_per_metric Examples.rising "Biomass") /\
    bb_metric e = "integrated_value"%string /\
    rank_batches Examples.rising "integrated_value" true = r :: rest /\
    batch_id r = best_batch e /\ value r = bb_value e /\ rank r = 1%nat /\
    best_batch e = "B3"%string.
Proof.
  exists (mkBestBatch "Biomass" "integrated_value" "B3" (Some 15) 1).
  destruct (@best_batch_is_rank_one Examples.rising "Biomass"
              (mkBestBatch "Biomass" "integrated_value" "B3" (Some 15) 1)
              [("B1", 10); ("B2", 12); ("B3", 15)]%string)
    as (r & rest & Hr & Hb & Hv & Hk).
  - right. left. reflexivity.
  - reflexivity.
  - exists r, rest.
    split; [right; left; reflexivity|]. split; [reflexivity|].
    split; [exact Hr|]. split; [exact Hb|]. split; [exact Hv|].
    split; [exact Hk|reflexivity].
Defined.

End BestBatchFacts.

(** ** Outlier batches *)

Module OutlierFacts.
Import Py Np BatchComparisonAnalyzer PyFacts.

Section AscFacts.
Variable A : Type.
Variable key : A -> Q.

Lemma insert_asc_sorted (x : A) (l : list A) :
  StronglySorted (fun a b => key a <= key b) l ->
  StronglySorted (fun a b => key a <= key b)
    (insert_asc (fun a b => ltb (key a) (key b)) x l).
Proof.
  induction 1 as [|y l Hs IH Hall]; simpl.
  - constructor; constructor.
  - destruct (ltb (key y) (key x)) eqn:E.
    + constructor; [exact IH|].
      apply (Permutation_Forall (Permutation_sym (insert_asc_perm _ x l))).
      constructor; [|exact Hall]. apply ltb_lt in E. now apply Qlt_le_weak.
    + apply ltb_ge in E.
      constructor; [constructor; assumption|].
      constructor; [exact E|].
      apply Forall_impl with (2 := Hall). intros z Hz.
      now apply Qle_trans with (key y).
Qed.

Lemma sort_asc_sorted (l : list A) :
  StronglySorted (fun a b => key a <= key b) (sort key false l).
Proof.
  unfold sort, sort_with. induction l as [|x l IH]; simpl.
  - constructor.
  - now apply insert_asc_sorted.
Qed.

End AscFacts.

Lemma sorted_nth_le (s : list Q) (i j : nat) :
  StronglySorted Qle s -> (i <= j < List.length s)%nat ->
  nth i s 0 <= nth j s 0.
Proof.
  intro Hs. revert i j. induction Hs as [|x s Hs IH Hall]; intros i j Hij;
    [simpl in Hij; lia|].
  destruct j as [|j].
  - replace i with 0%nat by lia. apply Qle_refl.
  - destruct i as [|i]; simpl.
    + rewrite Forall_forall in Hall. apply Hall. apply nth_In. simpl in Hij. lia.
    + apply IH. simpl in Hij. lia.
Qed.

(** The position of the interpolation and its neighbours. *)
Lemma quartile_positions (n : nat) :
  (4 <= n)%nat ->
  let h1 := of_nat (n - 1) * 25 / 100 in
  let h3 := of_nat (n - 1) * 75 / 100 in
  let lo1 := Z.to_nat (Qfloor h1) in
  let lo3 := Z.to_nat (Qfloor h3) in
  (lo1 + 1 <= lo3)%nat /\ (lo3 <= n - 1)%nat /\
  0 <= h1 - of_nat lo1 <= 1 /\ 0 <= h3 - of_nat lo3 <= 1.
Proof.
  intros Hn h1 h3 lo1 lo3.
  assert (Hn1 : 3 <= of_nat (n - 1)).
  { change 3 with (of_nat 3). apply of_nat_le. lia. }
  assert (Eh1 : h1 == of_nat (n - 1) * (1 # 4)) by (unfold h1; field).
  assert (Eh3 : h3 == of_nat (n - 1) * (3 # 4)) by (unfold h3; field).
  assert (H1 : 0 <= h1) by lra.
  assert (H3 : 0 <= h3) by lra.
  assert (F1 : (0 <= Qfloor h1)%Z).
  { change 0%Z with (Qfloor 0). now apply Qfloor_resp_le. }
  assert (F3 : (0 <= Qfloor h3)%Z).
  { change 0%Z with (Qfloor 0). now apply Qfloor_resp_le. }
  assert (E1 : of_nat lo1 == inject_Z (Qfloor h1)).
  { unfold lo1, of_nat. now rewrite Z2Nat.id. }
  assert (E3 : of_nat lo3 == inject_Z (Qfloor h3)).
  { unfold lo3, of_nat. now rewrite Z2Nat.id. }
  pose proof (Qfloor_le h1) as L1. pose proof (Qlt_floor h1) as U1.
  pose proof (Qfloor_le h3) as L3. pose proof (Qlt_floor h3) as U3.
  rewrite inject_Z_plus in U1, U3.
  assert (Hlt : inject_Z (Qfloor h1) + (1 # 2) < inject_Z (Qfloor h3)).
  { change (inject_Z 1) with 1 in *. lra. }
  assert (Hz : (Qfloor h1 + 1 <= Qfloor h3)%Z).
  { assert (Hq : inject_Z (Qfloor h1) < inject_Z (Qfloor h3)) by lra.
    rewrite <- Zlt_Qlt in Hq. lia. }
  assert (Hub : (Qfloor h3 <= Z.of_nat (n - 1))%Z).
  { assert (Hq : inject_Z (Qfloor h3) <= inject_Z (Z.of_nat (n - 1))).
    { fold (of_nat (n - 1)). lra. }
    now rewrite <- Zle_Qle in Hq. }
  change (inject_Z 1) with 1 in *.
  repeat split; try (unfold lo1, lo3; lia); try lra.
Qed.

Lemma interpolate_between (a b g : Q) :
  a <= b -> 0 <= g <= 1 -> a <= a + g * (b - a) <= b.
Proof.
  intros Hab [Hg0 Hg1].
  assert (H0 : 0 <= g * (b - a)) by (apply Qmult_le_0_compat; lra).
  assert (H1 : 0 <= (1 - g) * (b - a)) by (apply Qmult_le_0_compat; lra).
  assert (E : (1 - g) * (b - a) == (b - a) - g * (b - a)) by ring.
  rewrite E in H1. clear E.
  set (p := g * (b - a)) in *. split; lra.
Qed.

(** Between the two quartiles of at least four values lies one of the
    values. *)
Lemma quartiles_enclose_a_value (values : list Q) :
  (4 <= List.length values)%nat ->
  exists v, In v values /\
            percentile values 25 <= v /\ v <= percentile values 75.
Proof.
  intro Hn. unfold percentile.
  set (s := sort (fun v : Q => v) false values).
  assert (Hlen : List.length s = List.length values) by apply sort_length.
  assert (Hs : StronglySorted Qle s).
  { apply (sort_asc_sorted (fun v : Q => v)). }
  rewrite Hlen.
  destruct (quartile_positions Hn) as (H13 & H3n & Hg1 & Hg3).
  set (h1 := of_nat (List.length values - 1) * 25 / 100) in *.
  set (h3 := of_nat (List.length values - 1) * 75 / 100) in *.
  set (lo1 := Z.to_nat (Qfloor h1)) in *.
  set (lo3 := Z.to_nat (Qfloor h3)) in *.
  exists (nth (lo1 + 1) s 0). split; [|split].
  - apply (Permutation_in _ (sort_perm (fun v : Q => v) false values)).
    apply nth_In. fold s. lia.
  - replace (Nat.min (lo1 + 1) (List.length values - 1)) with (lo1 + 1)%nat by lia.
    apply interpolate_between; [|exact Hg1].
    apply sorted_nth_le; [exact Hs|lia].
  - apply Qle_trans with (nth lo3 s 0).
    + apply sorted_nth_le; [exact Hs|lia].
    + apply interpolate_between; [|exact Hg3].
      apply sorted_nth_le; [exact Hs|lia].
Qed.

Lemma filter_length_lt (A : Type) (f : A -> bool) (l : list A) (x : A) :
  In x l -> f x = false -> (List.length (filter f l) < List.length l)%nat.
Proof.
  induction l as [|a l IH]; simpl; [tauto|].
  intros [<- | Hx] Hf.
  - rewrite Hf. pose proof (filter_length_le f l). lia.
  - specialize (IH Hx Hf). destruct (f a); simpl; lia.
Qed.

Lemma of_numbers_values (es : list (string * Q)) :
  map snd (of_numbers es) = map Some (map snd es).
Proof. unfold of_numbers. rewrite !map_map. reflexivity. Qed.

Lemma count_na_numbers (l : list Q) : count_na (map Some l) = 0%nat.
Proof. unfold count_na. induction l as [|a l IH]; simpl; auto. Qed.

Lemma dropna_numbers (l : list Q) : dropna (map Some l) = l.
Proof. induction l as [|a l IH]; simpl; congruence. Qed.

Lemma count_na_nan (l : Series) : In None l -> count_na l <> 0%nat.
Proof.
  unfold count_na. induction l as [|[v|] l IH]; simpl; [tauto | | lia].
  intros [H | H]; [discriminate | auto].
Qed.

(** The values of a metric are numbers, or one of them is NaN. *)
Lemma numbers_or_nan (entries : list (string * option Q)) :
  (exists es, entries = of_numbers es) \/ (exists b, In (b, None) entries).
Proof.
  induction entries as [|[b [v|]] entries IH].
  - left. exists []. reflexivity.
  - destruct IH as [[es ->] | [b' H]].
    + left. exists ((b, v) :: es). reflexivity.
    + right. exists b'. now right.
  - right. exists b. now left.
Qed.

Lemma outliers_nan (bm : BatchMetrics) (key : string) (b : string) :
  In (b, None) (collect bm key) -> detect_outlier_batches bm key = [].
Proof.
  intro H. unfold detect_outlier_batches.
  destruct (List.length (map snd (collect bm key)) <? 4)%nat; [reflexivity|].
  assert (Hna : count_na (map snd (collect bm key)) <> 0%nat).
  { apply count_na_nan. apply in_map_iff. exists (b, None). auto. }
  unfold nan_percentile. apply Nat.eqb_neq in Hna. rewrite Hna.
  cbn [nan_sub nan_mul nan_add]. clear.
  induction (collect bm key) as [|[b' v] l IH]; [reflexivity|].
  cbn [filter snd]. destruct v; simpl; exact IH.
Qed.

Lemma fences_numbers (lo hi : Q) (es : list (string * Q)) :
  map fst (filter (fun e => (nan_ltb (snd e) (Some lo)
                             || nan_ltb (Some hi) (snd e))%bool) (of_numbers es))
  = map fst (filter (fun e => (ltb (snd e) lo || ltb hi (snd e))%bool) es).
Proof.
  unfold of_numbers. induction es as [|[b v] es IH]; [reflexivity|].
  simpl. simpl in IH.
  destruct (ltb v lo || ltb hi v)%bool; simpl; now rewrite IH.
Qed.

(** The report on values that are numbers. *)
Lemma outliers_numbers (bm : BatchMetrics) (key : string) (es : list (string * Q)) :
  collect bm key = of_numbers es ->
  (4 <= List.length es)%nat ->
  let q1 := percentile (map snd es) 25 in
  let q3 := percentile (map snd es) 75 in
  detect_outlier_batches bm key
  = map fst (filter (fun e => (ltb (snd e) (q1 - (3 # 2) * (q3 - q1))
                               || ltb (q3 + (3 # 2) * (q3 - q1)) (snd e))%bool) es).
Proof.
  intros H Hn q1 q3. unfold detect_outlier_batches. rewrite H.
  rewrite of_numbers_values, !length_map.
  destruct (List.length es <? 4)%nat eqn:E; [apply Nat.ltb_lt in E; lia|].
  unfold nan_percentile. rewrite count_na_numbers, dropna_numbers.
  cbn [Nat.eqb nan_sub nan_mul nan_add]. fold q1. fold q3.
  apply fences_numbers.
Qed.

(** X3.  Tukey's fences on the batches that have the metric.  Below four
    such batches nothing is reported, and nothing when a value is NaN.
    From four on the report never names every batch: on values that are
    numbers the first quartile is not above the third and one of the
    values lies between them.  Each reported batch has the metric, with
    a value outside the fences. *)
Theorem outliers_never_everyone (bm : BatchMetrics) (key : string) :
  let entries := collect bm key in
  ((List.length entries < 4)%nat -> detect_outlier_batches bm key = []) /\
  ((exists b, In (b, None) entries) -> detect_outlier_batches bm key = []) /\
  ((4 <= List.length entries)%nat ->
     (List.length (detect_outlier_batches bm key) < List.length entries)%nat) /\
  (forall es, entries = of_numbers es ->
     let q1 := percentile (map snd es) 25 in
     let q3 := percentile (map snd es) 75 in
     ((4 <= List.length es)%nat -> q1 <= q3) /\
     (forall b, In b (detect_outlier_batches bm key) ->
        exists v, In (b, v) es /\
          (v < q1 - (3 # 2) * (q3 - q1) \/ q3 + (3 # 2) * (q3 - q1) < v))).
Proof.
  intros entries.
  assert (Hshort : (List.length entries < 4)%nat -> detect_outlier_batches bm key = []).
  { intro H. unfold detect_outlier_batches. fold entries. rewrite length_map.
    apply Nat.ltb_lt in H. now rewrite H. }
  assert (Hnum : forall es, entries = of_numbers es -> (4 <= List.length es)%nat ->
            percentile (map snd es) 25 <= percentile (map snd es) 75 /\
            (List.length (detect_outlier_batches bm key) < List.length es)%nat).
  { intros es Hes Hn.
    destruct (quartiles_enclose_a_value (map snd es)) as (v & Hv & H1 & H3);
      [now rewrite length_map|].
    split; [now apply Qle_trans with v|].
    rewrite (@outliers_numbers bm key es Hes Hn), length_map.
    apply in_map_iff in Hv. destruct Hv as [[b v'] [Ev Hin]]. simpl in Ev. subst v'.
    apply filter_length_lt with (b, v); [exact Hin|]. simpl.
    apply orb_false_iff. split; apply ltb_ge; lra. }
  split; [exact Hshort|].
  split; [intros [b Hb]; exact (@outliers_nan bm key b Hb)|].
  split.
  - intro Hn. destruct (numbers_or_nan entries) as [[es Hes] | [b Hb]].
    + assert (Hl : List.length entries = List.length es)
        by (rewrite Hes; unfold of_numbers; apply length_map).
      rewrite Hl. apply (Hnum es Hes). lia.
    + rewrite (@outliers_nan bm key b Hb). simpl. lia.
  - intros es Hes q1 q3. split; [intro Hn; apply (Hnum es Hes Hn)|].
    intros b Hb.
    destruct (Nat.lt_ge_cases (List.length es) 4) as [Hlt | Hge].
    + rewrite Hshort in Hb; [destruct Hb|].
      rewrite Hes. unfold of_numbers. rewrite length_map. exact Hlt.
    + rewrite (@outliers_numbers bm key es Hes Hge) in Hb.
      apply in_map_iff in Hb. destruct Hb as [[b' v] [Eb Hin]]. simpl in Eb. subst b'.
      apply filter_In in Hin. destruct Hin as [Hin Hf]. simpl in Hf.
      exists v. split; [exact Hin|].
      apply orb_true_iff in Hf. destruct Hf as [Hf | Hf]; apply ltb_lt in Hf; auto.
Qed.

End OutlierFacts.

(** ** Bounds of minimum, maximum and mean *)

Module NpFacts.
Import Py Np PyFacts.

Lemma qmin_le_l (a b : Q) : qmin a b <= a.
Proof.
  unfold qmin. destruct (ltb b a) eqn:E; [|apply Qle_refl].
  apply ltb_lt in E. now apply Qlt_le_weak.
Qed.

Lemma qmin_le_r (a b : Q) : qmin a b <= b.
Proof.
  unfold qmin. destruct (ltb b a) eqn:E; [apply Qle_refl|].
  now apply ltb_ge in E.
Qed.

Lemma qmax_ge_l (a b : Q) : a <= qmax a b.
Proof.
  unfold qmax. destruct (ltb a b) eqn:E; [|apply Qle_refl].
  apply ltb_lt in E. now apply Qlt_le_weak.
Qed.

Lemma qmax_ge_r (a b : Q) : b <= qmax a b.
Proof.
  unfold qmax. destruct (ltb a b) eqn:E; [apply Qle_refl|].
  now apply ltb_ge in E.
Qed.

Lemma qmin_cases (a b : Q) : qmin a b = a \/ qmin a b = b.
Proof. unfold qmin. destruct (ltb b a); auto. Qed.

Lemma qmax_cases (a b : Q) : qmax a b = a \/ qmax a b = b.
Proof. unfold qmax. destruct (ltb a b); auto. Qed.

(** [min_of] and [max_of] bound every element and are elements. *)
Lemma min_of_le (l : list Q) (x : Q) :
  min_of x l <= x /\ forall v, In v l -> min_of x l <= v.
Proof.
  unfold min_of. revert x. induction l as [|a l IH]; intro x; simpl.
  - split; [apply Qle_refl | tauto].
  - destruct (IH (qmin x a)) as [H1 H2]. split.
    + apply Qle_trans with (qmin x a); [exact H1 | apply qmin_le_l].
    + intros v [<- | Hv]; [|now apply H2].
      apply Qle_trans with (qmin x a); [exact H1 | apply qmin_le_r].
Qed.

Lemma max_of_ge (l : list Q) (x : Q) :
  x <= max_of x l /\ forall v, In v l -> v <= max_of x l.
Proof.
  unfold max_of. revert x. induction l as [|a l IH]; intro x; simpl.
  - split; [apply Qle_refl | tauto].
  - destruct (IH (qmax x a)) as [H1 H2]. split.
    + apply Qle_trans with (qmax x a); [apply qmax_ge_l | exact H1].
    + intros v [<- | Hv]; [|now apply H2].
      apply Qle_trans with (qmax x a); [apply qmax_ge_r | exact H1].
Qed.

Lemma min_of_in (l : list Q) (x : Q) : In (min_of x l) (x :: l).
Proof.
  unfold min_of. revert x. induction l as [|a l IH]; intro x; simpl; [auto|].
  destruct (IH (qmin x a)) as [E | H]; [|auto].
  rewrite <- E. destruct (qmin_cases x a) as [-> | ->]; auto.
Qed.

Lemma max_of_in (l : list Q) (x : Q) : In (max_of x l) (x :: l).
Proof.
  unfold max_of. revert x. induction l as [|a l IH]; intro x; simpl; [auto|].
  destruct (IH (qmax x a)) as [E | H]; [|auto].
  rewrite <- E. destruct (qmax_cases x a) as [-> | ->]; auto.
Qed.

(** The sum and the mean between bounds of the elements. *)
Lemma sum_bounds (l : list Q) (lo hi : Q) :
  (forall v, In v l -> lo <= v <= hi) ->
  of_nat (List.length l) * lo <= sum l <= of_nat (List.length l) * hi.
Proof.
  induction l as [|a l IH]; intro H.
  - unfold sum, of_nat. simpl. change (inject_Z 0) with 0.
    rewrite !Qmult_0_l. split; apply Qle_refl.
  - assert (Ha : lo <= a <= hi) by (apply H; now left).
    assert (Hl : forall v, In v l -> lo <= v <= hi) by (intros; apply H; now right).
    specialize (IH Hl).
    assert (E : of_nat (List.length (a :: l)) == of_nat (List.length l) + 1).
    { unfold of_nat. simpl List.length. rewrite Nat2Z.inj_succ, <- Z.add_1_r.
      rewrite inject_Z_plus. reflexivity. }
    assert (Es : sum (a :: l) == a + sum l) by reflexivity.
    rewrite E, Es.
    setoid_replace ((of_nat (List.length l) + 1) * lo)
      with (of_nat (List.length l) * lo + lo) by ring.
    setoid_replace ((of_nat (List.length l) + 1) * hi)
      with (of_nat (List.length l) * hi + hi) by ring.
    set (p := of_nat (List.length l) * lo) in *.
    set (q := of_nat (List.length l) * hi) in *.
    split; lra.
Qed.

Lemma mean_bounds (l : list Q) (lo hi : Q) :
  l <> [] -> (forall v, In v l -> lo <= v <= hi) -> lo <= mean l <= hi.
Proof.
  intros Hne H. pose proof (sum_bounds l H) as [H1 H2].
  assert (Hn : 0 < of_nat (List.length l)).
  { apply of_nat_pos. destruct l; [congruence | simpl; lia]. }
  unfold mean. split.
  - apply Qle_shift_div_l; [exact Hn|]. now rewrite Qmult_comm.
  - apply Qle_shift_div_r; [exact Hn|]. now rewrite Qmult_comm.
Qed.

Lemma mean_between_min_max (x : Q) (l : list Q) :
  min_of x l <= mean (x :: l) <= max_of x l.
Proof.
  apply mean_bounds; [discriminate|].
  destruct (min_of_le l x) as [A1 A2]. destruct (max_of_ge l x) as [B1 B2].
  intros v [<- | Hv]; split; auto.
Qed.

End NpFacts.

(** ** Derivative and growth *)

Module TemporalFacts.
Import Py Np TemporalAnalyzer PyFacts NpFacts.

Lemma np_diff_some (l : list Q) : np_diff (map Some l) = map Some (diff l).
Proof.
  induction l as [|a [|b l] IH]; try reflexivity.
  simpl in *. now rewrite IH.
Qed.

Lemma diff_length (l : list Q) : List.length (diff l) = (List.length l - 1)%nat.
Proof.
  induction l as [|a [|b l] IH]; try reflexivity.
  simpl in *. rewrite IH. lia.
Qed.

Lemma np_diff_length (l : Series) : List.length (np_diff l) = (List.length l - 1)%nat.
Proof.
  induction l as [|a [|b l] IH]; try reflexivity.
  simpl in *. rewrite IH. lia.
Qed.

Lemma derivative_equal_lengths (time values : list Q) :
  List.length time = List.length values ->
  compute_derivative (map Some time) (map Some values) =
  Some (map slope_of (combine (diff values) (diff time))).
Proof.
  intro Hlen. unfold compute_derivative. rewrite length_map.
  destruct (List.length time <? 2)%nat eqn:E.
  - apply Nat.ltb_lt in E.
    destruct time as [|t0 [|t1 time]]; simpl in E; try lia;
      destruct values as [|v0 [|v1 values]]; simpl in Hlen; try lia; reflexivity.
  - rewrite !np_diff_some. unfold broadcast_div, zero_to_nan.
    rewrite !length_map, !diff_length, <- Hlen, Nat.eqb_refl.
    f_equal. rewrite map_map.
    generalize (diff values) (diff time). clear.
    induction l as [|dv l IH]; intros [|dt l']; simpl; try reflexivity.
    rewrite IH. f_equal. unfold slope_of. simpl.
    destruct (Qeq_bool dt 0); reflexivity.
Qed.

Lemma diff_nth_error (l : list Q) (i : nat) (a b : Q) :
  nth_error l i = Some a -> nth_error l (S i) = Some b ->
  nth_error (diff l) i = Some (b - a).
Proof.
  revert i. induction l as [|x [|y l] IH]; intros i Ha Hb.
  - destruct i; discriminate.
  - destruct i as [|[|i]]; discriminate.
  - destruct i as [|i].
    + simpl in Ha, Hb. inversion Ha; inversion Hb; subst. reflexivity.
    + change (diff (x :: y :: l)) with ((y - x) :: diff (y :: l)).
      simpl nth_error. apply IH; assumption.
Qed.

Lemma combine_nth_error (A B : Type) (l : list A) (l' : list B) (i : nat) (a : A) (b : B) :
  nth_error l i = Some a -> nth_error l' i = Some b ->
  nth_error (combine l l') i = Some (a, b).
Proof.
  revert l' i. induction l as [|x l IH]; intros [|y l'] [|i] Ha Hb;
    try discriminate; simpl in *.
  - congruence.
  - now apply IH.
Qed.

(** X4.  On two arrays of the same length without NaN the derivative never
    fails and has one entry less than the arrays; the entry between two
    successive samples is their slope, and NaN when the time repeats. *)
Theorem derivative_entries (time values : list Q) :
  List.length time = List.length values ->
  exists d,
    compute_derivative (map Some time) (map Some values) = Some d /\
    List.length d = (List.length time - 1)%nat /\
    forall i t0 t1 v0 v1,
      nth_error time i = Some t0 -> nth_error time (S i) = Some t1 ->
      nth_error values i = Some v0 -> nth_error values (S i) = Some v1 ->
      nth_error d i =
      Some (if Qeq_bool (t1 - t0) 0 then None
            else Some ((v1 - v0) / (t1 - t0))).
Proof.
  intro Hlen. eexists. split; [now apply derivative_equal_lengths|]. split.
  - rewrite length_map, length_combine, !diff_length. lia.
  - intros i t0 t1 v0 v1 Ht0 Ht1 Hv0 Hv1.
    rewrite nth_error_map.
    rewrite (combine_nth_error _ _ _ (diff_nth_error _ _ Hv0 Hv1)
               (diff_nth_error _ _ Ht0 Ht1)).
    reflexivity.
Qed.

(** X6.  Arrays whose lengths NumPy cannot broadcast make the derivative
    fail: with at least three times, the values must be as many as the
    times, or exactly two. *)
Theorem derivative_length_mismatch (time values : Series) :
  (3 <= List.length time)%nat ->
  List.length values <> List.length time ->
  List.length values <> 2%nat ->
  compute_derivative time values = None.
Proof.
  intros Ht Hne H2. unfold compute_derivative.
  destruct (List.length time <? 2)%nat eqn:E; [apply Nat.ltb_lt in E; lia|].
  unfold broadcast_div, zero_to_nan.
  rewrite length_map, !np_diff_length.
  destruct (List.length values - 1 =? List.length time - 1)%nat eqn:E1;
    [apply Nat.eqb_eq in E1; lia|].
  apply Nat.eqb_neq in E1.
  pose proof (np_diff_length time) as Hdt.
  pose proof (np_diff_length values) as Hdv.
  destruct (np_diff time) as [|x [|y l]]; simpl in Hdt; try lia.
  simpl. destruct (np_diff values) as [|u [|w l']]; simpl in Hdv; try lia; reflexivity.
Qed.

Lemma Qdiv_nonneg (a b : Q) : 0 <= a -> 0 <= b -> 0 <= a / b.
Proof.
  intros Ha Hb. unfold Qdiv. apply Qmult_le_0_compat; [exact Ha|].
  now apply Qinv_le_0_compat.
Qed.

(** [1 - min(1, x)] lies between 0 and 1 when [x] is not negative. *)
Lemma one_minus_min_bounds (x : Q) : 0 <= x -> 0 <= 1 - qmin 1 x <= 1.
Proof.
  intro Hx. pose proof (qmin_le_l 1 x) as H1.
  assert (H0 : 0 <= qmin 1 x).
  { destruct (qmin_cases 1 x) as [-> | ->]; [discriminate | exact Hx]. }
  split; lra.
Qed.

Lemma count_positive_all (l : list Q) :
  Forall (fun d => 0 < d) l -> count_positive (map Some l) = List.length l.
Proof.
  unfold count_positive. induction 1 as [|d l Hd Hl IH]; simpl; [reflexivity|].
  assert (E : ltb 0 d = true) by now apply ltb_lt.
  rewrite E. simpl. now rewrite IH.
Qed.

Lemma count_positive_none (l : list Q) :
  Forall (fun d => d <= 0) l -> count_positive (map Some l) = 0%nat.
Proof.
  unfold count_positive. induction 1 as [|d l Hd Hl IH]; simpl; [reflexivity|].
  assert (E : ltb 0 d = false) by now apply ltb_ge.
  rewrite E. exact IH.
Qed.

Section Growth.
Variable sqrt : Q -> Q.

(** X7.  A series of at least five values that rises at every step is
    growth-like, with monotonicity ratio 1, whatever the times are. *)
Theorem growth_of_rising_series (time values : list Q) :
  (5 <= List.length values)%nat ->
  List.length time = List.length values ->
  Forall (fun d => 0 < d) (diff values) ->
  exists g r,
    compute_growth_metrics sqrt (map Some time) (map Some values) = Some g /\
    is_growth_like g = true /\
    monotonicity_ratio g = Some r /\ r == 1.
Proof.
  intros Hn Hlen Hup. unfold compute_growth_metrics.
  rewrite length_map.
  destruct (List.length values <? 5)%nat eqn:E; [apply Nat.ltb_lt in E; lia|].
  rewrite np_diff_some, count_positive_all by exact Hup.
  rewrite length_map.
  set (n := List.length (diff values)).
  assert (Hpos : 0 < of_nat n).
  { apply of_nat_pos. unfold n. rewrite diff_length. lia. }
  assert (Hr : of_nat n / of_nat n == 1) by (field; lra).
  assert (Hg : ltb (7 # 10) (of_nat n / of_nat n) = true).
  { apply ltb_lt. rewrite Hr. reflexivity. }
  rewrite Hg. simpl negb. cbv iota.
  rewrite (derivative_equal_lengths _ _ Hlen).
  destruct (dropna _) as [|d0 rest]; eexists; eexists;
    (split; [reflexivity|]); simpl; auto.
Qed.

(** X8.  A series that never rises is not growth-like: its ratio is 0. *)
Theorem no_growth_of_falling_series (time values : list Q) :
  (5 <= List.length values)%nat ->
  Forall (fun d => d <= 0) (diff values) ->
  exists r,
    compute_growth_metrics sqrt (map Some time) (map Some values)
    = Some (mkGrowthMetrics false (Some r) None None None None) /\ r == 0.
Proof.
  intros Hn Hdown. unfold compute_growth_metrics.
  rewrite length_map.
  destruct (List.length values <? 5)%nat eqn:E; [apply Nat.ltb_lt in E; lia|].
  rewrite np_diff_some, count_positive_none by exact Hdown.
  rewrite length_map.
  set (n := List.length (diff values)).
  assert (Hr : of_nat 0 / of_nat n == 0).
  { unfold of_nat at 1. simpl. unfold Qdiv. apply Qmult_0_l. }
  assert (Hg : ltb (7 # 10) (of_nat 0 / of_nat n) = false).
  { apply ltb_ge. rewrite Hr. discriminate. }
  rewrite Hg. simpl. eexists. split; [reflexivity|exact Hr].
Qed.

(** X9.  The stability score, when it is reported, lies between 0 and 1
    (for a square root that is never negative). *)
Theorem growth_stability_bounds (time values : Series) (g : GrowthMetrics) (s : Q) :
  (forall q, 0 <= sqrt q) ->
  compute_growth_metrics sqrt time values = Some g ->
  stability_score g = Some s ->
  0 <= s <= 1.
Proof.
  intros Hsqrt. unfold compute_growth_metrics.
  destruct (List.length values <? 5)%nat.
  { intro H. inversion H; subst. discriminate. }
  destruct (negb _).
  { intro H. inversion H; subst. discriminate. }
  destruct (compute_derivative time values) as [d|]; [|discriminate].
  destruct (dropna d) as [|d0 rest].
  { intro H. inversion H; subst. discriminate. }
  set (m := mean (d0 :: rest)). set (sd := std_pop sqrt (d0 :: rest)).
  set (st := if Qeq_bool m 0 then 0 else 1 - qmin 1 (sd / Qabs m)).
  intro H.
  assert (Hg : g = mkGrowthMetrics true
                 (Some (of_nat (count_positive (np_diff values))
                        / of_nat (List.length (np_diff values))))
                 (Some (max_of d0 rest)) (Some m) (Some sd) (Some st))
    by congruence.
  clear H. subst g. cbn [stability_score]. intro Hs.
  assert (Es : s = st) by congruence. subst s. unfold st.
  destruct (Qeq_bool m 0); [split; discriminate|].
  apply one_minus_min_bounds. apply Qdiv_nonneg.
  - apply Hsqrt.
  - apply Qabs_nonneg.
Qed.

End Growth.

Lemma sqrt6_nonneg (q : Q) : 0 <= sqrt6 q.
Proof.
  unfold sqrt6, Qle. cbn [Qnum Qden].
  pose proof (Z.sqrt_nonneg (Qfloor (q * 1000000000000))) as H.
  rewrite Z.mul_1_r. simpl. exact H.
Qed.

Lemma derivative_entries_witness :
  exists d,
    compute_derivative (map Some Examples.repeated_hours)
      (map Some Examples.biomass) = Some d /\
    List.length d = 5%nat /\
    forall i t0 t1 v0 v1,
      nth_error Examples.repeated_hours i = Some t0 ->
      nth_error Examples.repeated_hours (S i) = Some t1 ->
      nth_error Examples.biomass i = Some v0 ->
      nth_error Examples.biomass (S i) = Some v1 ->
      nth_error d i =
      Some (if Qeq_bool (t1 - t0) 0 then None
            else Some ((v1 - v0) / (t1 - t0))).
Proof.
  apply (@derivative_entries Examples.repeated_hours Examples.biomass).
  reflexivity.
Defined.

Lemma derivative_length_mismatch_witness :
  compute_derivative [Some 0; Some 1; Some 2]
    [Some 1; Some 2; Some 4; Some 7; Some 11] = None.
Proof.
  apply derivative_length_mismatch; simpl; lia.
Defined.

Lemma growth_of_rising_series_witness :
  exists g r,
    compute_growth_metrics sqrt6 (map Some Examples.hours)
      (map Some Examples.biomass) = Some g /\
    is_growth_like g = true /\
    monotonicity_ratio g = Some r /\ r == 1.
Proof.
  apply (@growth_of_rising_series sqrt6 Examples.hours Examples.biomass).
  - simpl. lia.
  - reflexivity.
  - simpl. repeat constructor.
Defined.

Lemma no_growth_of_falling_series_witness :
  exists r,
    compute_growth_metrics sqrt6 (map Some Examples.hours)
      (map Some Examples.substrate)
    = Some (mkGrowthMetrics false (Some r) None None None None) /\ r == 0.
Proof.
  apply (@no_growth_of_falling_series sqrt6 Examples.hours Examples.substrate).
  - simpl. lia.
  - simpl. repeat constructor; discriminate.
Defined.

Lemma growth_stability_bounds_witness :
  match compute_growth_metrics sqrt6 (map Some Examples.hours)
          (map Some Examples.biomass) with
  | Some g =>
      match stability_score g with
      | Some s => 0 <= s <= 1
      | None => False
      end
  | None => False
  end.
Proof.
  destruct (compute_growth_metrics sqrt6 (map Some Examples.hours)
              (map Some Examples.biomass)) as [g|] eqn:E.
  - destruct (stability_score g) as [s|] eqn:Es.
    + apply (@growth_stability_bounds sqrt6 (map Some Examples.hours)
               (map Some Examples.biomass) g s sqrt6_nonneg E Es).
    + vm_compute in E. injection E as <-. discriminate Es.
  - vm_compute in E. discriminate E.
Defined.

End TemporalFacts.

(** ** Batch metrics *)

Module BatchMetricsFacts.
Import Py Np TemporalAnalyzer BatchComparisonAnalyzer PyFacts NpFacts TemporalFacts BatchComparisonFacts.

Lemma dropna_length_le (s : Series) :
  (List.length (dropna s) <= List.length s)%nat.
Proof.
  induction s as [|[v|] s IH]; simpl; lia.
Qed.

Section Metrics.
Variable sqrt : Q -> Q.

(** The dict is empty or holds the eight metrics, in this order. *)
Lemma batch_metrics_keys (time : list Q) (values : Series) (m : Metrics) :
  compute_batch_metrics sqrt time values = Some m ->
  (m = [] /\ (List.length (dropna values) < 2 \/ List.length values < 2)%nat) \/
  (map fst m = batch_metric_keys /\ (2 <= List.length (dropna values))%nat).
Proof.
  unfold compute_batch_metrics.
  destruct (List.length values <? 2)%nat eqn:E.
  { apply Nat.ltb_lt in E. intro H. inversion H. left. auto. }
  destruct (dropna values) as [|v0 [|v1 rest]].
  - intro H. inversion H. left. split; [reflexivity|]. left. simpl. lia.
  - intro H. inversion H. left. split; [reflexivity|]. left. simpl. lia.
  - destruct (compute_derivative _ _) as [d|]; [|discriminate].
    intro H. inversion H. right. split; [reflexivity|]. simpl. lia.
Qed.

Lemma last_in (A : Type) (l : list A) (x d : A) : In (last (x :: l) d) (x :: l).
Proof.
  revert x. induction l as [|y l IH]; intro x; [now left|].
  right. apply IH.
Qed.

(** X10.  On arrays of the same length the metrics never fail; they are
    present, all eight, exactly when at least two values are not null. *)
Theorem batch_metrics_all_or_none (time : list Q) (values : Series) :
  List.length time = List.length values ->
  exists m,
    compute_batch_metrics sqrt time values = Some m /\
    ((List.length (dropna values) < 2)%nat -> m = []) /\
    ((2 <= List.length (dropna values))%nat -> map fst m = batch_metric_keys).
Proof.
  intro Hlen.
  assert (Hex : exists m, compute_batch_metrics sqrt time values = Some m).
  { unfold compute_batch_metrics.
    destruct (List.length values <? 2)%nat; [eauto|].
    rewrite Hlen, Nat.eqb_refl.
    destruct (dropna values) as [|v0 [|v1 rest]] eqn:Ed; [eauto | eauto |].
    assert (Hmask : List.length (mask_valid time values)
                    = List.length (dropna values)).
    { clear Ed. revert values Hlen.
      induction time as [|t time IH]; intros [|[v|] values] Hl;
        simpl in *; try discriminate; auto. }
    rewrite <- Ed.
    rewrite (derivative_equal_lengths _ _ Hmask). rewrite Ed. eauto. }
  destruct Hex as [m Hm]. exists m. split; [exact Hm|].
  destruct (batch_metrics_keys _ _ Hm) as [[E H] | [E H]]; split; auto; intro; try lia.
  - subst m. destruct H as [H | H]; [lia|].
    pose proof (dropna_length_le values). lia.
Qed.

(** X11.  Whenever metrics are reported, the final value lies between
    the minimum and the maximum, each of which is a number. *)
Theorem batch_metrics_ordered (time : list Q) (values : Series) (m : Metrics) :
  compute_batch_metrics sqrt time values = Some m -> m <> [] ->
  exists mn mx fi,
    dict_get "min_value" m = Some (Some mn) /\
    dict_get "max_value" m = Some (Some mx) /\
    dict_get "final_value" m = Some (Some fi) /\
    mn <= fi <= mx.
Proof.
  unfold compute_batch_metrics.
  destruct (List.length values <? 2)%nat; [intros H; inversion H; congruence|].
  destruct (dropna values) as [|v0 [|v1 rest]];
    [intros H; inversion H; congruence | intros H; inversion H; congruence |].
  destruct (compute_derivative _ _) as [d|]; [|discriminate].
  intros H _. inversion H; subst; clear H.
  exists (min_of v0 (v1 :: rest)), (max_of v0 (v1 :: rest)),
    (last (v0 :: v1 :: rest) v0).
  split; [reflexivity|]. split; [reflexivity|]. split; [reflexivity|].
  destruct (min_of_le (v1 :: rest) v0) as [A1 A2].
  destruct (max_of_ge (v1 :: rest) v0) as [B1 B2].
  destruct (last_in (v1 :: rest) v0 v0) as [<- | Hin]; split; auto.
Qed.

(** X12.  The rate stability, when it is reported, lies between 0 and 1 (for
    a square root that is never negative). *)
Theorem rate_stability_bounds (time : list Q) (values : Series) (m : Metrics) (rs : Q) :
  (forall q, 0 <= sqrt q) ->
  compute_batch_metrics sqrt time values = Some m ->
  dict_get "rate_stability" m = Some (Some rs) ->
  0 <= rs <= 1.
Proof.
  intro Hsqrt. unfold compute_batch_metrics.
  destruct (List.length values <? 2)%nat; [intros H; inversion H; discriminate|].
  destruct (dropna values) as [|v0 [|v1 rest]];
    [intros H; inversion H; discriminate | intros H; inversion H; discriminate |].
  destruct (compute_derivative _ _) as [d|]; [|discriminate].
  set (vd := if (0 <? List.length d)%nat then dropna d else [0]).
  intros H. 
  set (st := match vd with
             | [] => 0
             | _ :: _ => 1 - qmin 1 (std_pop sqrt vd / (Qabs (mean vd) + (1 # 1000)))
             end) in H.
  intro Hrs.
  assert (E : rs = st).
  { assert (Hm : dict_get "rate_stability" m = Some (Some st)).
    { injection H as <-. reflexivity. }
    congruence. }
  subst rs. unfold st. destruct vd; [split; discriminate|].
  apply one_minus_min_bounds. apply Qdiv_nonneg; [apply Hsqrt|].
  pose proof (Qabs_nonneg (mean (q :: vd))). lra.
Qed.

Lemma dict_get_key (V : Type) (k : string) (m : list (string * V)) :
  In k (map fst m) -> exists v, dict_get k m = Some v.
Proof.
  induction m as [|[k' v] m IH]; simpl; [tauto|].
  intros [-> | H].
  - rewrite String.eqb_refl. eauto.
  - destruct (String.eqb k k'); eauto.
Qed.

(** The batches whose metrics dict is not empty. *)
Lemma collect_full_batches (bm : BatchMetrics) (k : string) :
  Forall (fun e => exists t v, compute_batch_metrics sqrt t v = Some (snd e)) bm ->
  In k batch_metric_keys ->
  map fst (collect bm k) =
  map fst (filter (fun e => negb (0 =? List.length (snd e))%nat) bm).
Proof.
  intros Hall Hk. induction Hall as [|[b m] bm [t [v Hm]] _ IH]; [reflexivity|].
  simpl in Hm. simpl.
  destruct (batch_metrics_keys _ _ Hm) as [[-> _] | [E _]].
  - simpl. exact IH.
  - destruct (@dict_get_key (option Q) k m) as [x ->]; [now rewrite E|].
    destruct m; [discriminate E|]. simpl. now rewrite IH.
Qed.

Lemma rank_batches_ids (bm : BatchMetrics) (k : string) (hib : bool) :
  Permutation (map batch_id (rank_batches bm k hib)) (map fst (collect bm k)).
Proof.
  replace (map batch_id (rank_batches bm k hib))
    with (map fst (map (fun r => (batch_id r, value r)) (rank_batches bm k hib)))
    by (rewrite map_map; reflexivity).
  rewrite rank_batches_proj. apply Permutation_map, sort_nan_perm.
Qed.

(** X14.  When every entry of [batch_metrics] comes from
    [compute_batch_metrics], all metrics rank the same batches: those
    whose metrics dict is not empty. *)
Theorem rankings_share_batches (bm : BatchMetrics) (k1 k2 : string) (h1 h2 : bool) :
  Forall (fun e => exists t v, compute_batch_metrics sqrt t v = Some (snd e)) bm ->
  In k1 batch_metric_keys -> In k2 batch_metric_keys ->
  Permutation (map batch_id (rank_batches bm k1 h1))
              (map fst (filter (fun e => negb (0 =? List.length (snd e))%nat) bm)) /\
  Permutation (map batch_id (rank_batches bm k1 h1))
              (map batch_id (rank_batches bm k2 h2)).
Proof.
  intros Hall H1 H2.
  pose proof (rank_batches_ids bm k1 h1) as P1.
  pose proof (rank_batches_ids bm k2 h2) as P2.
  rewrite (@collect_full_batches bm k1 Hall H1) in P1.
  rewrite (@collect_full_batches bm k2 Hall H2) in P2.
  split; [exact P1|].
  eapply Permutation_trans; [exact P1 | now apply Permutation_sym].
Qed.

End Metrics.

Lemma batch_metrics_all_or_none_witness :
  exists m,
    compute_batch_metrics sqrt6 Examples.hours (map Some Examples.biomass) = Some m /\
    ((List.length (dropna (map Some Examples.biomass)) < 2)%nat -> m = []) /\
    ((2 <= List.length (dropna (map Some Examples.biomass)))%nat ->
     map fst m = batch_metric_keys).
Proof.
  apply (@batch_metrics_all_or_none sqrt6 Examples.hours (map Some Examples.biomass)).
  reflexivity.
Defined.

Lemma batch_metrics_ordered_witness :
  match compute_batch_metrics sqrt6 Examples.hours (map Some Examples.biomass) with
  | Some m =>
      exists mn mx fi,
        dict_get "min_value" m = Some (Some mn) /\
        dict_get "max_value" m = Some (Some mx) /\
        dict_get "final_value" m = Some (Some fi) /\
        mn <= fi <= mx
  | None => False
  end.
Proof.
  destruct (compute_batch_metrics sqrt6 Examples.hours (map Some Examples.biomass))
    as [m|] eqn:E.
  - apply (@batch_metrics_ordered sqrt6 Examples.hours (map Some Examples.biomass) m E).
    vm_compute in E. injection E as <-. discriminate.
  - vm_compute in E. discriminate E.
Defined.

Lemma rate_stability_bounds_witness :
  match compute_batch_metrics sqrt6 Examples.hours (map Some Examples.biomass) with
  | Some m =>
      match dict_get "rate_stability" m with
      | Some (Some rs) => 0 <= rs <= 1
      | _ => False
      end
  | None => False
  end.
Proof.
  destruct (compute_batch_metrics sqrt6 Examples.hours (map Some Examples.biomass))
    as [m|] eqn:E.
  - destruct (dict_get "rate_stability" m) as [[rs|]|] eqn:Ers.
    + apply (@rate_stability_bounds sqrt6 Examples.hours (map Some Examples.biomass)
               m rs sqrt6_nonneg E Ers).
    + vm_compute in E. injection E as <-. discriminate Ers.
    + vm_compute in E. injection E as <-. discriminate Ers.
  - vm_compute in E. discriminate E.
Defined.

Lemma rankings_share_batches_witness :
  Permutation
    (map batch_id (rank_batches Examples.fermentation_metrics "max_value" true))
    (map fst (filter (fun e => negb (0 =? List.length (snd e))%nat)
                Examples.fermentation_metrics)) /\
  Permutation
    (map batch_id (rank_batches Examples.fermentation_metrics "max_value" true))
    (map batch_id (rank_batches Examples.fermentation_metrics "mean_rate" true)).
Proof.
  apply (@rankings_share_batches sqrt6 Examples.fermentation_metrics
           "max_value" "mean_rate" true true).
  - repeat constructor.
    + exists Examples.hours, (map Some Examples.biomass). vm_compute. reflexivity.
    + exists Examples.hours, (map Some Examples.substrate). vm_compute. reflexivity.
    + exists [0], [Some 1]. vm_compute. reflexivity.
  - simpl. tauto.
  - simpl. tauto.
Defined.

End BatchMetricsFacts.

(** ** Density and sampling of a signal *)

Module SignalQualityFacts.
Import Py Np DataQualityAnalyzer PyFacts NpFacts TemporalFacts.

Lemma positive_intervals_pos (time_data : Series) (d : Q) :
  In d (positive_intervals time_data) -> 0 < d.
Proof.
  unfold positive_intervals. intro H. apply filter_In in H.
  apply ltb_lt. apply H.
Qed.

Lemma batch_intervals_pos (time_data : Series) (bc batches : list Pd.Cell) (d : Q) :
  In d (batch_intervals time_data bc batches) -> 0 < d.
Proof.
  induction batches as [|b batches IH]; simpl; [tauto|].
  intro H. apply in_app_or in H. destruct H as [H | H]; [|auto].
  destruct (1 <? _)%nat; [|destruct H].
  eapply positive_intervals_pos, H.
Qed.

Lemma qmax0_bounds (x : Q) : 0 <= x <= 1 -> 0 <= qmax 0 x <= 1.
Proof.
  intros [H0 H1]. destruct (qmax_cases 0 x) as [-> | ->]; split; auto; discriminate.
Qed.

Lemma dropna_map_some (l : list Q) : dropna (map Some l) = l.
Proof. induction l as [|a l IH]; simpl; congruence. Qed.

Section Sampling.
Variable sqrt : Q -> Q.

(** X15.  When sampling statistics are available, the intervals they are
    computed from are positive: the smallest is positive and not above the
    largest, the spread is not negative and the regularity score lies
    between 0 and 1; the sampling is called regular exactly when the score
    exceeds one half. *)
Theorem sampling_stats_bounds (time_series : Series)
  (batch_col : option (list Pd.Cell)) (me sd mn mx reg : Q) (isr : bool) :
  (forall q, 0 <= sqrt q) ->
  compute_sampling_stats sqrt time_series batch_col
    = SamplingStats me sd mn mx reg isr ->
  0 < mn /\ mn <= mx /\ 0 <= sd /\ 0 <= reg <= 1 /\
  (isr = true <-> (1 # 2) < reg).
Proof.
  intro Hsqrt. unfold compute_sampling_stats.
  destruct (all_na time_series || _)%bool; [discriminate|].
  set (intervals := match batch_col with
                    | Some bc => batch_intervals time_series bc (Pd.unique bc)
                    | None => positive_intervals time_series
                    end).
  assert (Hpos : forall d, In d intervals -> 0 < d).
  { intros d. unfold intervals. destruct batch_col.
    - apply batch_intervals_pos.
    - apply positive_intervals_pos. }
  destruct intervals as [|i0 rest]; [discriminate|].
  set (sdv := if (1 <? List.length (i0 :: rest))%nat
              then sqrt (ssd (i0 :: rest) / of_nat (List.length (i0 :: rest) - 1))
              else 0).
  set (cv := if ltb 0 (mean (i0 :: rest)) then sdv / mean (i0 :: rest) else 0).
  intro H.
  assert (E1 : me = mean (i0 :: rest)) by congruence.
  assert (E2 : sd = sdv) by congruence.
  assert (E3 : mn = min_of i0 rest) by congruence.
  assert (E4 : mx = max_of i0 rest) by congruence.
  assert (E5 : reg = qmax 0 (1 - qmin 1 cv)) by congruence.
  assert (E6 : isr = ltb (1 # 2) (qmax 0 (1 - qmin 1 cv))) by congruence.
  clear H. subst.
  assert (Hsd : 0 <= sdv).
  { unfold sdv. destruct (1 <? _)%nat; [apply Hsqrt | discriminate]. }
  assert (Hcv : 0 <= cv).
  { unfold cv. destruct (ltb 0 (mean (i0 :: rest))) eqn:E; [|discriminate].
    apply ltb_lt in E. apply Qdiv_nonneg; [exact Hsd | now apply Qlt_le_weak]. }
  split; [apply Hpos, min_of_in|].
  split.
  { pose proof (mean_between_min_max i0 rest) as [Hlo Hhi].
    eapply Qle_trans; [exact Hlo | exact Hhi]. }
  split; [exact Hsd|].
  split; [apply qmax0_bounds, one_minus_min_bounds, Hcv|].
  split; intro H.
  - now apply ltb_lt.
  - destruct (ltb (1 # 2) (qmax 0 (1 - qmin 1 cv))) eqn:E; [reflexivity|].
    apply ltb_ge in E. lra.
Qed.

End Sampling.

Lemma dropna_length (s : Series) :
  (List.length (dropna s) + count_na s = List.length s)%nat.
Proof.
  unfold count_na. induction s as [|[v|] s IH]; simpl in *; lia.
Qed.

(** [k < a / n * 100] on floats, in whole numbers. *)
Lemma pct_gtb (k a n : nat) :
  (0 < n)%nat ->
  ltb (of_nat k) (of_nat a / of_nat n * 100) = (k * n <? 100 * a)%nat.
Proof.
  intro Hn.
  assert (Hq : 0 < of_nat n) by now apply of_nat_pos.
  set (x := of_nat a / of_nat n * 100).
  assert (Ex : x * of_nat n == inject_Z (Z.of_nat (100 * a))).
  { unfold x. rewrite Nat2Z.inj_mul, inject_Z_mult. unfold of_nat.
    change (inject_Z (Z.of_nat 100)) with 100. field.
    unfold of_nat in Hq. lra. }
  assert (Ek : of_nat k * of_nat n == inject_Z (Z.of_nat (k * n))).
  { unfold of_nat. now rewrite Nat2Z.inj_mul, inject_Z_mult. }
  assert (Hiff : of_nat k < x <-> (k * n < 100 * a)%nat).
  { rewrite <- (Qmult_lt_r _ _ (of_nat n) Hq), Ex, Ek, <- Zlt_Qlt. lia. }
  destruct (ltb (of_nat k) x) eqn:E1; destruct (k * n <? 100 * a)%nat eqn:E2;
    try reflexivity.
  - apply ltb_lt in E1. apply Hiff in E1. apply Nat.ltb_ge in E2. lia.
  - apply ltb_ge in E1. apply Nat.ltb_lt in E2. apply Hiff in E2. lra.
Qed.

(** X17.  The density block of a non-empty column, when it is given the
    column's own missing percentage as in [_analyze_quality]: the missing
    percentage lies between 0 and 100, the density between 0 and 1, and
    the type is decided by counts: sparse above 70 % nulls, intermittent
    above 30 %, offline when more than half of the values present are
    zero, continuous otherwise; it is never "empty". *)
Theorem density_by_counts (series : Series) (pct : Q) :
  compute_missing_percentage series = Some pct ->
  let n := List.length series in
  let na := count_na series in
  let present := List.length (dropna series) in
  let zeros := List.length (filter (fun v => Qeq_bool v 0) (dropna series)) in
  let d := classify_signal_density series (Some pct) in
  0 <= pct <= 100 /\
  0 <= density d <= 1 /\
  match density_type d with
  | Empty => False
  | Sparse => (7 * n < 10 * na)%nat
  | Intermittent => (3 * n < 10 * na <= 7 * n)%nat
  | Offline => (10 * na <= 3 * n /\ present < 2 * zeros)%nat
  | Continuous => (10 * na <= 3 * n /\ 2 * zeros <= present)%nat
  end.
Proof.
  intro Hpct. cbv zeta.
  destruct series as [|c series]; [discriminate|].
  set (s := c :: series) in *.
  assert (Hn : (0 < List.length s)%nat) by (simpl; lia).
  pose proof (dropna_length s) as Hlen.
  assert (Hq : 0 < of_nat (List.length s)) by now apply of_nat_pos.
  assert (Epct : pct = of_nat (count_na s) / of_nat (List.length s) * 100).
  { unfold compute_missing_percentage, s in Hpct. fold s in Hpct. congruence. }
  assert (Hna : 0 <= of_nat (count_na s) <= of_nat (List.length s)).
  { split.
    - unfold of_nat. change 0 with (inject_Z 0). rewrite <- Zle_Qle. lia.
    - apply of_nat_le. lia. }
  assert (Hx : pct * of_nat (List.length s) == 100 * of_nat (count_na s)).
  { rewrite Epct. field. lra. }
  assert (Hrange : 0 <= pct <= 100).
  { split.
    - rewrite Epct. apply Qmult_le_0_compat; [|discriminate].
      apply Qdiv_nonneg; [apply Hna | lra].
    - apply Qnot_lt_le. intro Hc.
      assert (100 * of_nat (List.length s) < pct * of_nat (List.length s))
        by (apply Qmult_lt_r; assumption).
      lra. }
  split; [exact Hrange|].
  unfold classify_signal_density.
  destruct (List.length s =? 0)%nat eqn:E0; [apply Nat.eqb_eq in E0; lia|].
  assert (Hden : 0 <= of_nat (List.length s - count_na s) / of_nat (List.length s)
                 <= 1).
  { assert (Es : of_nat (List.length s - count_na s) / of_nat (List.length s)
                 == 1 - pct / 100).
    { rewrite Epct.
      assert (Es : of_nat (List.length s - count_na s)
                   == of_nat (List.length s) - of_nat (count_na s)).
      { unfold of_nat. rewrite Nat2Z.inj_sub by lia.
        unfold Zminus. rewrite inject_Z_plus, inject_Z_opp. ring. }
      rewrite Es. field. lra. }
    rewrite Es. clear Es Epct Hx.
    assert (Ed : pct / 100 == pct * (1 # 100)) by reflexivity.
    rewrite Ed. lra. }
  unfold nan_gtb.
  change 70 with (of_nat 70). change 30 with (of_nat 30).
  rewrite Epct, !pct_gtb by exact Hn.
  destruct (70 * List.length s <? 100 * count_na s)%nat eqn:E70.
  { cbn [density density_type]. split; [exact Hden|].
    apply Nat.ltb_lt in E70. lia. }
  destruct (30 * List.length s <? 100 * count_na s)%nat eqn:E30.
  { cbn [density density_type]. split; [exact Hden|].
    apply Nat.ltb_lt in E30. apply Nat.ltb_ge in E70. lia. }
  apply Nat.ltb_ge in E70, E30.
  assert (Hp : (0 < List.length (dropna s))%nat) by lia.
  change 50 with (of_nat 50). rewrite pct_gtb by exact Hp.
  destruct (0 <? List.length (dropna s))%nat eqn:Ep;
    [|apply Nat.ltb_ge in Ep; lia].
  cbn [andb].
  destruct (50 * List.length (dropna s) <? 100 * _)%nat eqn:E50;
    cbn [density density_type]; (split; [exact Hden|]).
  - apply Nat.ltb_lt in E50. lia.
  - apply Nat.ltb_ge in E50. lia.
Qed.

Lemma sampling_stats_bounds_witness :
  match compute_sampling_stats sqrt6 (map Some Examples.repeated_hours) None with
  | SamplingStats me sd mn mx reg isr =>
      0 < mn /\ mn <= mx /\ 0 <= sd /\ 0 <= reg <= 1 /\
      (isr = true <-> (1 # 2) < reg)
  | SamplingUnavailable => False
  end.
Proof.
  destruct (compute_sampling_stats sqrt6 (map Some Examples.repeated_hours) None)
    as [|me sd mn mx reg isr] eqn:E.
  - vm_compute in E. discriminate E.
  - apply (@sampling_stats_bounds sqrt6 (map Some Examples.repeated_hours) None
             me sd mn mx reg isr sqrt6_nonneg E).
Defined.

Lemma density_by_counts_witness :
  let series := [Some 0; Some 0; Some 0; Some 5; None] in
  match compute_missing_percentage series with
  | Some pct =>
      0 <= pct <= 100 /\
      0 <= density (classify_signal_density series (Some pct)) <= 1 /\
      match density_type (classify_signal_density series (Some pct)) with
      | Offline => (10 * 1 <= 3 * 5 /\ 4 < 2 * 3)%nat
      | _ => False
      end
  | None => False
  end.
Proof.
  cbv zeta.
  destruct (compute_missing_percentage [Some 0; Some 0; Some 0; Some 5; None])
    as [pct|] eqn:E.
  - pose proof (@density_by_counts [Some 0; Some 0; Some 0; Some 5; None] pct E) as H.
    cbv zeta in H. destruct H as [H1 [H2 H3]].
    split; [exact H1|]. split; [exact H2|].
    destruct (density_type _); try exact H3; simpl in H3; lia.
  - vm_compute in E. discriminate E.
Defined.

End SignalQualityFacts.

(** ** Lag profile and stability of a relationship *)

Module LagProfileFacts.
Import Py Np RelationshipAnalyzer PyFacts NpFacts TemporalFacts RelationshipFacts AntiCorrelationFacts.

Lemma clean_pairs_lengths (x y : Series) :
  List.length (map fst (clean_pairs x y)) = List.length (map snd (clean_pairs x y)).
Proof. now rewrite !length_map. Qed.

Section Lagged.
Variable pearsonr : list Q -> list Q -> option Q * option Q.

(** X18.  The lag analysis is available exactly when at least [max_lag + 5]
    rows hold both values; it then reports every lag from [-max_lag] to
    [max_lag] once, in ascending order. *)
Theorem lag_profile_complete (x y : Series) (max_lag : Z) :
  (0 <= max_lag)%Z ->
  let n := List.length (clean_pairs x y) in
  match compute_lagged_correlation pearsonr x y max_lag with
  | LagUnavailable => (Z.of_nat n < max_lag + 5)%Z
  | LagStats best_lag best_corr profile =>
      (max_lag + 5 <= Z.of_nat n)%Z /\
      map fst profile = lag_range max_lag /\
      List.length profile = Z.to_nat (2 * max_lag + 1)
  end.
Proof.
  intros Hm. cbv zeta. unfold compute_lagged_correlation.
  set (xc := map fst (clean_pairs x y)).
  set (yc := map snd (clean_pairs x y)).
  assert (Hn : List.length xc = List.length (clean_pairs x y))
    by apply length_map.
  rewrite <- Hn.
  destruct (Z.of_nat (List.length xc) <? max_lag + 5)%Z eqn:E.
  { apply Z.ltb_lt in E. exact E. }
  apply Z.ltb_ge in E.
  pose proof (lag_loop_profile pearsonr xc yc (lag_range max_lag) (0%Z, 0, [])) as Hp.
  destruct (fold_left (lag_step pearsonr xc yc) (lag_range max_lag) (0%Z, 0, []))
    as [[bl bc] prof].
  cbn [snd app] in Hp. subst prof.
  split; [exact E|].
  assert (Hall : forall lags, (forall l, In l lags -> (- max_lag <= l <= max_lag)%Z) ->
            map fst (flat_map (lag_entry pearsonr xc yc) lags) = lags).
  { induction lags as [|l lags IH]; intro H; [reflexivity|].
    cbn [flat_map]. rewrite map_app, IH by (intros; apply H; now right).
    unfold lag_entry.
    pose proof (shift_length xc yc l) as Hs.
    destruct (shift xc yc l) as [xs ys]. cbn [fst] in Hs.
    assert (- max_lag <= l <= max_lag)%Z by (apply H; now left).
    destruct (List.length xs <? 5)%nat eqn:E5; [apply Nat.ltb_lt in E5; lia|].
    reflexivity. }
  assert (Hmap : map fst (flat_map (lag_entry pearsonr xc yc) (lag_range max_lag))
                 = lag_range max_lag).
  { apply Hall. intros l Hl. now apply lag_range_in. }
  split; [exact Hmap|].
  rewrite <- (length_map fst), Hmap. unfold lag_range.
  now rewrite length_map, length_seq.
Qed.

Lemma lag_step_best (x y : list Q) (st : LagState) (lag : Z) :
  best_so_far st -> best_so_far (lag_step pearsonr x y st lag).
Proof.
  destruct st as [[bl bc] prof]. unfold lag_step.
  destruct (shift x y lag) as [xs ys].
  destruct (List.length xs <? 5)%nat; [tauto|].
  intros [Hmax Hfirst].
  destruct (fst (pearsonr xs ys)) as [v|].
  - unfold abs_gtb. destruct (ltb (Qabs bc) (Qabs v)) eqn:E.
    + apply ltb_lt in E. split.
      * intros l r Hin. apply in_app_or in Hin. destruct Hin as [Hin | [Hin | []]].
        -- apply Qlt_le_weak. eapply Qle_lt_trans; [eapply Hmax, Hin | exact E].
        -- inversion Hin. apply Qle_refl.
      * right. split.
        { eapply Qle_lt_trans; [apply Qabs_nonneg | exact E]. }
        exists prof, []. split; [reflexivity|].
        intros l r Hin. eapply Qle_lt_trans; [eapply Hmax, Hin | exact E].
    + apply ltb_ge in E. split.
      * intros l r Hin. apply in_app_or in Hin. destruct Hin as [Hin | [Hin | []]].
        -- eapply Hmax, Hin.
        -- inversion Hin. subst. exact E.
      * destruct Hfirst as [H0 | [Hpos [before [after [Hp Hb]]]]]; [now left|].
        right. split; [exact Hpos|].
        exists before, (after ++ [(lag, Some v)]). split; [|exact Hb].
        rewrite Hp, <- app_assoc. reflexivity.
  - split.
    + intros l r Hin. apply in_app_or in Hin. destruct Hin as [Hin | [Hin | []]].
      * eapply Hmax, Hin.
      * discriminate Hin.
    + destruct Hfirst as [H0 | [Hpos [before [after [Hp Hb]]]]]; [now left|].
      right. split; [exact Hpos|].
      exists before, (after ++ [(lag, None)]). split; [|exact Hb].
      rewrite Hp, <- app_assoc. reflexivity.
Qed.

(** X19.  No entry of the lag profile is stronger than the best correlation;
    either the answer is still the initial one, lag 0 with correlation 0,
    or the best correlation is not 0 and the best lag is the first entry
    of the profile of that strength.  So when every entry of the profile
    is 0 or NaN the answer is lag 0 with correlation 0. *)
Theorem best_lag_first_strongest (x y : Series) (max_lag : Z)
  (best_lag : Z) (best_corr : Q) (profile : list (Z * option Q)) :
  compute_lagged_correlation pearsonr x y max_lag
    = LagStats best_lag best_corr profile ->
  (forall lag r, In (lag, Some r) profile -> Qabs r <= Qabs best_corr) /\
  ((best_lag = 0%Z /\ best_corr = 0) \/
   (0 < Qabs best_corr /\
    exists before after,
      profile = before ++ (best_lag, Some best_corr) :: after /\
      forall lag r, In (lag, Some r) before -> Qabs r < Qabs best_corr)) /\
  ((forall lag r, In (lag, Some r) profile -> r == 0) ->
   best_lag = 0%Z /\ best_corr = 0).
Proof.
  unfold compute_lagged_correlation.
  set (xc := map fst (clean_pairs x y)).
  set (yc := map snd (clean_pairs x y)).
  destruct (Z.of_nat (List.length xc) <? max_lag + 5)%Z; [discriminate|].
  assert (H : best_so_far (fold_left (lag_step pearsonr xc yc)
                             (lag_range max_lag) (0%Z, 0, []))).
  { apply fold_left_invariant.
    - intros st lag _. apply lag_step_best.
    - split; [intros l r []|]. now left. }
  destruct (fold_left (lag_step pearsonr xc yc) (lag_range max_lag) (0%Z, 0, []))
    as [[bl bc] prof].
  intro E. assert (bl = best_lag) by congruence.
  assert (bc = best_corr) by congruence. assert (prof = profile) by congruence.
  subst. destruct H as [Hmax Hfirst]. split; [exact Hmax|]. split; [exact Hfirst|].
  intros Hzero. destruct Hfirst as [H0 | [Hpos [before [after [Hp _]]]]]; [exact H0|].
  exfalso. assert (Hz : best_corr == 0).
  { apply (Hzero best_lag). rewrite Hp. apply in_or_app. right. now left. }
  rewrite Hz in Hpos. discriminate Hpos.
Qed.

End Lagged.

Section Stability.
Variable sqrt : Q -> Q.

(** X20.  The consistency score lies between 0 and 1, the relationship is
    called stable exactly when it exceeds 0.7, and correlations that are
    all NaN give consistency 0. *)
Theorem stability_consistency_bounds (corrs : Series)
  (m s : option Q) (c : Q) (stable : bool) :
  (forall q, 0 <= sqrt q) ->
  compute_relationship_stability sqrt corrs = StabStats m s c stable ->
  0 <= c <= 1 /\
  (stable = true <-> (7 # 10) < c) /\
  (dropna corrs = [] -> m = None /\ s = None /\ c == 0 /\ stable = false).
Proof.
  intros Hsqrt. unfold compute_relationship_stability.
  destruct (List.length corrs <? 2)%nat; [discriminate|].
  unfold nanmean, nanstd.
  destruct (dropna corrs) as [|d0 rest] eqn:Ed.
  - cbn [one_minus_min1]. intro H.
    assert (c = 1 - 1) by congruence. assert (stable = ltb (7 # 10) (1 - 1)) by congruence.
    assert (m = None) by congruence. assert (s = None) by congruence. subst.
    split; [split; discriminate|]. split; [split; discriminate|]. intros _.
    repeat split; reflexivity.
  - cbn [one_minus_min1].
    set (ratio := std_pop sqrt (d0 :: rest) / (Qabs (mean (d0 :: rest)) + (1 # 100))).
    intro H.
    assert (Ec : c = 1 - qmin 1 ratio) by congruence.
    assert (Es : stable = ltb (7 # 10) (1 - qmin 1 ratio)) by congruence.
    clear H. subst.
    split.
    { apply one_minus_min_bounds. apply Qdiv_nonneg; [apply Hsqrt|].
      pose proof (Qabs_nonneg (mean (d0 :: rest))). lra. }
    split; [|discriminate].
    split; intro H.
    + now apply ltb_lt.
    + destruct (ltb (7 # 10) (1 - qmin 1 ratio)) eqn:E; [reflexivity|].
      apply ltb_ge in E. lra.
Qed.

End Stability.

Lemma lag_profile_complete_witness :
  match compute_lagged_correlation (ExactStats.pearsonr (fun _ _ => None))
          Examples.feed Examples.yield 3 with
  | LagUnavailable =>
      (Z.of_nat (List.length (clean_pairs Examples.feed Examples.yield)) < 3 + 5)%Z
  | LagStats best_lag best_corr profile =>
      (3 + 5 <= Z.of_nat (List.length (clean_pairs Examples.feed Examples.yield)))%Z /\
      map fst profile = lag_range 3 /\
      List.length profile = Z.to_nat (2 * 3 + 1)
  end.
Proof.
  apply (@lag_profile_complete (ExactStats.pearsonr (fun _ _ => None))
           Examples.feed Examples.yield 3).
  lia.
Defined.

Lemma best_lag_first_strongest_witness :
  match compute_lagged_correlation (ExactStats.pearsonr (fun _ _ => None))
          Examples.feed Examples.yield 3 with
  | LagUnavailable => False
  | LagStats best_lag best_corr profile =>
      (forall lag r, In (lag, Some r) profile -> Qabs r <= Qabs best_corr) /\
      ((best_lag = 0%Z /\ best_corr = 0) \/
       (0 < Qabs best_corr /\
        exists before after,
          profile = before ++ (best_lag, Some best_corr) :: after /\
          forall lag r, In (lag, Some r) before -> Qabs r < Qabs best_corr)) /\
      ((forall lag r, In (lag, Some r) profile -> r == 0) ->
       best_lag = 0%Z /\ best_corr = 0)
  end.
Proof.
  destruct (compute_lagged_correlation (ExactStats.pearsonr (fun _ _ => None))
              Examples.feed Examples.yield 3) as [|bl bc prof] eqn:E.
  - vm_compute in E. discriminate E.
  - apply (@best_lag_first_strongest (ExactStats.pearsonr (fun _ _ => None))
             Examples.feed Examples.yield 3 bl bc prof E).
Defined.

Lemma stability_consistency_bounds_witness :
  match compute_relationship_stability sqrt6 [Some (9 # 10); None; Some (8 # 10)] with
  | StabUnavailable => False
  | StabStats m s c stable =>
      0 <= c <= 1 /\
      (stable = true <-> (7 # 10) < c) /\
      (dropna [Some (9 # 10); None; Some (8 # 10)] = [] ->
       m = None /\ s = None /\ c == 0 /\ stable = false)
  end.
Proof.
  destruct (compute_relationship_stability sqrt6 [Some (9 # 10); None; Some (8 # 10)])
    as [|m s c stable] eqn:E.
  - vm_compute in E. discriminate E.
  - apply (@stability_consistency_bounds sqrt6 [Some (9 # 10); None; Some (8 # 10)]
             m s c stable sqrt6_nonneg E).
Defined.

End LagProfileFacts.

(** ** Overall quality score *)

Module OverallQualityFacts.
Import Py Np Pd DataQualityAnalyzer DatasetAnalyzer PyFacts NpFacts.

Lemma clamp_inactive (s : Q) : 0 <= s <= 100 -> qmax 0 (qmin 100 s) == s.
Proof.
  intros [H0 H1].
  destruct (qmin_cases 100 s) as [E | E]; rewrite E.
  - unfold qmin in E. destruct (ltb s 100) eqn:Es.
    + apply ltb_lt in Es. rewrite <- E in Es at 1. lra.
    + apply ltb_ge in Es. unfold qmax. simpl. lra.
  - destruct (qmax_cases 0 s) as [E' | E']; rewrite E'; [|reflexivity].
    unfold qmax in E'. destruct (ltb 0 s) eqn:Es.
    + rewrite E'. reflexivity.
    + apply ltb_ge in Es. lra.
Qed.

Lemma flatline_penalty_bounds (n : nat) :
  0 <= 3 * of_nat (Nat.min n 5) <= 15.
Proof.
  assert (H : 0 <= of_nat (Nat.min n 5) <= 5).
  { split.
    - unfold of_nat. change 0 with (inject_Z 0). rewrite <- Zle_Qle. lia.
    - change 5 with (of_nat 5). apply of_nat_le. lia. }
  lra.
Qed.

(** X21.  The overall score of a non-empty quality report is 100 minus the
    penalties of the flags raised, it never falls below 55, so that the
    final clamp to the range from 0 to 100 never acts, and the flag
    [no_data] is not raised. *)
Theorem overall_quality_score (variable_qualities : list VariableQuality) :
  variable_qualities <> [] ->
  let overall := _compute_overall_quality variable_qualities in
  score overall == 100 - sum (map penalty (flags overall)) /\
  55 <= score overall <= 100 /\
  ~ In no_data (flags overall).
Proof.
  intro Hne. cbv zeta.
  destruct variable_qualities as [|first rest]; [congruence|].
  unfold _compute_overall_quality.
  set (vq := first :: rest).
  set (fc := List.length (filter (fun v => is_flatlined (flatline v)) vq)).
  set (oc := List.length (filter (fun v => is_offline (q_density v)) vq)).
  pose proof (flatline_penalty_bounds fc) as Hfc.
  set (pf := 3 * of_nat (Nat.min fc 5)) in *.
  destruct (nan_gtb (np_mean (map missing_pct vq)) 20);
    [|destruct (nan_gtb (np_mean (map missing_pct vq)) 5)];
    destruct (irregular (sampling first));
    destruct (0 <? fc)%nat; destruct (0 <? oc)%nat;
    cbn [score flags app map penalty sum fold_right]; fold pf;
    (split; [rewrite clamp_inactive by lra; ring|]);
    (split; [split; rewrite clamp_inactive by lra; lra|]);
    cbn [In]; intuition discriminate.
Qed.

Lemma overall_quality_score_witness :
  match _analyze_quality parse_digits sqrt6 Examples.fermentation_analyzer with
  | Some variable_qualities =>
      let overall := _compute_overall_quality variable_qualities in
      score overall == 100 - sum (map penalty (flags overall)) /\
      55 <= score overall <= 100 /\
      ~ In no_data (flags overall)
  | None => False
  end.
Proof.
  destruct (_analyze_quality parse_digits sqrt6 Examples.fermentation_analyzer)
    as [vq|] eqn:E.
  - apply (@overall_quality_score vq).
    vm_compute in E. injection E as <-. discriminate.
  - vm_compute in E. discriminate E.
Defined.

End OverallQualityFacts.

(** ** Phases of a signal *)

Module PhaseFacts.
Import Py Np TemporalAnalyzer PyFacts NpFacts.

Lemma phase_eqb_eq (a b : PhaseType) : phase_eqb a b = true <-> a = b.
Proof. destruct a, b; simpl; split; congruence. Qed.

Lemma StronglySorted_snoc (A : Type) (R : A -> A -> Prop) (l : list A) (x : A) :
  StronglySorted R l -> (forall y, In y l -> R y x) -> StronglySorted R (l ++ [x]).
Proof.
  induction 1 as [|a l Hs IH Ha]; intro Hx; simpl.
  - constructor; constructor.
  - constructor.
    + apply IH. intros y Hy. apply Hx. now right.
    + apply Forall_app. split; [exact Ha|].
      constructor; [|constructor]. apply Hx. now left.
Qed.

Section Phases.
Variables time derivative : list Q.
Variable min_phase_length : nat.
Variable threshold : Q.

Lemma phase_step_invariant (k : nat) (d : Q) (st : PhaseState) :
  nth_error derivative k = Some d ->
  phases_so_far derivative threshold min_phase_length k st ->
  phases_so_far derivative threshold min_phase_length (S k)
    (phase_step time derivative min_phase_length threshold st (k, d)).
Proof.
  intros Hk. destruct st as [[phases cur] ps]. unfold phase_step.
  intros [Hsound [Hsorted [Hend Hcur]]].
  destruct (phase_changes cur (classify_rate threshold d)) eqn:Ech.
  - destruct cur as [c|].
    + destruct Hcur as [Hps [Hsame Hleft]].
      assert (Hne : classify_rate threshold d <> c).
      { intro E. unfold phase_changes in Ech.
        apply phase_eqb_eq in E. rewrite E in Ech. discriminate. }
      assert (Hnew : (ps < S k)%nat /\ True) by (split; [lia | exact I]).
      destruct (min_phase_length <=? k - ps)%nat eqn:Elen.
      * apply Nat.leb_le in Elen.
        split; [|split; [|split]].
        -- apply Forall_app. split; [exact Hsound|]. constructor; [|constructor].
           unfold phase_sound, closed_phase. cbn [start_index end_index phase_type].
           split; [lia|]. split.
           { split; [lia|]. assert (k < List.length derivative)%nat
               by (apply nth_error_Some; congruence). lia. }
           split; [intros i e Hi; apply Hsame; lia|].
           split; [exact Hleft|].
           replace (k - 1 + 1)%nat with k by lia.
           intros e He. assert (e = d) by congruence. subst. exact Hne.
        -- apply StronglySorted_snoc; [exact Hsorted|].
           intros q Hq. unfold phase_before, closed_phase. cbn [start_index].
           now apply Hend.
        -- intros q Hq. apply in_app_or in Hq. destruct Hq as [Hq | [<- | []]].
           ++ specialize (Hend q Hq). lia.
           ++ unfold closed_phase. cbn [end_index]. lia.
        -- split; [lia|]. split.
           ++ intros i e Hi He. assert (i = k) by lia. subst. congruence.
           ++ intros e _ He. intro E. 
              assert (classify_rate threshold e = c) by (apply (Hsame (k - 1)%nat); [lia | exact He]).
              congruence.
      * split; [exact Hsound|]. split; [exact Hsorted|]. split.
        -- intros q Hq. specialize (Hend q Hq). lia.
        -- split; [lia|]. split.
           ++ intros i e Hi He. assert (i = k) by lia. subst. congruence.
           ++ intros e _ He. intro E.
              assert (classify_rate threshold e = c) by (apply (Hsame (k - 1)%nat); [lia | exact He]).
              congruence.
    + destruct Hcur as [-> ->]. split; [exact Hsound|]. split; [exact Hsorted|]. split.
      * intros q [].
      * split; [lia|]. split.
        -- intros i e Hi He. assert (i = 0%nat) by lia. subst. congruence.
        -- intros e He. lia.
  - destruct cur as [c|]; [|discriminate Ech].
    unfold phase_changes in Ech. apply negb_false_iff, phase_eqb_eq in Ech.
    destruct Hcur as [Hps [Hsame Hleft]].
    split; [exact Hsound|]. split; [exact Hsorted|]. split; [exact Hend|].
    split; [lia|]. split; [|exact Hleft].
    intros i e Hi He. destruct (Nat.eq_dec i k) as [-> | Hik].
    + congruence.
    + apply (Hsame i); [lia | exact He].
Qed.

Lemma phase_loop_invariant (suf pre : list Q) (st : PhaseState) :
  derivative = pre ++ suf ->
  phases_so_far derivative threshold min_phase_length (List.length pre) st ->
  phases_so_far derivative threshold min_phase_length (List.length derivative)
    (fold_left (phase_step time derivative min_phase_length threshold)
               (enumerate_from (List.length pre) suf) st).
Proof.
  revert pre st. induction suf as [|d suf IH]; intros pre st Hd Hinv.
  - simpl.
    assert (E : List.length derivative = List.length pre)
      by (rewrite Hd, app_nil_r; reflexivity).
    rewrite E. exact Hinv.
  - simpl. 
    replace (S (List.length pre)) with (List.length (pre ++ [d]))
      by (rewrite length_app; simpl; lia).
    apply IH.
    + rewrite <- app_assoc. exact Hd.
    + rewrite length_app. simpl. rewrite Nat.add_1_r.
      apply phase_step_invariant; [|exact Hinv].
      transitivity (nth_error (pre ++ d :: suf) (List.length pre));
        [now rewrite <- Hd|].
      rewrite nth_error_app2 by lia. now rewrite Nat.sub_diag.
Qed.

End Phases.

Section Segment.
Variable uniform_filter1d : list Q -> nat -> list Q.
Variable gradient : list Q -> option (list Q).
Variable sqrt : Q -> Q.

(** X22.  The phases [segment_phases] reports are runs of one type of the
    derivative of the smoothed signal: each is at least
    [min_phase_length] samples long, all its samples have its type, the
    samples next to it have another type, and the phases follow each
    other without overlap. *)
Theorem segment_phases_sound (time values : list Q) (min_phase_length : nat)
  (phases : list Phase) :
  segment_phases uniform_filter1d gradient sqrt time values min_phase_length
    = Some phases ->
  phases = [] \/
  exists derivative,
    gradient (uniform_filter1d values (Nat.max 3 (List.length values / 20)))
      = Some derivative /\
    Forall (phase_sound derivative (std_pop sqrt derivative * (1 # 2))
              min_phase_length) phases /\
    StronglySorted phase_before phases.
Proof.
  unfold segment_phases.
  destruct (List.length values <? min_phase_length * 2)%nat;
    [intro H; left; congruence|].
  destruct (gradient _) as [derivative|]; [|discriminate].
  set (threshold := std_pop sqrt derivative * (1 # 2)).
  pose proof (@phase_loop_invariant time derivative min_phase_length threshold
                derivative [] ([], None, 0%nat) eq_refl) as Hinv.
  unfold enumerate.
  change (List.length (@nil Q)) with 0%nat in Hinv.
  destruct (fold_left _ _ _) as [[ps cur] start].
  assert (H0 : phases_so_far derivative threshold min_phase_length 0 ([], None, 0%nat)).
  { split; [constructor|]. split; [constructor|]. split; [intros p []|split; reflexivity]. }
  specialize (Hinv H0). destruct Hinv as [Hsound [Hsorted [Hend Hcur]]].
  intro H. right. exists derivative. split; [reflexivity|].
  destruct cur as [c|].
  - destruct Hcur as [Hps [Hsame Hleft]].
    destruct (min_phase_length <=? List.length derivative - start)%nat eqn:Elen.
    + destruct time as [|t0 time']; [discriminate|].
      injection H as <-. apply Nat.leb_le in Elen. split.
      * apply Forall_app. split; [exact Hsound|]. constructor; [|constructor].
        unfold phase_sound, last_phase. cbn [start_index end_index phase_type].
        split; [lia|]. split; [lia|].
        split.
        { intros i e Hi He. apply (Hsame i); [|exact He].
          assert (i < List.length derivative)%nat by (apply nth_error_Some; congruence).
          lia. }
        split; [exact Hleft|].
        intros e He.
        assert (List.length derivative - 1 + 1 < List.length derivative)%nat
          by (apply nth_error_Some; congruence).
        lia.
      * apply StronglySorted_snoc; [exact Hsorted|].
        intros q Hq. unfold phase_before, last_phase. cbn [start_index].
        now apply Hend.
    + injection H as <-. split; assumption.
  - injection H as <-. split; assumption.
Qed.

End Segment.

Lemma segment_phases_sound_witness :
  match segment_phases Examples.moving_average Examples.central_gradient sqrt6
          Examples.growth_hours Examples.growth_curve 5 with
  | Some phases =>
      phases = [] \/
      exists derivative,
        Examples.central_gradient
          (Examples.moving_average Examples.growth_curve
             (Nat.max 3 (List.length Examples.growth_curve / 20)))
          = Some derivative /\
        Forall (phase_sound derivative (std_pop sqrt6 derivative * (1 # 2)) 5) phases /\
        StronglySorted phase_before phases
  | None => False
  end.
Proof.
  destruct (segment_phases Examples.moving_average Examples.central_gradient sqrt6
              Examples.growth_hours Examples.growth_curve 5) as [phases|] eqn:E.
  - apply (@segment_phases_sound Examples.moving_average Examples.central_gradient
             sqrt6 Examples.growth_hours Examples.growth_curve 5 phases E).
  - vm_compute in E. discriminate E.
Defined.

End PhaseFacts.

(** ** The request handler's helpers *)

Module MainFacts.
Import Py Np Main PyFacts.

(** Induction on an object, with the property known for the values of a
    dict and the items of a list. *)
Lemma Obj_induction (P : Obj -> Prop) :
  (forall items, Forall (fun kv => P (snd kv)) items -> P (ODict items)) ->
  (forall items, Forall P items -> P (OList items)) ->
  (forall b, P (OBool b)) -> (forall b, P (ONpBool b)) ->
  (forall f, P (OFloat f)) -> (forall f, P (ONpFloat64 f)) ->
  (forall z, P (ONpInt z)) ->
  (forall f, P (ONpFloat f)) ->
  (forall o, P o -> P (ONdarray o)) ->
  (forall s, P (OStr s)) -> (forall s, P (ONpStr s)) ->
  (forall z, P (OInt z)) -> P ONone ->
  (forall s, P (OOther s)) ->
  forall o, P o.
Proof.
  intros Hd Hl Hb Hnb Hf Hf64 Hni Hnf Ha Hs Hns Hi Hn Ho.
  fix IH 1. intros [items|items|b|b|f|f|z|f|o|s|s|z| |s].
  - apply Hd. induction items as [|[k v] items IHi]; constructor; [apply IH | exact IHi].
  - apply Hl. induction items as [|v items IHi]; constructor; [apply IH | exact IHi].
  - apply Hb.
  - apply Hnb.
  - apply Hf.
  - apply Hf64.
  - apply Hni.
  - apply Hnf.
  - apply Ha, IH.
  - apply Hs.
  - apply Hns.
  - apply Hi.
  - apply Hn.
  - apply Ho.
Qed.

(** X23.  Whatever the object, every value of the cleaned object, at any
    depth and the keys of dicts aside, is a dict, a list, a Python
    boolean, a finite float (a [float], or an [np.float64], which is
    returned as it is), an integer, a string (a [str], or an [np.str_],
    which is returned as it is) or [None]: no NaN, no infinity, no
    [np.bool_], no NumPy integer, no [np.float16] or [np.float32], no
    array and no foreign object is left among the values.  The keys of a
    dict are not cleaned: they are the keys it had. *)
Theorem clean_for_json_safe (o : Obj) :
  json_safe (clean_for_json o) = true /\
  (forall items, o = ODict items -> keys (clean_for_json o) = map fst items).
Proof.
  split.
  - induction o as [items IH|items IH|b|b|f|f|z|f|o IH|s|s|z| |s] using Obj_induction;
      simpl; try reflexivity; try assumption.
    + induction IH as [|[k v] items Hv _ IHi]; [reflexivity|].
      simpl in *. now rewrite Hv, IHi.
    + induction IH as [|v items Hv _ IHi]; [reflexivity|].
      simpl in *. now rewrite Hv, IHi.
    + destruct f; reflexivity.
    + destruct f; reflexivity.
    + destruct f; reflexivity.
  - intros items ->. simpl. rewrite map_map. reflexivity.
Qed.

(** A finite [np.float64] and an [np.str_] pass through the cleaning as
    the NumPy objects they are, and so does a key of any kind. *)
Example clean_for_json_numpy_left :
  clean_for_json (ODict [(ONpInt 1, OList [ONpFloat64 (FNum (1 # 2)); ONpStr "B1"])])
  = ODict [(ONpInt 1, OList [ONpFloat64 (FNum (1 # 2)); ONpStr "B1"])].
Proof. reflexivity. Qed.

(** X24.  Cleaning a second time changes nothing. *)
Theorem clean_for_json_idempotent (o : Obj) :
  clean_for_json (clean_for_json o) = clean_for_json o.
Proof.
  induction o as [items IH|items IH|b|b|f|f|z|f|o IH|s|s|z| |s] using Obj_induction;
    simpl; try reflexivity; try assumption.
  - f_equal. induction IH as [|[k v] items Hv _ IHi]; [reflexivity|].
    simpl in *. now rewrite Hv, IHi.
  - f_equal. induction IH as [|v items Hv _ IHi]; [reflexivity|].
    simpl in *. now rewrite Hv, IHi.
  - destruct f; reflexivity.
  - destruct f; reflexivity.
  - destruct f; reflexivity.
Qed.

(** X25.  A value that is fit for JSON already is returned as it is. *)
Theorem clean_for_json_keeps_json (o : Obj) :
  json_safe o = true -> clean_for_json o = o.
Proof.
  induction o as [items IH|items IH|b|b|f|f|z|f|o IH|s|s|z| |s] using Obj_induction;
    simpl; try discriminate; try reflexivity.
  - intro H. f_equal. induction IH as [|[k v] items Hv _ IHi]; [reflexivity|].
    simpl in *. apply andb_prop in H. destruct H as [H1 H2].
    rewrite (Hv H1), (IHi H2). reflexivity.
  - intro H. f_equal. induction IH as [|v items Hv _ IHi]; [reflexivity|].
    simpl in *. apply andb_prop in H. destruct H as [H1 H2].
    rewrite (Hv H1), (IHi H2). reflexivity.
  - destruct f; simpl; intro; congruence.
  - destruct f; simpl; intro; congruence.
Qed.

Lemma clean_for_json_keeps_json_witness :
  json_safe Examples.report = true /\
  clean_for_json Examples.report = Examples.report.
Proof.
  split; [reflexivity|].
  apply (@clean_for_json_keeps_json Examples.report). reflexivity.
Defined.

Lemma first_dense_some (ds : list Q) (i k : nat) :
  first_dense ds i = Some k ->
  exists j qd, k = (i + j)%nat /\ nth_error ds j = Some qd /\ (1 # 2) <= qd /\
    forall j' q, (j' < j)%nat -> nth_error ds j' = Some q -> q < (1 # 2).
Proof.
  revert i. induction ds as [|d ds IH]; intro i; simpl; [discriminate|].
  destruct (Qle_bool (1 # 2) d) eqn:E.
  - intro H. injection H as <-. exists 0%nat, d.
    split; [lia|]. split; [reflexivity|]. split; [now apply Qle_bool_iff|].
    intros j' q Hj. lia.
  - intro H. destruct (IH _ H) as [j [qd [Hk [Hn [Hq Hbefore]]]]].
    exists (S j), qd. split; [lia|]. split; [exact Hn|]. split; [exact Hq|].
    intros [|j'] q Hj Hq'.
    + simpl in Hq'. injection Hq' as <-.
      apply Qnot_le_lt. intro Hc. apply Qle_bool_iff in Hc. congruence.
    + apply (Hbefore j'); [lia | exact Hq'].
Qed.

Lemma first_dense_none (ds : list Q) (i : nat) :
  first_dense ds i = None ->
  forall j q, nth_error ds j = Some q -> q < (1 # 2).
Proof.
  revert i. induction ds as [|d ds IH]; intro i; simpl.
  - intros _ [|j] q H; discriminate H.
  - destruct (Qle_bool (1 # 2) d) eqn:E; [discriminate|].
    intros H [|j] q Hq.
    + simpl in Hq. injection Hq as <-.
      apply Qnot_le_lt. intro Hc. apply Qle_bool_iff in Hc. congruence.
    + apply (IH _ H j). exact Hq.
Qed.

Lemma header_above_some (ds : list Q) (k i : nat) :
  header_above ds k = Some i ->
  (i < k)%nat /\ nth i ds 0 < (3 # 10) /\
  forall j, (i < j < k)%nat -> (3 # 10) <= nth j ds 0.
Proof.
  induction k as [|k IH]; simpl; [discriminate|].
  destruct (ltb (nth k ds 0) (3 # 10)) eqn:E.
  - intro H. injection H as <-. apply ltb_lt in E.
    split; [lia|]. split; [exact E|]. intros j Hj. lia.
  - intro H. destruct (IH H) as [Hi [Hq Hbetween]]. apply ltb_ge in E.
    split; [lia|]. split; [exact Hq|].
    intros j Hj. destruct (Nat.eq_dec j k) as [-> | Hjk]; [exact E|].
    apply Hbetween. lia.
Qed.

Lemma header_above_none (ds : list Q) (k : nat) :
  header_above ds k = None ->
  forall j, (j < k)%nat -> (3 # 10) <= nth j ds 0.
Proof.
  induction k as [|k IH]; simpl; [intros _ j Hj; lia|].
  destruct (ltb (nth k ds 0) (3 # 10)) eqn:E; [discriminate|].
  intros H j Hj. apply ltb_ge in E.
  destruct (Nat.eq_dec j k) as [-> | Hjk]; [exact E|]. apply IH; [exact H | lia].
Qed.

Lemma nth_of_nth_error (ds : list Q) (j : nat) (q : Q) :
  nth_error ds j = Some q -> nth j ds 0 = q.
Proof. intro H. now apply nth_error_nth. Qed.

(** What [locate_rows] answers for the densities [ds]: the default
    [(0, 1)] when no row is dense, and otherwise the first dense row as
    the start of the data, with the nearest row above it that is sparse
    as the header, if there is one. *)
Lemma locate_rows_sound (ds : list Q) :
  let (h, d) := locate_rows ds in
  (h = Some 0%nat /\ d = 1%nat /\
   forall i q, nth_error ds i = Some q -> q < (1 # 2)) \/
  (exists qd, nth_error ds d = Some qd /\ (1 # 2) <= qd /\
     (forall i q, (i < d)%nat -> nth_error ds i = Some q -> q < (1 # 2)) /\
     match h with
     | Some h =>
         (h < d)%nat /\
         (exists qh, nth_error ds h = Some qh /\ qh < (3 # 10)) /\
         forall i q, (h < i < d)%nat -> nth_error ds i = Some q -> (3 # 10) <= q
     | None =>
         forall i q, (i < d)%nat -> nth_error ds i = Some q -> (3 # 10) <= q
     end).
Proof.
  unfold locate_rows.
  destruct (first_dense ds 0) as [k|] eqn:Ef.
  - destruct (first_dense_some _ _ Ef) as [j [qd [Hk [Hn [Hq Hbefore]]]]].
    simpl in Hk. subst j.
    assert (Hlen : (k < List.length ds)%nat) by (apply nth_error_Some; congruence).
    assert (Hget : forall i, (i < k)%nat -> exists q, nth_error ds i = Some q).
    { intros i Hi. destruct (nth_error ds i) as [q|] eqn:E; [eauto|].
      apply nth_error_None in E. lia. }
    destruct k as [|header_row].
    + right. exists qd. split; [exact Hn|]. split; [exact Hq|].
      split; intros i q Hi; lia.
    + destruct (ltb (nth header_row ds 0) (3 # 10)) eqn:E.
      * right. exists qd. split; [exact Hn|]. split; [exact Hq|].
        split; [exact Hbefore|]. split; [lia|]. split.
        -- destruct (Hget header_row) as [qh Hqh]; [lia|]. exists qh.
           split; [exact Hqh|]. apply ltb_lt in E.
           now rewrite (nth_of_nth_error _ _ Hqh) in E.
        -- intros i q Hi. lia.
      * destruct (header_above ds (S header_row)) as [i|] eqn:Eh.
        -- destruct (header_above_some _ _ Eh) as [Hi [Hqi Hbetween]].
           right. exists qd. split; [exact Hn|]. split; [exact Hq|].
           split; [exact Hbefore|]. split; [lia|]. split.
           ++ destruct (Hget i) as [qh Hqh]; [lia|]. exists qh.
              split; [exact Hqh|]. now rewrite (nth_of_nth_error _ _ Hqh) in Hqi.
           ++ intros j q Hj Hqj. rewrite <- (nth_of_nth_error _ _ Hqj).
              apply Hbetween. lia.
        -- right. exists qd. split; [exact Hn|]. split; [exact Hq|].
           split; [exact Hbefore|].
           intros j q Hj Hqj. rewrite <- (nth_of_nth_error _ _ Hqj).
           apply (@header_above_none ds (S header_row) Eh). lia.
  - left. split; [reflexivity|]. split; [reflexivity|].
    apply (first_dense_none _ _ Ef).
Qed.

Section DataStart.
Variable float_ok : string -> bool.

(** X26.  [detect_data_start_row] answers the default [(0, 1)] when the file
    has fewer than two lines, and also when it has at least two and none
    of the scanned lines is half numeric.  When the file has at least two
    lines and some scanned line is at least half numeric, the data start
    at the first such line, and the header is the nearest line above it
    that is less than 30 % numeric: every line between the two is at
    least 30 % and less than half numeric; there is no header when no
    line above the data is that sparse. *)
Theorem data_start_row_sound (contents : string) (max_scan_rows : nat) :
  let lines := split_on "010" (Py.strip contents) in
  let ds := map (numeric_density float_ok)
                (firstn (Nat.min max_scan_rows (List.length lines)) lines) in
  let (h, d) := detect_data_start_row float_ok contents max_scan_rows in
  ((List.length lines < 2)%nat -> h = Some 0%nat /\ d = 1%nat) /\
  ((2 <= List.length lines)%nat ->
   (forall i q, nth_error ds i = Some q -> q < (1 # 2)) ->
   h = Some 0%nat /\ d = 1%nat) /\
  ((2 <= List.length lines)%nat ->
   (exists i q, nth_error ds i = Some q /\ (1 # 2) <= q) ->
   exists qd, nth_error ds d = Some qd /\ (1 # 2) <= qd /\
     (forall i q, (i < d)%nat -> nth_error ds i = Some q -> q < (1 # 2)) /\
     match h with
     | Some h =>
         (h < d)%nat /\
         (exists qh, nth_error ds h = Some qh /\ qh < (3 # 10)) /\
         forall i q, (h < i < d)%nat -> nth_error ds i = Some q -> (3 # 10) <= q
     | None =>
         forall i q, (i < d)%nat -> nth_error ds i = Some q -> (3 # 10) <= q
     end).
Proof.
  cbv zeta. unfold detect_data_start_row.
  set (lines := split_on "010" (Py.strip contents)).
  destruct (List.length lines <? 2)%nat eqn:E.
  - apply Nat.ltb_lt in E. split; [auto|]. split; intros; lia.
  - apply Nat.ltb_ge in E.
    set (ds := map (numeric_density float_ok)
                   (firstn (Nat.min max_scan_rows (List.length lines)) lines)).
    pose proof (locate_rows_sound ds) as H.
    destruct (locate_rows ds) as [h d].
    split; [intro; lia|]. split.
    + intros _ Hsparse.
      destruct H as [[H1 [H2 _]] | [qd [Hd [Hqd _]]]]; [auto|].
      specialize (Hsparse d qd Hd). exfalso.
      apply (Qlt_irrefl qd). eapply Qlt_le_trans; [exact Hsparse | exact Hqd].
    + intros _ [i [q [Hi Hq]]].
      destruct H as [[_ [_ Hsparse]] | H]; [|exact H].
      specialize (Hsparse i q Hi). exfalso.
      apply (Qlt_irrefl q). eapply Qlt_le_trans; [exact Hsparse | exact Hq].
Qed.

(** The densities are fractions: between 0 and 1. *)
Lemma numeric_density_bounds (line : string) :
  0 <= numeric_density float_ok line <= 1.
Proof.
  unfold numeric_density.
  destruct (split_on "," line) as [|c cells] eqn:E; [split; discriminate|].
  set (cs := c :: cells).
  assert (Hn : 0 < of_nat (List.length cs)) by (apply of_nat_pos; simpl; lia).
  assert (Hle : of_nat (List.length (filter (numeric_cell float_ok) cs))
                <= of_nat (List.length cs)) by (apply of_nat_le, filter_length_le).
  assert (H0 : 0 <= of_nat (List.length (filter (numeric_cell float_ok) cs))).
  { unfold of_nat. change 0 with (inject_Z 0). rewrite <- Zle_Qle. lia. }
  split.
  - apply Qle_shift_div_l; [exact Hn | lra].
  - apply Qle_shift_div_r; [exact Hn | lra].
Qed.

End DataStart.

End MainFacts.

(** ** Mean trajectory across batches *)

Module MeanTrajectoryFacts.
Import Py Np GlobalMetricsAnalyzer PyFacts NpFacts OutlierFacts TemporalFacts.

(** [t] is equal to no element of [l]. *)
Lemma distinct_in (l : list Q) (u : Q) :
  In u (distinct l) -> In u l.
Proof.
  induction l as [|t l IH]; simpl; [tauto|].
  intros [-> | H]; [now left|]. apply filter_In in H. right. apply IH, H.
Qed.










Section Trajectory.
Variable sqrt : Q -> Q.
Variables time_col value_col : string.





End Trajectory.


End MeanTrajectoryFacts.

(** ** Rows and batches of the canonical form *)

Module StandardFormFacts.
Import Py Np Pd DatasetAnalyzer PyFacts.

Lemma Qeq_bool_euclid (x y z : Q) :
  Qeq_bool x y = true -> Qeq_bool x z = true -> Qeq_bool y z = true.
Proof.
  intros H1 H2. apply Qeq_bool_iff in H1, H2. apply Qeq_bool_iff.
  now rewrite <- H1, <- H2.
Qed.

(** Two values that are the same as a third are the same. *)
Lemma cell_same_euclid (c a b : Cell) :
  cell_same c a = true -> cell_same c b = true -> cell_same a b = true.
Proof.
  destruct c, a, b; simpl; try discriminate; try reflexivity;
    try (apply Qeq_bool_euclid).
  intros H1 H2. apply String.eqb_eq in H1, H2. subst. apply String.eqb_refl.
Qed.

Lemma cell_eqb_same (c b : Cell) :
  is_null c = false -> cell_eqb c b = cell_same c b.
Proof. destruct c; simpl; [discriminate | reflexivity ..]. Qed.

Lemma cell_eqb_null (b : Cell) : cell_eqb CNull b = false.
Proof. destruct b; reflexivity. Qed.

Lemma cell_eqb_null_r (c : Cell) : cell_eqb c CNull = false.
Proof. destruct c; reflexivity. Qed.

Lemma unique_acc_fresh (l seen : list Cell) (b : Cell) :
  In b (unique_acc seen l) -> existsb (cell_same b) seen = false.
Proof.
  revert seen. induction l as [|a l IH]; intro seen; simpl; [tauto|].
  destruct (existsb (cell_same a) seen) eqn:E.
  - apply IH.
  - intros [<- | H]; [exact E|].
    specialize (IH _ H). simpl in IH. apply orb_false_iff in IH. apply IH.
Qed.

Lemma unique_acc_apart (l seen : list Cell) :
  ForallOrdPairs (fun a b => cell_same b a = false) (unique_acc seen l).
Proof.
  revert seen. induction l as [|a l IH]; intro seen; simpl; [constructor|].
  destruct (existsb (cell_same a) seen); [apply IH|].
  constructor; [|apply IH].
  apply Forall_forall. intros b Hb.
  apply unique_acc_fresh in Hb. simpl in Hb. apply orb_false_iff in Hb. apply Hb.
Qed.

Lemma unique_acc_cover (l seen : list Cell) (c : Cell) :
  In c l ->
  existsb (cell_same c) seen = true \/
  exists b, In b (unique_acc seen l) /\ cell_same c b = true.
Proof.
  revert seen. induction l as [|a l IH]; intro seen; simpl; [tauto|].
  intros [-> | H].
  - destruct (existsb (cell_same c) seen) eqn:E; [now left|].
    right. exists c. split; [now left|].
    destruct c; simpl; try reflexivity.
    + apply Qeq_bool_iff; reflexivity.
    + apply Qeq_bool_iff; reflexivity.
    + destruct b; reflexivity.
    + apply String.eqb_refl.
  - destruct (existsb (cell_same a) seen) eqn:E; [now apply IH|].
    destruct (IH (a :: seen) H) as [Hs | [b [Hb Eb]]].
    + simpl in Hs. apply orb_true_iff in Hs. destruct Hs as [Hs | Hs]; [|now left].
      right. exists a. split; [now left | exact Hs].
    + right. exists b. split; [now right | exact Eb].
Qed.

(** Among values that differ from each other, one and only one is the
    same as [c], if any is. *)
Lemma same_once (U : list Cell) (c : Cell) :
  ForallOrdPairs (fun a b => cell_same b a = false) U ->
  (exists b, In b U /\ cell_same c b = true) ->
  List.length (filter (cell_same c) U) = 1%nat.
Proof.
  induction 1 as [|a U Ha HU IH]; intros [b [Hb Eb]]; [destruct Hb|].
  simpl. rewrite Forall_forall in Ha.
  destruct (cell_same c a) eqn:E.
  - simpl. f_equal.
    assert (Hnone : filter (cell_same c) U = []).
    { clear IH HU b Hb Eb. induction U as [|w U IHU]; [reflexivity|]. simpl.
      destruct (cell_same c w) eqn:Ew.
      - assert (cell_same w a = true) by (eapply cell_same_euclid; eassumption).
        assert (cell_same w a = false) by (apply Ha; now left). congruence.
      - apply IHU. intros x Hx. apply Ha. now right. }
    now rewrite Hnone.
  - apply IH. destruct Hb as [<- | Hb]; [congruence|]. eauto.
Qed.

Lemma list_sum_cons (a : nat) (l : list nat) :
  list_sum (a :: l) = (a + list_sum l)%nat.
Proof. reflexivity. Qed.

(** Counting the pairs of a relation row by row or column by column. *)
Lemma double_count (A B : Type) (e : A -> B -> bool) (L : list A) (U : list B) :
  list_sum (map (fun b => List.length (filter (fun c => e c b) L)) U)
  = list_sum (map (fun c => List.length (filter (e c) U)) L).
Proof.
  induction L as [|c L IH]; simpl.
  - induction U as [|b U IHU]; simpl; [reflexivity | exact IHU].
  - rewrite <- IH. clear IH. induction U as [|b U IHU]; simpl; [reflexivity|].
    destruct (e c b); simpl; lia.
Qed.

(** The batches split the rows that have a batch id: such a row belongs
    to exactly one batch, a row without batch id to none. *)
Lemma batches_partition (l : list Cell) :
  list_sum (map (fun b => List.length (filter (fun c => cell_eqb c b) l)) (unique l))
  = List.length (non_null l).
Proof.
  rewrite double_count.
  assert (H : forall l', (forall c, In c l' -> In c l) ->
            list_sum (map (fun c => List.length (filter (cell_eqb c) (unique l))) l')
            = List.length (non_null l')).
  { induction l' as [|c l' IH]; intro Hsub; [reflexivity|].
    rewrite map_cons, list_sum_cons, IH by (intros; apply Hsub; now right).
    unfold non_null. cbn [filter].
    destruct (is_null c) eqn:En.
    - destruct c; try discriminate. cbn [negb].
      assert (Hnone : filter (cell_eqb CNull) (unique l) = []).
      { clear. induction (unique l) as [|x u IHu]; [reflexivity|].
        cbn [filter]. rewrite cell_eqb_null. exact IHu. }
      rewrite Hnone. reflexivity.
    - cbn [negb List.length].
      rewrite (filter_ext (cell_eqb c) (cell_same c))
        by (intro b; now apply cell_eqb_same).
      rewrite same_once; [reflexivity | apply unique_acc_apart |].
      destruct (@unique_acc_cover l [] c) as [Hs | Hb];
        [apply Hsub; now left | discriminate Hs | exact Hb]. }
  apply H. auto.
Qed.

Lemma flat_traverse_length (A B : Type) (f : A -> option (list B)) (g : A -> nat)
  (l : list A) (r : list B) :
  flat_traverse f l = Some r ->
  (forall a bs, In a l -> f a = Some bs -> List.length bs = g a) ->
  List.length r = list_sum (map g l).
Proof.
  revert r. induction l as [|a l IH]; intros r; simpl.
  - intros H _. injection H as <-. reflexivity.
  - destruct (f a) as [bs|] eqn:Ea; [|discriminate].
    destruct (flat_traverse f l) as [rest|]; [|discriminate].
    intros H Hg. injection H as <-. rewrite length_app.
    rewrite (Hg a bs) by (auto; now left).
    rewrite (IH rest eq_refl) by (intros; apply Hg; auto; now right). reflexivity.
Qed.

Lemma list_sum_const (A : Type) (k : nat) (l : list A) :
  list_sum (map (fun _ => k) l) = (k * List.length l)%nat.
Proof. induction l as [|a l IH]; simpl; [lia|]. rewrite IH. lia. Qed.

Lemma list_sum_scale (A : Type) (k : nat) (g : A -> nat) (l : list A) :
  list_sum (map (fun a => (k * g a)%nat) l) = (k * list_sum (map g l))%nat.
Proof. induction l as [|a l IH]; simpl; [lia|]. rewrite IH. lia. Qed.

Lemma row_records_length (self : Analyzer) (batch_id : string) (idx : nat)
  (rs : list StdRecord) :
  row_records self batch_id idx = Some rs ->
  List.length rs = List.length (numeric_cols self).
Proof.
  unfold row_records.
  destruct (match truthy (time_col self) with
            | Some t => option_map TCell (row_cell self idx t)
            | None => Some (TIndex idx)
            end) as [time_val|]; [|discriminate].
  intro H.
  rewrite (@flat_traverse_length _ _ _ (fun _ => 1%nat) _ _ H).
  - rewrite list_sum_const. lia.
  - intros var bs _ E. destruct (row_cell self idx var); [|discriminate].
    injection E as <-. reflexivity.
Qed.

Lemma batch_rows_length (bcol : list Cell) (batch : Cell) :
  List.length (batch_rows bcol batch)
  = List.length (filter (fun c => cell_eqb c batch) bcol).
Proof.
  unfold batch_rows, select. rewrite length_map.
  generalize 0%nat. induction bcol as [|c bcol IH]; intro s; [reflexivity|].
  cbn [List.length seq combine filter snd].
  destruct (cell_eqb c batch); cbn [List.length]; now rewrite IH.
Qed.

(** The records a loop appends are the groups its elements contribute, one
    after the other. *)
Lemma flat_traverse_groups (A B : Type) (f : A -> option (list B))
  (l : list A) (r : list B) :
  flat_traverse f l = Some r ->
  exists groups, r = List.concat groups /\ Forall2 (fun a g => f a = Some g) l groups.
Proof.
  revert r. induction l as [|a l IH]; intros r; simpl.
  - intro H. injection H as <-. exists []. split; [reflexivity | constructor].
  - destruct (f a) as [bs|] eqn:Ea; [|discriminate].
    destruct (flat_traverse f l) as [rest|]; [|discriminate].
    intro H. injection H as <-.
    destruct (IH rest eq_refl) as [groups [-> HF]].
    exists (bs :: groups). split; [reflexivity|]. constructor; assumption.
Qed.

(** Two nested loops append what one loop over the pairs appends. *)
Lemma flat_traverse_nested (A B C : Type) (g : A -> B -> option (list C))
  (h : A -> list B) (l : list A) (r : list C) :
  flat_traverse (fun a => flat_traverse (g a) (h a)) l = Some r ->
  flat_traverse (fun p => g (fst p) (snd p))
    (flat_map (fun a => map (pair a) (h a)) l) = Some r.
Proof.
  assert (Happ : forall (f : A * B -> option (list C)) l1 l2 r1 r2,
            flat_traverse f l1 = Some r1 -> flat_traverse f l2 = Some r2 ->
            flat_traverse f (l1 ++ l2) = Some (r1 ++ r2)).
  { intros f l1. induction l1 as [|p l1 IH]; intros l2 r1 r2; simpl.
    - intro H. injection H as <-. auto.
    - destruct (f p) as [bs|]; [|discriminate].
      destruct (flat_traverse f l1) as [rest|] eqn:E; [|discriminate].
      intros H H2. injection H as <-.
      rewrite (IH l2 rest r2 eq_refl H2). now rewrite app_assoc. }
  assert (Hmap : forall a l' r', flat_traverse (g a) l' = Some r' ->
            flat_traverse (fun p => g (fst p) (snd p)) (map (pair a) l') = Some r').
  { intros a l'. induction l' as [|b l' IH]; intros r'; simpl; [auto|].
    destruct (g a b) as [bs|]; [|discriminate].
    destruct (flat_traverse (g a) l') as [rest|]; [|discriminate].
    intro H. injection H as <-. now rewrite (IH rest eq_refl). }
  revert r. induction l as [|a l IH]; intros r; simpl; [auto|].
  destruct (flat_traverse (g a) (h a)) as [bs|] eqn:Ea; [|discriminate].
  destruct (flat_traverse _ l) as [rest|]; [|discriminate].
  intro H. injection H as <-.
  apply Happ; [now apply Hmap | now apply IH].
Qed.

(** The records of one row: one for each numeric variable, in the order of
    [numeric_cols], with the cells of that row. *)
Lemma row_records_spec (self : Analyzer) (batch_id : string) (idx : nat)
  (rs : list StdRecord) :
  row_records self batch_id idx = Some rs ->
  map r_variable rs = numeric_cols self /\
  Forall (record_of_row self batch_id idx) rs.
Proof.
  unfold row_records, record_of_row.
  destruct (truthy (time_col self)) as [t|].
  - destruct (row_cell self idx t) as [c|]; [|discriminate]. cbn [option_map].
    generalize (numeric_cols self). intro vars. revert rs.
    induction vars as [|var vars IH]; intros rs; simpl.
    + intro H. injection H as <-. split; [reflexivity | constructor].
    + destruct (row_cell self idx var) as [v|] eqn:Ev; [|discriminate].
      cbn [option_map].
      destruct (flat_traverse _ vars) as [rest|]; [|discriminate].
      intro H. injection H as <-. destruct (IH rest eq_refl) as [Hm HF].
      split; [simpl; now rewrite Hm|].
      constructor; [|exact HF]. cbn. split; [reflexivity|].
      split; [exact Ev|]. exists c. auto.
  - generalize (numeric_cols self). intro vars. revert rs.
    induction vars as [|var vars IH]; intros rs; simpl.
    + intro H. injection H as <-. split; [reflexivity | constructor].
    + destruct (row_cell self idx var) as [v|] eqn:Ev; [|discriminate].
      cbn [option_map].
      destruct (flat_traverse _ vars) as [rest|]; [|discriminate].
      intro H. injection H as <-. destruct (IH rest eq_refl) as [Hm HF].
      split; [simpl; now rewrite Hm|].
      constructor; [|exact HF]. cbn. auto.
Qed.

Lemma select_seq_in (bcol : list Cell) (batch : Cell) (s i : nat) :
  In i (map fst (filter (fun p => cell_eqb (snd p) batch)
                   (combine (seq s (List.length bcol)) bcol))) <->
  (s <= i)%nat /\
  exists c, nth_error bcol (i - s) = Some c /\ cell_eqb c batch = true.
Proof.
  revert s. induction bcol as [|c bcol IH]; intro s.
  - simpl. split; [tauto|]. intros [_ [c [H _]]]. destruct (i - s)%nat; discriminate.
  - cbn [List.length seq combine filter snd].
    assert (Hrest : In i (map fst (filter (fun p => cell_eqb (snd p) batch)
                             (combine (seq (S s) (List.length bcol)) bcol))) <->
                    (S s <= i)%nat /\
                    exists c', nth_error (c :: bcol) (i - s) = Some c' /\
                               cell_eqb c' batch = true).
    { rewrite IH. split; intros [Hi [c' [Hn Hc]]]; (split; [lia|]); exists c';
        (split; [|exact Hc]).
      - replace (i - s)%nat with (S (i - S s)) by lia. exact Hn.
      - replace (i - s)%nat with (S (i - S s)) in Hn by lia. exact Hn. }
    destruct (cell_eqb c batch) eqn:E.
    + cbn [map fst In]. rewrite Hrest. split.
      * intros [<- | [Hi H]].
        -- split; [lia|]. exists c. rewrite Nat.sub_diag. auto.
        -- split; [lia | exact H].
      * intros [Hi [c' [Hn Hc]]].
        destruct (Nat.eq_dec s i) as [-> | Hne]; [now left|].
        right. split; [lia|]. exists c'. auto.
    + rewrite Hrest. split.
      * intros [Hi H]. split; [lia | exact H].
      * intros [Hi [c' [Hn Hc]]]. split; [|exists c'; auto].
        destruct (Nat.eq_dec s i) as [-> | Hne]; [|lia].
        rewrite Nat.sub_diag in Hn. simpl in Hn. congruence.
Qed.

(** The rows of a batch are the rows whose batch id equals it. *)
Lemma batch_rows_in (bcol : list Cell) (batch : Cell) (i : nat) :
  In i (batch_rows bcol batch) <->
  exists c, nth_error bcol i = Some c /\ cell_eqb c batch = true.
Proof.
  unfold batch_rows, select. rewrite select_seq_in, Nat.sub_0_r.
  split; [intros [_ H]; exact H | intro H; split; [lia | exact H]].
Qed.

Lemma batch_rows_nodup (bcol : list Cell) (batch : Cell) :
  NoDup (batch_rows bcol batch).
Proof.
  unfold batch_rows, select. generalize 0%nat.
  induction bcol as [|c bcol IH]; intro s; [constructor|].
  cbn [List.length seq combine filter snd].
  destruct (cell_eqb c batch); [|apply IH].
  cbn [map fst]. constructor; [|apply IH].
  intro H. apply select_seq_in in H. lia.
Qed.

Lemma flat_map_nodup (A B : Type) (R : A -> A -> Prop) (h : A -> list B)
  (U : list A) :
  ForallOrdPairs R U ->
  (forall a, NoDup (h a)) ->
  (forall a b i, R a b -> In i (h a) -> In i (h b) -> False) ->
  NoDup (flat_map h U).
Proof.
  intros HU Hh Hdis. induction HU as [|a U Ha HU IH]; [constructor|].
  cbn [flat_map]. apply NoDup_app; [apply Hh | exact IH |].
  intros i Hi Hin. apply in_flat_map in Hin. destruct Hin as [b [Hb Hib]].
  rewrite Forall_forall in Ha. exact (Hdis a b i (Ha b Hb) Hi Hib).
Qed.

(** No row belongs to two of the batches. *)
Lemma batch_rows_apart (bcol : list Cell) :
  NoDup (flat_map (batch_rows bcol) (unique bcol)).
Proof.
  apply (@flat_map_nodup _ _ (fun a b => cell_same b a = false)).
  - apply unique_acc_apart.
  - intro a. apply batch_rows_nodup.
  - intros a b i Hab Ha Hb.
    apply batch_rows_in in Ha, Hb.
    destruct Ha as [c [Hc Ea]]. destruct Hb as [c' [Hc' Eb]].
    assert (c' = c) by congruence. subst c'.
    assert (Hn : is_null c = false) by (destruct c; [discriminate Ea | reflexivity ..]).
    rewrite (@cell_eqb_same c a Hn) in Ea. rewrite (@cell_eqb_same c b Hn) in Eb.
    pose proof (@cell_same_euclid c b a Eb Ea). congruence.
Qed.

(** Every row that has a batch id belongs to one of the batches. *)
Lemma batch_rows_cover (bcol : list Cell) (i : nat) (c : Cell) :
  nth_error bcol i = Some c -> is_null c = false ->
  In i (flat_map (batch_rows bcol) (unique bcol)).
Proof.
  intros Hc Hn. apply in_flat_map.
  destruct (@unique_acc_cover bcol [] c) as [Hs | [b [Hb Eb]]];
    [eapply nth_error_In, Hc | discriminate Hs |].
  exists b. split; [exact Hb|]. apply batch_rows_in. exists c.
  split; [exact Hc|]. now rewrite (@cell_eqb_same c b Hn).
Qed.

Lemma Forall2_map_l (A A' B : Type) (k : A -> A') (P : A' -> B -> Prop)
  (l : list A) (l' : list B) :
  Forall2 (fun a b => P (k a) b) l l' -> Forall2 P (map k l) l'.
Proof. induction 1; simpl; constructor; assumption. Qed.

Lemma Forall2_impl_l (A B : Type) (P Q : A -> B -> Prop) (l : list A) (l' : list B) :
  (forall a b, P a b -> Q a b) -> Forall2 P l l' -> Forall2 Q l l'.
Proof. intro H. induction 1; constructor; auto. Qed.

Lemma map_snd_pairs (A B : Type) (h : A -> list B) (l : list A) :
  map snd (flat_map (fun a => map (pair a) (h a)) l) = flat_map h l.
Proof.
  induction l as [|a l IH]; [reflexivity|].
  cbn [flat_map]. rewrite map_app, IH, map_map. cbn [snd]. now rewrite map_id.
Qed.

Section Standardize.
Variable str : Cell -> string.

Lemma standardize_length (self : Analyzer) (records : list StdRecord) :
  _standardize_data str self = Some records ->
  List.length records =
  (List.length (numeric_cols self)
   * match batch_col self with
     | None => nrows (df self)
     | Some b =>
         match get (df self) b with
         | Some bc => List.length (non_null (cells bc))
         | None => 0
         end
     end)%nat.
Proof.
  unfold _standardize_data.
  destruct (batch_col self) as [b|].
  - destruct (get (df self) b) as [bc|]; [|discriminate].
    intro H.
    rewrite (@flat_traverse_length _ _ _
               (fun batch => (List.length (numeric_cols self)
                              * List.length (filter (fun c => cell_eqb c batch)
                                               (cells bc)))%nat) _ _ H).
    + rewrite list_sum_scale, batches_partition. reflexivity.
    + intros batch bs _ E.
      rewrite (@flat_traverse_length _ _ _
                 (fun _ => List.length (numeric_cols self)) _ _ E).
      * rewrite list_sum_const, batch_rows_length. reflexivity.
      * intros idx rs _ Hr. exact (row_records_length _ _ _ Hr).
  - intro H.
    rewrite (@flat_traverse_length _ _ _
               (fun _ => List.length (numeric_cols self)) _ _ H).
    + rewrite list_sum_const, length_seq. reflexivity.
    + intros idx rs _ Hr. exact (row_records_length _ _ _ Hr).
Qed.

(** X28.  The canonical form is made of the rows the loops visit, one after
    the other, each under one batch id and each contributing one record
    for every numeric variable, in the order of [numeric_cols], with the
    cells of that row.  No row is visited twice.  Without a batch column
    the rows visited are all the rows, in order, under the batch id
    "all"; with one, they are the rows that have a batch id, each under
    the [str] of the first value of the column that equals its own: the
    rows whose batch id is missing are left out.  So there are as many
    records as numeric variables times rows that have a batch id. *)
Theorem standardize_records (self : Analyzer) (records : list StdRecord) :
  _standardize_data str self = Some records ->
  exists (visited : list (string * nat)) (groups : list (list StdRecord)),
    records = List.concat groups /\
    Forall2 (fun v rs =>
               map r_variable rs = numeric_cols self /\
               Forall (record_of_row self (fst v) (snd v)) rs)
            visited groups /\
    NoDup (map snd visited) /\
    match batch_col self with
    | None => visited = map (pair "all"%string) (seq 0 (nrows (df self)))
    | Some b =>
        exists bc, get (df self) b = Some bc /\
          (forall batch_id idx, In (batch_id, idx) visited ->
             exists c batch,
               nth_error (cells bc) idx = Some c /\
               In batch (unique (cells bc)) /\
               cell_eqb c batch = true /\ batch_id = str batch) /\
          (forall idx c, nth_error (cells bc) idx = Some c ->
             (In idx (map snd visited) <-> is_null c = false))
    end /\
    List.length records =
    (List.length (numeric_cols self)
     * match batch_col self with
       | None => nrows (df self)
       | Some b =>
           match get (df self) b with
           | Some bc => List.length (non_null (cells bc))
           | None => 0
           end
       end)%nat.
Proof.
  intro H. pose proof (standardize_length _ H) as Hcount.
  unfold _standardize_data in H.
  destruct (batch_col self) as [b|].
  - destruct (get (df self) b) as [bc|]; [|discriminate].
    apply (@flat_traverse_nested _ _ _
             (fun batch idx => row_records self (str batch) idx)
             (batch_rows (cells bc))) in H.
    set (pairs := flat_map (fun a => map (pair a) (batch_rows (cells bc) a))
                    (unique (cells bc))) in H.
    destruct (flat_traverse_groups _ _ H) as [groups [Hr HF]].
    assert (Hsnd : map snd (map (fun p : Cell * nat => (str (fst p), snd p)) pairs)
                   = flat_map (batch_rows (cells bc)) (unique (cells bc))).
    { rewrite map_map. cbn [snd]. apply map_snd_pairs. }
    exists (map (fun p => (str (fst p), snd p)) pairs), groups.
    split; [exact Hr|]. split.
    { apply Forall2_map_l. cbn [fst snd].
      eapply Forall2_impl_l; [|exact HF].
      intros p rs Hp. cbn [fst snd] in Hp. now apply row_records_spec. }
    split; [rewrite Hsnd; apply batch_rows_apart|].
    split; [|exact Hcount].
    exists bc. split; [reflexivity|]. split.
    + intros batch_id idx Hin. apply in_map_iff in Hin.
      destruct Hin as [[batch i] [E Hin]]. cbn [fst snd] in E.
      injection E as <- ->. unfold pairs in Hin. apply in_flat_map in Hin.
      destruct Hin as [a [Ha Hin]]. apply in_map_iff in Hin.
      destruct Hin as [j [E Hj]]. injection E as -> ->.
      apply batch_rows_in in Hj. destruct Hj as [c [Hc Ec]].
      exists c, batch. auto.
    + intros idx c Hc. rewrite Hsnd. split.
      * intro Hin. apply in_flat_map in Hin. destruct Hin as [a [_ Hin]].
        apply batch_rows_in in Hin. destruct Hin as [c' [Hc' Ec]].
        assert (c' = c) by congruence. subst c'.
        destruct c; [discriminate Ec | reflexivity ..].
      * intro Hn. eapply batch_rows_cover; eassumption.
  - destruct (flat_traverse_groups _ _ H) as [groups [Hr HF]].
    exists (map (pair "all"%string) (seq 0 (nrows (df self)))), groups.
    split; [exact Hr|]. split.
    { apply Forall2_map_l. cbn [fst snd].
      eapply Forall2_impl_l; [|exact HF].
      intros idx rs Hp. now apply row_records_spec. }
    split; [|split; [reflexivity | exact Hcount]].
    rewrite map_map. cbn [snd]. rewrite map_id. apply seq_NoDup.
Qed.

End Standardize.

Lemma standardize_records_witness :
  match _standardize_data Examples.str_of_cell Examples.unlabelled_row with
  | Some records =>
      exists (visited : list (string * nat)) (groups : list (list StdRecord)),
        records = List.concat groups /\
        Forall2 (fun v rs =>
                   map r_variable rs = numeric_cols Examples.unlabelled_row /\
                   Forall (record_of_row Examples.unlabelled_row (fst v) (snd v)) rs)
                visited groups /\
        NoDup (map snd visited) /\
        List.length records = (2 * 3)%nat
  | None => False
  end.
Proof.
  destruct (_standardize_data Examples.str_of_cell Examples.unlabelled_row)
    as [records|] eqn:E.
  - destruct (@standardize_records Examples.str_of_cell Examples.unlabelled_row
                records E) as [visited [groups [H1 [H2 [H3 [_ H4]]]]]].
    exists visited, groups. repeat split; assumption.
  - vm_compute in E. discriminate E.
Defined.

End StandardFormFacts.

(** ** Overview of the data set *)

Module OverviewFacts.
Import Py Np Pd DatasetAnalyzer PyFacts NpFacts.

Lemma cell_same_null_r (c : Cell) : cell_same c CNull = is_null c.
Proof. destruct c; reflexivity. Qed.

Lemma cell_same_null_l (s : Cell) : cell_same CNull s = is_null s.
Proof. destruct s; reflexivity. Qed.

(** A null among the values seen does not matter to a value that is not
    null. *)
Lemma unique_acc_length (l seen seen' : list Cell) :
  (forall c, is_null c = false ->
     existsb (cell_same c) seen = existsb (cell_same c) seen') ->
  List.length (unique_acc seen l)
  = (List.length (unique_acc seen' (non_null l))
     + if (existsb is_null l && negb (existsb is_null seen))%bool then 1 else 0)%nat.
Proof.
  revert seen seen'. induction l as [|a l IH]; intros seen seen' Hs.
  - simpl. lia.
  - unfold non_null. cbn [unique_acc filter existsb].
    destruct (is_null a) eqn:Ea.
    + destruct a; try discriminate. cbn [negb orb andb].
      assert (En : existsb (cell_same CNull) seen = existsb is_null seen).
      { clear. induction seen as [|s seen IHs]; [reflexivity|].
        cbn [existsb]. now rewrite IHs, cell_same_null_l. }
      rewrite En. fold (non_null l).
      destruct (existsb is_null seen) eqn:E.
      * rewrite (IH seen seen' Hs). rewrite E. cbn [negb]. rewrite andb_false_r.
        reflexivity.
      * cbn [List.length negb].
        rewrite (IH (CNull :: seen) seen').
        -- cbn [existsb is_null orb negb]. rewrite andb_false_r. lia.
        -- intros c Hc. cbn [existsb]. rewrite cell_same_null_r, Hc. apply Hs, Hc.
    + cbn [negb unique_acc orb]. fold (non_null l).
      rewrite <- (Hs a Ea).
      destruct (existsb (cell_same a) seen) eqn:E.
      * apply IH, Hs.
      * cbn [List.length]. rewrite (IH (a :: seen) (a :: seen')).
        -- cbn [existsb]. rewrite Ea. cbn [orb]. lia.
        -- intros c Hc. cbn [existsb]. now rewrite (Hs c Hc).
Qed.

(** [unique()] lists the missing value as one more value. *)
Lemma unique_counts_null (l : list Cell) :
  List.length (unique l)
  = (nunique l + if existsb is_null l then 1 else 0)%nat.
Proof.
  unfold unique, nunique, unique. rewrite (@unique_acc_length l [] []).
  - cbn [existsb negb]. now rewrite andb_true_r.
  - reflexivity.
Qed.

Lemma in_dropna (s : Series) (v : Q) : In (Some v) s -> In v (dropna s).
Proof.
  induction s as [|[a|] s IH]; simpl; [tauto | |].
  - intros [E | H]; [left; congruence | right; auto].
  - intros [E | H]; [discriminate | auto].
Qed.

Section Overview.
Variable parse : string -> option Q.
Variable str : Cell -> string.

(** X29.  The overview counts at least one batch, calls the data multi-batch
    exactly when it counts two or more, and counts a missing batch id as
    a batch of its own: on a batch column that is not empty the count is
    the number of distinct ids plus one if an id is missing. *)
Theorem overview_batch_count (self : Analyzer) (o : Overview) :
  _get_overview parse str self = Some o ->
  (1 <= o_batch_count o)%nat /\
  (o_is_multi_batch o = true <-> (2 <= o_batch_count o)%nat) /\
  (forall b bc, truthy (batch_col self) = Some b -> get (df self) b = Some bc ->
     cells bc <> [] ->
     List.length (o_batches o) = o_batch_count o /\
     o_batch_count o
     = (nunique (cells bc) + if existsb is_null (cells bc) then 1 else 0)%nat).
Proof.
  unfold _get_overview.
  destruct (overview_batches self) as [batches|] eqn:Eb; [|discriminate].
  destruct (overview_duration parse self) as [duration|]; [|discriminate].
  intro H. injection H as <-.
  cbn [o_batch_count o_is_multi_batch o_batches].
  split; [destruct batches; simpl; lia|].
  split.
  { destruct batches as [|b1 [|b2 rest]]; simpl; split; intro; try lia;
      try discriminate; reflexivity. }
  intros b bc Hb Hbc Hne. unfold overview_batches in Eb.
  rewrite Hb, Hbc in Eb. cbn [option_map] in Eb.
  assert (E : batches = unique (cells bc)) by congruence.
  rewrite length_map. subst batches.
  destruct (cells bc) as [|c0 cs] eqn:Ec; [congruence|].
  assert (Hlen : (1 <= List.length (unique (c0 :: cs)))%nat) by (simpl; lia).
  rewrite <- unique_counts_null.
  destruct (unique (c0 :: cs)); [simpl in Hlen; lia|]. split; reflexivity.
Qed.

(** X30.  The duration of the overview spans every time stamp that is a
    number: none lies before its minimum or after its maximum, and the
    span is their difference. *)
Theorem overview_duration_covers (self : Analyzer) (o : Overview) (d : Duration) :
  _get_overview parse str self = Some o ->
  o_duration o = Some d ->
  d_span d == d_max d - d_min d /\ 0 <= d_span d /\
  exists t c,
    truthy (time_col self) = Some t /\ get (df self) t = Some c /\
    forall v, In (Some v) (to_numeric parse (cells c)) -> d_min d <= v <= d_max d.
Proof.
  unfold _get_overview.
  destruct (overview_batches self) as [batches|]; [|discriminate].
  destruct (overview_duration parse self) as [duration|] eqn:Ed; [|discriminate].
  intro H. injection H as <-. cbn [o_duration]. intros ->.
  unfold overview_duration in Ed.
  destruct (truthy (time_col self)) as [t|] eqn:Et; [|discriminate].
  destruct (get (df self) t) as [c|] eqn:Ec; [|discriminate].
  destruct (all_na (to_numeric parse (cells c))); [discriminate|].
  destruct (dropna (to_numeric parse (cells c))) as [|t0 rest] eqn:Edrop;
    [discriminate|].
  assert (E : d = mkDuration (min_of t0 rest) (max_of t0 rest)
                             (max_of t0 rest - min_of t0 rest)) by congruence.
  subst d. cbn [d_min d_max d_span].
  destruct (min_of_le rest t0) as [A1 A2]. destruct (max_of_ge rest t0) as [B1 B2].
  split; [reflexivity|]. split; [lra|].
  exists t, c. split; [reflexivity|]. split; [exact Ec|].
  intros v Hv. apply in_dropna in Hv. rewrite Edrop in Hv.
  destruct Hv as [<- | Hv]; split; auto.
Qed.

End Overview.

Lemma overview_batch_count_witness :
  match _get_overview parse_digits Examples.str_of_cell Examples.unlabelled_row with
  | Some o =>
      (1 <= o_batch_count o)%nat /\
      (o_is_multi_batch o = true <-> (2 <= o_batch_count o)%nat) /\
      (forall b bc,
         truthy (batch_col Examples.unlabelled_row) = Some b ->
         get (df Examples.unlabelled_row) b = Some bc ->
         cells bc <> [] ->
         List.length (o_batches o) = o_batch_count o /\
         o_batch_count o
         = (nunique (cells bc) + if existsb is_null (cells bc) then 1 else 0)%nat)
  | None => False
  end.
Proof.
  destruct (_get_overview parse_digits Examples.str_of_cell Examples.unlabelled_row)
    as [o|] eqn:E.
  - apply (@overview_batch_count parse_digits Examples.str_of_cell
             Examples.unlabelled_row o E).
  - vm_compute in E. discriminate E.
Defined.

Lemma overview_duration_covers_witness :
  match _get_overview parse_digits Examples.str_of_cell Examples.unlabelled_row with
  | Some o =>
      match o_duration o with
      | Some d =>
          d_span d == d_max d - d_min d /\ 0 <= d_span d /\
          exists t c,
            truthy (time_col Examples.unlabelled_row) = Some t /\
            get (df Examples.unlabelled_row) t = Some c /\
            forall v, In (Some v) (to_numeric parse_digits (cells c)) ->
                      d_min d <= v <= d_max d
      | None => False
      end
  | None => False
  end.
Proof.
  destruct (_get_overview parse_digits Examples.str_of_cell Examples.unlabelled_row)
    as [o|] eqn:E.
  - destruct (o_duration o) as [d|] eqn:Ed.
    + apply (@overview_duration_covers parse_digits Examples.str_of_cell
               Examples.unlabelled_row o d E Ed).
    + vm_compute in E. injection E as <-. discriminate Ed.
  - vm_compute in E. discriminate E.
Defined.

End OverviewFacts.
